(** * libmemcached transport core: a shallow embedding of
      [libmemcached/io.cc] and [libmemcached/do.cc].

    The build switches [ENABLE_SOCKET_FUNCTIONS], [ENABLE_MPI_FUNCTIONS] and
    [ENABLE_PRINT] are defined outside these two files.  The transport this
    development describes is the socket one: the translation follows the
    build with [ENABLE_SOCKET_FUNCTIONS] set and the other two clear, on
    Linux ([__linux] defined, [EWOULDBLOCK = EAGAIN], no [__MINGW32__]).
    Code that is outside every [#if] (the completion wait and the [strlen] at
    the end of [_io_fill]) is part of the model.

    System calls are answered by a scripted [world]: the k-th call of a kind
    gets the k-th answer of that kind, and the machine counts the calls it
    made, so that "no poll was issued" or "sendmsg was called n times" can be
    stated. *)

From Stdlib Require Import ZArith List Bool Lia.
Import ListNotations.
Open Scope Z_scope.

(** ** Return codes and their classification *)

Inductive memcached_return_t :=
| MEMCACHED_SUCCESS
| MEMCACHED_FAILURE
| MEMCACHED_CONNECTION_FAILURE
| MEMCACHED_WRITE_FAILURE
| MEMCACHED_PROTOCOL_ERROR
| MEMCACHED_MEMORY_ALLOCATION_FAILURE
| MEMCACHED_ERRNO
| MEMCACHED_TIMEOUT
| MEMCACHED_NOT_SUPPORTED
| MEMCACHED_IN_PROGRESS
| MEMCACHED_END
| MEMCACHED_STORED
| MEMCACHED_STAT
| MEMCACHED_DELETED
| MEMCACHED_BUFFERED
| MEMCACHED_VALUE.

Definition return_eqb (a b : memcached_return_t) : bool :=
  match a, b with
  | MEMCACHED_SUCCESS, MEMCACHED_SUCCESS
  | MEMCACHED_FAILURE, MEMCACHED_FAILURE
  | MEMCACHED_CONNECTION_FAILURE, MEMCACHED_CONNECTION_FAILURE
  | MEMCACHED_WRITE_FAILURE, MEMCACHED_WRITE_FAILURE
  | MEMCACHED_PROTOCOL_ERROR, MEMCACHED_PROTOCOL_ERROR
  | MEMCACHED_MEMORY_ALLOCATION_FAILURE, MEMCACHED_MEMORY_ALLOCATION_FAILURE
  | MEMCACHED_ERRNO, MEMCACHED_ERRNO
  | MEMCACHED_TIMEOUT, MEMCACHED_TIMEOUT
  | MEMCACHED_NOT_SUPPORTED, MEMCACHED_NOT_SUPPORTED
  | MEMCACHED_IN_PROGRESS, MEMCACHED_IN_PROGRESS
  | MEMCACHED_END, MEMCACHED_END
  | MEMCACHED_STORED, MEMCACHED_STORED
  | MEMCACHED_STAT, MEMCACHED_STAT
  | MEMCACHED_DELETED, MEMCACHED_DELETED
  | MEMCACHED_BUFFERED, MEMCACHED_BUFFERED
  | MEMCACHED_VALUE, MEMCACHED_VALUE => true
  | _, _ => false
  end.

(** Modelled from the spec: the [memcached_success] / [memcached_failed] /
    [memcached_fatal] / [memcached_continue] macros of the library's return
    header, which is not part of these two files.  Success is [SUCCESS] and
    the informational codes; everything else has failed and is fatal;
    "continue" is the retryable [IN_PROGRESS]. *)
Definition memcached_success (rc : memcached_return_t) : bool :=
  match rc with
  | MEMCACHED_SUCCESS | MEMCACHED_END | MEMCACHED_STORED | MEMCACHED_STAT
  | MEMCACHED_DELETED | MEMCACHED_BUFFERED | MEMCACHED_VALUE => true
  | _ => false
  end.

Definition memcached_failed (rc : memcached_return_t) : bool :=
  negb (memcached_success rc).

Definition memcached_fatal (rc : memcached_return_t) : bool :=
  negb (memcached_success rc).

Definition memcached_continue (rc : memcached_return_t) : bool :=
  return_eqb rc MEMCACHED_IN_PROGRESS.

(** ** Constants *)

(** Modelled from the spec: the fixed buffer capacity [MAX_BUFFER] and the
    UDP datagram header size; their defining header is not part of these
    files, the values are the library's. *)
Definition MEMCACHED_MAX_BUFFER : Z := 8196.
Definition UDP_DATAGRAM_HEADER_LENGTH : Z := 8.
Definition MAX_SERVERS_TO_POLL : Z := 100.
Definition UINT8_MAX : Z := 255.
Definition INVALID_SOCKET : Z := -1.

Definition wrap32 (z : Z) : Z := z mod 2 ^ 32.
Definition wrap64 (z : Z) : Z := z mod 2 ^ 64.

(** errno values (Linux). *)
Definition EINTR : Z := 4.
Definition EBADF : Z := 9.
Definition EAGAIN : Z := 11.
Definition ENOMEM : Z := 12.
Definition EFAULT : Z := 14.
Definition EINVAL : Z := 22.
Definition EPIPE : Z := 32.
Definition ERESTART : Z := 85.
Definition ENOTSOCK : Z := 88.
Definition EMSGSIZE : Z := 90.
Definition ENOBUFS : Z := 105.
Definition ENOTCONN : Z := 107.
Definition ETIMEDOUT : Z := 110.
Definition ECONNREFUSED : Z := 111.

(** poll(2) event bits. *)
Definition POLLIN : Z := 1.
Definition POLLOUT : Z := 4.
Definition POLLERR : Z := 8.
Definition POLLHUP : Z := 16.

Definition has_bit (flags bit : Z) : bool := negb (Z.land flags bit =? 0).

(** ** Data model *)

Inductive memcached_server_state_t :=
| MEMCACHED_SERVER_STATE_NEW
| MEMCACHED_SERVER_STATE_ADDRINFO
| MEMCACHED_SERVER_STATE_IN_PROGRESS
| MEMCACHED_SERVER_STATE_CONNECTED
| MEMCACHED_SERVER_STATE_IN_TIMEOUT.

(** A recorded error: the return code and the errno captured with it. *)
Definition error_t : Type := (memcached_return_t * Z)%type.

(** The owning [Memcached] handle, as far as these files read or write it. *)
Record Memcached := mkMemcached {
  poll_timeout : Z;
  use_udp : bool;             (* memcached_is_udp(root) *)
  is_replying : bool;         (* memcached_is_replying(root) *)
  callbacks : option nat;     (* NULL, or the number_of_callback registered *)
  memc_error_messages : list error_t   (* most recent first *)
}.

(** [memcached_instance_st].  [read_ptr] is kept as an offset into
    [read_buffer]; the buffer is a map from offsets to bytes. *)
Record memcached_instance_st := mkInstance {
  fd : Z;
  state : memcached_server_state_t;
  is_shutting_down : bool;              (* options.is_shutting_down *)
  cursor_active_ : Z;                   (* uint32_t, pending responses *)
  io_bytes_sent : Z;                    (* uint32_t *)
  request_id : Z;                       (* uint32_t *)
  io_wait_count_read : Z;               (* io_wait_count.read *)
  io_wait_count_write : Z;              (* io_wait_count.write *)
  io_wait_count_bytes_read : Z;         (* io_wait_count._bytes_read *)
  major_version : Z;
  minor_version : Z;
  micro_version : Z;
  read_ptr : Z;
  read_buffer_length : Z;               (* size_t *)
  read_data_length : Z;                 (* size_t *)
  write_buffer_offset : Z;              (* size_t *)
  read_buffer : Z -> Z;
  error_messages : list error_t;        (* most recent first *)
  root : option Memcached;
  udp_request_id : Z                    (* uint16_t, in the datagram header *)
}.

(** Field updates. *)
Definition set_fd (v : Z) (i : memcached_instance_st) :=
  let 'mkInstance _ b c d e f g h k l m n o p q r s t u x := i in
  mkInstance v b c d e f g h k l m n o p q r s t u x.
Definition set_state (v : memcached_server_state_t) (i : memcached_instance_st) :=
  let 'mkInstance a _ c d e f g h k l m n o p q r s t u x := i in
  mkInstance a v c d e f g h k l m n o p q r s t u x.
Definition set_is_shutting_down (v : bool) (i : memcached_instance_st) :=
  let 'mkInstance a b _ d e f g h k l m n o p q r s t u x := i in
  mkInstance a b v d e f g h k l m n o p q r s t u x.
Definition set_cursor_active_ (v : Z) (i : memcached_instance_st) :=
  let 'mkInstance a b c _ e f g h k l m n o p q r s t u x := i in
  mkInstance a b c v e f g h k l m n o p q r s t u x.
Definition set_io_bytes_sent (v : Z) (i : memcached_instance_st) :=
  let 'mkInstance a b c d _ f g h k l m n o p q r s t u x := i in
  mkInstance a b c d v f g h k l m n o p q r s t u x.
Definition set_request_id (v : Z) (i : memcached_instance_st) :=
  let 'mkInstance a b c d e _ g h k l m n o p q r s t u x := i in
  mkInstance a b c d e v g h k l m n o p q r s t u x.
Definition set_io_wait_count_read (v : Z) (i : memcached_instance_st) :=
  let 'mkInstance a b c d e f _ h k l m n o p q r s t u x := i in
  mkInstance a b c d e f v h k l m n o p q r s t u x.
Definition set_io_wait_count_write (v : Z) (i : memcached_instance_st) :=
  let 'mkInstance a b c d e f g _ k l m n o p q r s t u x := i in
  mkInstance a b c d e f g v k l m n o p q r s t u x.
Definition set_io_wait_count_bytes_read (v : Z) (i : memcached_instance_st) :=
  let 'mkInstance a b c d e f g h _ l m n o p q r s t u x := i in
  mkInstance a b c d e f g h v l m n o p q r s t u x.
Definition set_versions (v : Z) (i : memcached_instance_st) :=
  let 'mkInstance a b c d e f g h k _ _ _ o p q r s t u x := i in
  mkInstance a b c d e f g h k v v v o p q r s t u x.
Definition set_read_ptr (v : Z) (i : memcached_instance_st) :=
  let 'mkInstance a b c d e f g h k l m n _ p q r s t u x := i in
  mkInstance a b c d e f g h k l m n v p q r s t u x.
Definition set_read_buffer_length (v : Z) (i : memcached_instance_st) :=
  let 'mkInstance a b c d e f g h k l m n o _ q r s t u x := i in
  mkInstance a b c d e f g h k l m n o v q r s t u x.
Definition set_read_data_length (v : Z) (i : memcached_instance_st) :=
  let 'mkInstance a b c d e f g h k l m n o p _ r s t u x := i in
  mkInstance a b c d e f g h k l m n o p v r s t u x.
Definition set_write_buffer_offset (v : Z) (i : memcached_instance_st) :=
  let 'mkInstance a b c d e f g h k l m n o p q _ s t u x := i in
  mkInstance a b c d e f g h k l m n o p q v s t u x.
Definition set_read_buffer (v : Z -> Z) (i : memcached_instance_st) :=
  let 'mkInstance a b c d e f g h k l m n o p q r _ t u x := i in
  mkInstance a b c d e f g h k l m n o p q r v t u x.
Definition set_error_messages (v : list error_t) (i : memcached_instance_st) :=
  let 'mkInstance a b c d e f g h k l m n o p q r s _ u x := i in
  mkInstance a b c d e f g h k l m n o p q r s v u x.
Definition set_root (v : option Memcached) (i : memcached_instance_st) :=
  let 'mkInstance a b c d e f g h k l m n o p q r s t _ x := i in
  mkInstance a b c d e f g h k l m n o p q r s t v x.
Definition set_udp_request_id (v : Z) (i : memcached_instance_st) :=
  let 'mkInstance a b c d e f g h k l m n o p q r s t u _ := i in
  mkInstance a b c d e f g h k l m n o p q r s t u v.
Definition set_memc_error_messages (v : list error_t) (r : Memcached) :=
  let 'mkMemcached a b c d _ := r in mkMemcached a b c d v.

(** ** The scripted world and the machine *)

(** Answer of a send/sendmsg call: [-1] with an errno, or a byte count. *)
Inductive io_result :=
| IoErr (errno : Z)
| IoLen (n : Z).

(** Answer of recv: [-1] with an errno, or the bytes delivered (none: the
    peer closed). *)
Inductive recv_result :=
| RecvErr (errno : Z)
| RecvData (data : list Z).

(** Answer of a poll on one descriptor: [-1] with an errno, [0], or one
    active descriptor with its [revents]. *)
Inductive poll_result :=
| PollErr (errno : Z)
| PollNone
| PollActive (revents : Z).

(** Answer of a poll on several descriptors: [-1] with an errno, [0], or the
    [revents] of each descriptor polled, in order. *)
Inductive poll_many_result :=
| PollManyErr (errno : Z)
| PollManyNone
| PollManyActive (revents : list Z).

(** Calls made so far, by kind. *)
Record calls := mkCalls {
  n_shutdown : nat;
  n_closesocket : nat;
  n_poll : nat;
  n_getsockopt : nat;
  n_send : nat;
  n_recv : nat;
  n_sendmsg : nat;
  n_purge : nat;
  n_response : nat;
  n_callback : nat;
  n_mpi_test : nat;
  n_connect : nat
}.

Definition no_calls : calls := mkCalls 0 0 0 0 0 0 0 0 0 0 0 0.

Record machine := mkMachine {
  inst : memcached_instance_st;
  sys : calls
}.

(** The collaborators that live outside these two files
    ([memcached_purge], [memcached_response], the user's callbacks) are
    answered by the world as well: they may change the connection. *)
Record world := mkWorld {
  w_shutdown : nat -> option Z;       (* None: 0; Some e: SOCKET_ERROR, errno e *)
  w_poll : nat -> poll_result;
  w_getsockopt : nat -> option Z;     (* Some err: returned 0 and stored err *)
  w_send : nat -> io_result;
  w_recv : nat -> recv_result;
  w_sendmsg : nat -> io_result;
  w_purge : nat -> memcached_instance_st -> bool * memcached_instance_st;
  w_response : nat -> memcached_instance_st ->
               memcached_return_t * memcached_instance_st;
  w_callback : nat -> memcached_return_t;
  w_mpi_test : nat -> bool;           (* the flag MPI_Test stores *)
  w_connect : nat -> memcached_instance_st ->
              memcached_return_t * memcached_instance_st
}.

(** ** A small monad: state passing over [machine], with loops cut by fuel
    and with faults (a dereferenced null [root], a failed [assert], a scan
    that leaves its buffer). *)

Inductive fault_t :=
| NullDeref                      (* [instance->root] with a null root *)
| AssertionFailed (line : Z)     (* the source line of the assert *)
| OutOfBounds                    (* an access that leaves its array *)
| Uninitialized.                 (* a read of an unassigned out-parameter *)

Inductive outcome (A : Type) :=
| Done (a : A)
| OutOfFuel
| Fault (why : fault_t).
Arguments Done {A} a.
Arguments OutOfFuel {A}.
Arguments Fault {A} why.

Definition M (A : Type) : Type := machine -> outcome (A * machine).

Definition ret {A} (a : A) : M A := fun m => Done (a, m).
Definition bind {A B} (c : M A) (k : A -> M B) : M B :=
  fun m => match c m with
           | Done (a, m') => k a m'
           | OutOfFuel => OutOfFuel
           | Fault why => Fault why
           end.
Definition fault {A} (why : fault_t) : M A := fun _ => Fault why.
Definition out_of_fuel {A} : M A := fun _ => OutOfFuel.

Declare Scope io_scope.
Delimit Scope io_scope with io.
Notation "x <- c ;; k" := (bind c (fun x => k))
  (at level 61, c at next level, right associativity) : io_scope.
Notation "c ;; k" := (bind c (fun _ => k))
  (at level 61, right associativity) : io_scope.
Notation "' pat <- c ;; k" := (bind c (fun x => match x with pat => k end))
  (at level 61, pat pattern, c at next level, right associativity) : io_scope.
Open Scope io_scope.

Definition get_inst : M memcached_instance_st := fun m => Done (inst m, m).
Definition put_inst (i : memcached_instance_st) : M unit :=
  fun m => Done (tt, mkMachine i (sys m)).
Definition modify (f : memcached_instance_st -> memcached_instance_st) : M unit :=
  fun m => Done (tt, mkMachine (f (inst m)) (sys m)).
Definition get_sys : M calls := fun m => Done (sys m, m).
Definition put_sys (c : calls) : M unit :=
  fun m => Done (tt, mkMachine (inst m) c).

(** [instance->root->...]: a null [root] is a fault. *)
Definition get_root : M Memcached :=
  fun m => match root (inst m) with
           | Some r => Done (r, m)
           | None => Fault NullDeref
           end.

Definition bump_shutdown (c : calls) :=
  let 'mkCalls a b d e f g h i j k l n := c in mkCalls (S a) b d e f g h i j k l n.
Definition bump_closesocket (c : calls) :=
  let 'mkCalls a b d e f g h i j k l n := c in mkCalls a (S b) d e f g h i j k l n.
Definition bump_poll (c : calls) :=
  let 'mkCalls a b d e f g h i j k l n := c in mkCalls a b (S d) e f g h i j k l n.
Definition bump_getsockopt (c : calls) :=
  let 'mkCalls a b d e f g h i j k l n := c in mkCalls a b d (S e) f g h i j k l n.
Definition bump_send (c : calls) :=
  let 'mkCalls a b d e f g h i j k l n := c in mkCalls a b d e (S f) g h i j k l n.
Definition bump_recv (c : calls) :=
  let 'mkCalls a b d e f g h i j k l n := c in mkCalls a b d e f (S g) h i j k l n.
Definition bump_sendmsg (c : calls) :=
  let 'mkCalls a b d e f g h i j k l n := c in mkCalls a b d e f g (S h) i j k l n.
Definition bump_purge (c : calls) :=
  let 'mkCalls a b d e f g h i j k l n := c in mkCalls a b d e f g h (S i) j k l n.
Definition bump_response (c : calls) :=
  let 'mkCalls a b d e f g h i j k l n := c in mkCalls a b d e f g h i (S j) k l n.
Definition bump_callback (c : calls) :=
  let 'mkCalls a b d e f g h i j k l n := c in mkCalls a b d e f g h i j (S k) l n.
Definition bump_mpi_test (c : calls) :=
  let 'mkCalls a b d e f g h i j k l n := c in mkCalls a b d e f g h i j k (S l) n.
Definition bump_connect (c : calls) :=
  let 'mkCalls a b d e f g h i j k l n := c in mkCalls a b d e f g h i j k l (S n).

(** ** Error recording *)

(** Modelled from the spec: the error-reporting sink ([memcached_set_error],
    [memcached_set_errno], [memcached_has_error],
    [memcached_instance_error_return], [memcached_last_error]) lives in the
    library's error module, not in these files.  A "set error" call on a
    connection records the kind on the connection and on its owner and
    returns the kind; the errno variant records and returns the catch-all
    I/O failure carrying the captured errno. *)
Definition record_on_root (e : error_t) (i : memcached_instance_st) :=
  match root i with
  | Some r =>
      set_root (Some (set_memc_error_messages (e :: memc_error_messages r) r)) i
  | None => i
  end.

Definition memcached_set_error (rc : memcached_return_t) : M memcached_return_t :=
  modify (fun i => set_error_messages ((rc, 0) :: error_messages i)
                     (record_on_root (rc, 0) i)) ;;
  ret rc.

Definition memcached_set_errno (local_errno : Z) : M memcached_return_t :=
  modify (fun i => set_error_messages ((MEMCACHED_ERRNO, local_errno) :: error_messages i)
                     (record_on_root (MEMCACHED_ERRNO, local_errno) i)) ;;
  ret MEMCACHED_ERRNO.

(** The overload taking the owner itself ([*instance->root], [*memc]). *)
Definition memcached_set_error_root (rc : memcached_return_t) : M memcached_return_t :=
  modify (record_on_root (rc, 0)) ;; ret rc.

Definition memcached_has_error (i : memcached_instance_st) : bool :=
  match error_messages i with [] => false | _ => true end.

Definition memcached_instance_error_return (i : memcached_instance_st) :=
  match error_messages i with
  | [] => MEMCACHED_SUCCESS
  | (rc, _) :: _ => rc
  end.

Definition memcached_last_error (r : Memcached) : memcached_return_t :=
  match memc_error_messages r with
  | [] => MEMCACHED_SUCCESS
  | (rc, _) :: _ => rc
  end.

Definition memcached_is_udp (r : Memcached) : bool := use_udp r.

(** Modelled from the spec: the pending-response count is the connection's
    [cursor_active_]; [memcached_server_response_reset] zeroes it,
    [memcached_server_response_increment] adds one, [response_count()] reads
    it. *)
Definition memcached_server_response_reset (i : memcached_instance_st) :=
  set_cursor_active_ 0 i.
Definition memcached_server_response_increment (i : memcached_instance_st) :=
  set_cursor_active_ (wrap32 (cursor_active_ i + 1)) i.
Definition response_count (i : memcached_instance_st) : Z := cursor_active_ i.

(** What one turn of a loop body decides. *)
Inductive flow (A : Type) :=
| Return (a : A)
| Continue
| Break.
Arguments Return {A} a.
Arguments Continue {A}.
Arguments Break {A}.

Section Transport.

Variable w : world.

(** ** System calls *)

Definition sys_shutdown : M (option Z) :=
  c <- get_sys ;; put_sys (bump_shutdown c) ;; ret (w_shutdown w (n_shutdown c)).
Definition sys_closesocket : M unit :=
  c <- get_sys ;; put_sys (bump_closesocket c).
Definition sys_poll : M poll_result :=
  c <- get_sys ;; put_sys (bump_poll c) ;; ret (w_poll w (n_poll c)).
Definition sys_getsockopt : M (option Z) :=
  c <- get_sys ;; put_sys (bump_getsockopt c) ;; ret (w_getsockopt w (n_getsockopt c)).
Definition sys_send : M io_result :=
  c <- get_sys ;; put_sys (bump_send c) ;; ret (w_send w (n_send c)).
Definition sys_recv : M recv_result :=
  c <- get_sys ;; put_sys (bump_recv c) ;; ret (w_recv w (n_recv c)).
Definition sys_sendmsg : M io_result :=
  c <- get_sys ;; put_sys (bump_sendmsg c) ;; ret (w_sendmsg w (n_sendmsg c)).
Definition sys_mpi_test : M bool :=
  c <- get_sys ;; put_sys (bump_mpi_test c) ;; ret (w_mpi_test w (n_mpi_test c)).

(** ** Connection lifecycle *)

Definition start_close_socket : M unit :=
  i <- get_inst ;;
  if negb (fd i =? INVALID_SOCKET) then
    sys_shutdown ;;
    modify (set_is_shutting_down true)
  else ret tt.

Definition reset_socket : M unit :=
  i <- get_inst ;;
  if negb (fd i =? INVALID_SOCKET) then
    sys_closesocket ;;
    modify (set_fd INVALID_SOCKET)
  else ret tt.

(** [close_socket]: the answer of [shutdown] only feeds watchpoints, which
    are no-ops; everything after the [if] runs on every path. *)
Definition close_socket : M unit :=
  i <- get_inst ;;
  (if negb (fd i =? INVALID_SOCKET) then
     sys_shutdown ;;
     reset_socket ;;
     modify (set_state MEMCACHED_SERVER_STATE_NEW)
   else ret tt) ;;
  modify (fun i =>
    let i := set_state MEMCACHED_SERVER_STATE_NEW i in
    let i := set_cursor_active_ 0 i in
    let i := set_io_bytes_sent 0 i in
    let i := set_write_buffer_offset
               (match root i with
                | Some r => if memcached_is_udp r
                            then UDP_DATAGRAM_HEADER_LENGTH else 0
                | None => 0
                end) i in
    let i := set_read_buffer_length 0 i in
    let i := set_read_ptr 0 i in
    let i := set_is_shutting_down false i in
    let i := memcached_server_response_reset i in
    set_versions UINT8_MAX i).

(** Modelled from the spec: [memcached_quit_server(instance, true)] belongs
    to the library's quit module; on an I/O death it sends nothing and
    closes the connection. *)
Definition memcached_quit_server : M unit := close_socket.

Definition memcached_io_reset : M unit := memcached_quit_server.


(** ** Collaborators outside these files *)

Definition memcached_purge : M bool :=
  c <- get_sys ;; i <- get_inst ;;
  let '(ok, i') := w_purge w (n_purge c) i in
  put_inst i' ;; put_sys (bump_purge c) ;; ret ok.

Definition memcached_response : M memcached_return_t :=
  c <- get_sys ;; i <- get_inst ;;
  let '(rc, i') := w_response w (n_response c) i in
  put_inst i' ;; put_sys (bump_response c) ;; ret rc.

Definition memcached_connect : M memcached_return_t :=
  c <- get_sys ;; i <- get_inst ;;
  let '(rc, i') := w_connect w (n_connect c) i in
  put_inst i' ;; put_sys (bump_connect c) ;; ret rc.

Definition call_callback : M memcached_return_t :=
  c <- get_sys ;; put_sys (bump_callback c) ;; ret (w_callback w (n_callback c)).

(** ** Poll Gate: [io_wait] *)

Definition is_EINTR_or_ERESTART (e : Z) : bool := (e =? ERESTART) || (e =? EINTR).

(** The body of the [while (--loop_max)] loop of [io_wait]. *)
Definition io_wait_body : M (flow memcached_return_t) :=
  active_fd <- sys_poll ;;
  match active_fd with
  | PollActive revents =>
      if has_bit revents POLLIN || has_bit revents POLLOUT then
        ret (Return MEMCACHED_SUCCESS)
      else if has_bit revents POLLHUP then
        rc <- memcached_set_error MEMCACHED_CONNECTION_FAILURE ;; ret (Return rc)
      else if has_bit revents POLLERR then
        err <- sys_getsockopt ;;
        match err with
        | Some 0 => ret Continue                      (* treat this as EINTR *)
        | _ =>
            let local_errno := match err with Some e => e | None => EINVAL end in
            memcached_quit_server ;;
            rc <- memcached_set_errno local_errno ;; ret (Return rc)
        end
      else
        rc <- memcached_set_error MEMCACHED_FAILURE ;; ret (Return rc)
  | PollNone =>
      rc <- memcached_set_error MEMCACHED_TIMEOUT ;; ret (Return rc)
  | PollErr local_errno =>
      if is_EINTR_or_ERESTART local_errno then ret Continue
      else
        (* the cases fall through: EFAULT/ENOMEM, then EINVAL, then default *)
        (if (local_errno =? EFAULT) || (local_errno =? ENOMEM)
         then memcached_set_error MEMCACHED_MEMORY_ALLOCATION_FAILURE ;; ret tt
         else ret tt) ;;
        (if (local_errno =? EFAULT) || (local_errno =? ENOMEM) || (local_errno =? EINVAL)
         then memcached_set_error MEMCACHED_MEMORY_ALLOCATION_FAILURE ;; ret tt
         else ret tt) ;;
        memcached_set_errno local_errno ;;
        ret Break
  end.

(** [while (--loop_max) { body }]: [loop_max] is the value before the
    pre-decrement; the body runs when the decremented value is non-zero.
    [None] means that the loop was left without a [return]. *)
Fixpoint io_wait_loop (loop_max : nat) : M (option memcached_return_t) :=
  match loop_max with
  | S (S _ as loop_max') =>
      f <- io_wait_body ;;
      match f with
      | Return rc => ret (Some rc)
      | Continue => io_wait_loop loop_max'
      | Break => ret None
      end
  | _ => ret None
  end.

Definition io_wait (events : Z) : M memcached_return_t :=
  purged <- (if has_bit events POLLOUT then memcached_purge else ret true) ;;
  if negb purged then ret MEMCACHED_FAILURE
  else
    (if has_bit events POLLOUT
     then modify (fun i => set_io_wait_count_write (wrap32 (io_wait_count_write i + 1)) i)
     else modify (fun i => set_io_wait_count_read (wrap32 (io_wait_count_read i + 1)) i)) ;;
    r <- get_root ;;
    if poll_timeout r =? 0 then memcached_set_error MEMCACHED_TIMEOUT
    else
      looped <- io_wait_loop 5 ;;
      match looped with
      | Some rc => ret rc
      | None =>
          memcached_quit_server ;;
          i <- get_inst ;;
          if memcached_has_error i then ret (memcached_instance_error_return i)
          else memcached_set_error MEMCACHED_CONNECTION_FAILURE
      end.

Definition memcached_io_wait_for_write : M memcached_return_t := io_wait POLLOUT.
Definition memcached_io_wait_for_read : M memcached_return_t := io_wait POLLIN.

(** ** Assertions *)

(** [assert] and [assert_msg] abort unless the build defines [NDEBUG];
    the [WATCHPOINT_*] macros are empty.  A failed assertion is reported
    with its source line (91, 115 and 118 are in do.cc, the others in
    io.cc). *)
Variable ndebug : bool.

Definition assert_ (line : Z) (cond : bool) : M unit :=
  if ndebug || cond then ret tt else fault (AssertionFailed line).

(** [memcached_is_udp(instance->root) == false], the condition of the
    asserts at the head of the read and write paths. *)
Definition root_is_not_udp (i : memcached_instance_st) : bool :=
  match root i with
  | Some r => negb (memcached_is_udp r)
  | None => false
  end.

(** ** Buffered channel: helpers of the flush path *)

(** The bytes a kernel call reports are within what was asked for. *)
Definition kernel_count (n asked : Z) : Z := Z.max 0 (Z.min n asked).

(** Store [data] at offset [off] of a buffer. *)
Definition store_bytes (buf : Z -> Z) (off : Z) (data : list Z) : Z -> Z :=
  fun k => if (off <=? k) && (k <? off + Z.of_nat (length data))
           then nth (Z.to_nat (k - off)) data 0 else buf k.

(** [memmove(read_buffer, read_ptr, read_buffer_length)]. *)
Definition memmove_front (buf : Z -> Z) (from len : Z) : Z -> Z :=
  fun k => if (0 <=? k) && (k <? len) then buf (from + k) else buf k.

Definition repack_input_buffer : M bool :=
  i <- get_inst ;;
  (if negb (read_ptr i =? 0) then
     modify (fun i =>
       let i := set_read_buffer
                  (memmove_front (read_buffer i) (read_ptr i) (read_buffer_length i)) i in
       let i := set_read_ptr 0 i in
       set_read_data_length (read_buffer_length i) i)
   else ret tt) ;;
  i <- get_inst ;;
  if negb (read_buffer_length i =? MEMCACHED_MAX_BUFFER) then
    (* do { ... } while (false): [continue] and [break] both leave it *)
    nr <- sys_recv ;;
    match nr with
    | RecvErr e =>
        (if (e =? EINTR) || (e =? EAGAIN) || (e =? ERESTART) then ret tt
         else memcached_set_errno e ;; ret tt) ;;
        ret false
    | RecvData data =>
        let asked := wrap64 (MEMCACHED_MAX_BUFFER - read_data_length i) in
        let data := firstn (Z.to_nat asked) data in
        let nr := Z.of_nat (length data) in
        if nr =? 0 then
          memcached_set_error MEMCACHED_CONNECTION_FAILURE ;; ret false
        else
          modify (fun i =>
            let i := set_read_buffer
                       (store_bytes (read_buffer i)
                                    (read_ptr i + read_data_length i) data) i in
            let i := set_read_data_length (wrap64 (read_data_length i + nr)) i in
            set_read_buffer_length (wrap64 (read_buffer_length i + nr)) i) ;;
          ret true
    end
  else ret false.

(** The callback loop of [process_input_buffer]: stop at the first callback
    that does not answer success. *)
Fixpoint fire_callbacks (number_of_callback : nat) : M unit :=
  match number_of_callback with
  | O => ret tt
  | S n =>
      error <- call_callback ;;
      if return_eqb error MEMCACHED_SUCCESS then fire_callbacks n else ret tt
  end.

Definition process_input_buffer : M bool :=
  r <- get_root ;;
  match callbacks r with
  | Some number_of_callback =>
      error <- memcached_response ;;
      (if return_eqb error MEMCACHED_SUCCESS
       then fire_callbacks number_of_callback else ret tt) ;;
      ret true
  | None => ret false
  end.

(** ** Buffered channel: [io_flush] *)

(** The [while (write_length)] loop.  The result is the returned [bool] and
    the value left in the [error] out-parameter. *)
Fixpoint io_flush_loop (fuel : nat) (write_length : Z)
  : M (bool * memcached_return_t) :=
  match fuel with
  | O => out_of_fuel
  | S fuel =>
      if write_length =? 0 then
        modify (set_write_buffer_offset 0) ;;
        ret (true, MEMCACHED_SUCCESS)
      else
        sent <- sys_send ;;
        match sent with
        | IoErr local_errno =>
            if local_errno =? ENOBUFS then io_flush_loop fuel write_length
            else if local_errno =? EAGAIN then
              repacked <- repack_input_buffer ;;
              progressed <- (if repacked then ret true else process_input_buffer) ;;
              if progressed then io_flush_loop fuel write_length
              else
                rc <- io_wait POLLOUT ;;
                if memcached_success rc then io_flush_loop fuel write_length
                else if return_eqb rc MEMCACHED_TIMEOUT then
                  ret (false, MEMCACHED_SUCCESS)
                else
                  memcached_quit_server ;;
                  error <- memcached_set_errno local_errno ;;
                  ret (false, error)
            else
              memcached_quit_server ;;
              error <- memcached_set_errno local_errno ;;
              ret (false, error)
        | IoLen n =>
            let sent_length := kernel_count n write_length in
            modify (fun i => set_io_bytes_sent
                               (wrap32 (io_bytes_sent i + wrap32 sent_length)) i) ;;
            io_flush_loop fuel (wrap64 (write_length - wrap32 sent_length))
        end
  end.

(** [io_flush]: [None] for the out-parameter means that [error] was not
    assigned (the purge failed first). *)
Definition io_flush (fuel : nat) (with_flush : bool)
  : M (bool * option memcached_return_t) :=
  purged <- memcached_purge ;;
  if negb purged then ret (false, None)
  else
    i <- get_inst ;;
    '(ok, error) <- io_flush_loop fuel (write_buffer_offset i) ;;
    ret (ok, Some error).

(** ** Refill: [_io_fill] *)

(** [strlen(read_buffer)]: the offset of the first zero byte.  A scan that
    finds none inside the buffer leaves the array: a fault. *)
Fixpoint strlen_from (n : nat) (k : Z) (buf : Z -> Z) : option Z :=
  match n with
  | O => None
  | S n' => if buf k =? 0 then Some k else strlen_from n' (k + 1) buf
  end.

Definition strlen (buf : Z -> Z) : option Z :=
  strlen_from (Z.to_nat MEMCACHED_MAX_BUFFER) 0 buf.

(** [while (!flag) { MPI_Test(&request, &flag, ...); ... }] *)
Fixpoint mpi_wait (fuel : nat) : M unit :=
  match fuel with
  | O => out_of_fuel
  | S fuel => flag <- sys_mpi_test ;; if flag then ret tt else mpi_wait fuel
  end.

(** What follows the receive loop of [_io_fill], on every path that leaves
    it with data. *)
Definition io_fill_tail (fuel : nat) : M memcached_return_t :=
  mpi_wait fuel ;;
  i <- get_inst ;;
  match strlen (read_buffer i) with
  | None => fault OutOfBounds
  | Some data_read =>
      modify (fun i =>
        let i := set_io_bytes_sent 0 i in
        let i := set_read_data_length data_read i in
        let i := set_read_buffer_length data_read i in
        set_read_ptr 0 i) ;;
      ret MEMCACHED_SUCCESS
  end.

(** The [do { ... } while (data_read <= 0)] loop, followed by the tail. *)
Fixpoint _io_fill (fuel : nat) : M memcached_return_t :=
  match fuel with
  | O => out_of_fuel
  | S fuel =>
      data_read <- sys_recv ;;
      match data_read with
      | RecvErr local_errno =>
          if local_errno =? EINTR then _io_fill fuel
          else if (local_errno =? ETIMEDOUT) || (local_errno =? EAGAIN)
                  || (local_errno =? ERESTART) then
            io_wait_ret <- io_wait POLLIN ;;
            if memcached_success io_wait_ret then _io_fill fuel
            else ret io_wait_ret
          else
            (* ENOTCONN, ENOTSOCK and EBADF fall through the assert_msg *)
            i <- get_inst ;;
            (if (local_errno =? ENOTCONN) || (local_errno =? ENOTSOCK)
                || (local_errno =? EBADF)
             then assert_ 552 (negb (fd i =? INVALID_SOCKET)) else ret tt) ;;
            memcached_quit_server ;;
            memcached_set_errno local_errno ;;
            i <- get_inst ;;
            ret (memcached_instance_error_return i)
      | RecvData data =>
          let data := firstn (Z.to_nat MEMCACHED_MAX_BUFFER) data in
          let data_read := Z.of_nat (length data) in
          if data_read =? 0 then
            memcached_quit_server ;;
            memcached_set_error MEMCACHED_CONNECTION_FAILURE
          else
            modify (fun i =>
              let i := set_read_buffer (store_bytes (read_buffer i) 0 data) i in
              set_io_wait_count_bytes_read
                (wrap64 (io_wait_count_bytes_read i + data_read)) i) ;;
            io_fill_tail fuel
      end
  end.

(** ** Buffered channel: [memcached_io_read] *)

(** The bytes [buf[from .. from+len)]. *)
Definition read_bytes (buf : Z -> Z) (from : Z) (len : nat) : list Z :=
  map (fun k => buf (from + Z.of_nat k)) (seq 0 len).

(** [read_ptr] points into the [read_buffer] array of
    [MEMCACHED_MAX_BUFFER] bytes: a [memcpy] of [n] bytes from it, or a
    dereference ([n = 1]), must stay inside the array. *)
Definition read_in_bounds (i : memcached_instance_st) (n : Z) : bool :=
  (0 <=? read_ptr i) && (0 <=? n) && (read_ptr i + n <=? MEMCACHED_MAX_BUFFER).

Definition check_read (n : Z) : M unit :=
  i <- get_inst ;;
  if read_in_bounds i n then ret tt else fault OutOfBounds.

(** The [while (length)] loop; [out] collects what has been copied to the
    caller's buffer.  The result is the return code, the [nread]
    out-parameter and the bytes copied. *)
Fixpoint io_read_loop (fuel : nat) (length : Z) (out : list Z)
  : M (memcached_return_t * Z * list Z) :=
  match fuel with
  | O => out_of_fuel
  | S fuel =>
      if length =? 0 then ret (MEMCACHED_SUCCESS, Z.of_nat (List.length out), out)
      else
        i <- get_inst ;;
        io_fill_ret <- (if read_buffer_length i =? 0 then _io_fill fuel
                        else ret MEMCACHED_SUCCESS) ;;
        if memcached_fatal io_fill_ret then ret (io_fill_ret, -1, out)
        else
          i <- get_inst ;;
          if 1 <? length then
            let difference := if read_buffer_length i <? length
                              then read_buffer_length i else length in
            check_read difference ;;
            put_inst (set_read_buffer_length (read_buffer_length i - difference)
                        (set_read_ptr (read_ptr i + difference) i)) ;;
            io_read_loop fuel (length - difference)
              (out ++ read_bytes (read_buffer i) (read_ptr i) (Z.to_nat difference))
          else
            check_read 1 ;;
            put_inst (set_read_buffer_length (wrap64 (read_buffer_length i - 1))
                        (set_read_ptr (read_ptr i + 1) i)) ;;
            let out := out ++ [read_buffer i (read_ptr i)] in
            ret (MEMCACHED_SUCCESS, Z.of_nat (List.length out), out)
  end.

(** [memcached_io_read]: [nread] is [None] when the out-parameter is left
    unassigned. *)
Definition memcached_io_read (fuel : nat) (length : Z)
  : M (memcached_return_t * option Z * list Z) :=
  i <- get_inst ;;
  assert_ 618 (root_is_not_udp i) ;;
  if fd i =? INVALID_SOCKET then ret (MEMCACHED_CONNECTION_FAILURE, None, [])
  else
    '(rc, nread, out) <- io_read_loop fuel length [] ;;
    ret (rc, Some nread, out).

(** ** Buffered channel: [_io_write] *)

(** The [while (length)] loop of [_io_write].  [Some length] is the length
    left when [io_flush] failed inside the loop ([return false]); [None]
    means the loop ran to [length == 0]. *)
Fixpoint io_write_loop (fuel : nat) (length : Z) (with_flush : bool)
  : M (option Z) :=
  match fuel with
  | O => out_of_fuel
  | S fuel =>
      if length =? 0 then ret None
      else
        i <- get_inst ;;
        let buffer_end := MEMCACHED_MAX_BUFFER in
        let should_write := wrap64 (buffer_end - write_buffer_offset i) in
        let should_write := if should_write <? length then should_write else length in
        put_inst (set_write_buffer_offset
                    (wrap64 (write_buffer_offset i + should_write)) i) ;;
        let length := length - should_write in
        i <- get_inst ;;
        if write_buffer_offset i =? buffer_end then
          '(ok, _) <- io_flush fuel with_flush ;;
          if negb ok then ret (Some length)
          else io_write_loop fuel length with_flush
        else io_write_loop fuel length with_flush
  end.

(** [_io_write]: the returned [bool] and the [written] out-parameter. *)
Definition _io_write (fuel : nat) (length : Z) (with_flush : bool)
  : M (bool * Z) :=
  i <- get_inst ;;
  assert_ 776 (negb (fd i =? INVALID_SOCKET)) ;;
  assert_ 777 (root_is_not_udp i) ;;
  let original_length := length in
  stopped <- io_write_loop fuel length with_flush ;;
  match stopped with
  | Some length => ret (false, original_length - length)
  | None =>
      if with_flush then
        '(ok, _) <- io_flush fuel with_flush ;;
        (* length is 0 here *)
        ret (ok, original_length - 0)
      else ret (true, original_length - 0)
  end.

(** [bool memcached_io_write(instance)]: a flush with no payload. *)
Definition memcached_io_write_flush (fuel : nat) : M bool :=
  '(ok, _) <- _io_write fuel 0 true ;; ret ok.

(** [ssize_t memcached_io_write(instance, buffer, length, with_flush)]. *)
Definition memcached_io_write (fuel : nat) (length : Z) (with_flush : bool) : M Z :=
  '(ok, written) <- _io_write fuel length with_flush ;;
  if negb ok then ret (-1) else ret written.

(** ** Scatter-gather writer: [memcached_io_writev] *)

(** One part of a vector: the buffer pointer (null, or the bytes it points
    to) and the length. *)
Record libmemcached_io_vector_st := mkVector {
  buffer : option (list Z);
  length : Z
}.

(** The tallies [complete_total] and [total] are [ssize_t]. *)
Definition wrap_ssize (z : Z) : Z := (z + 2 ^ 63) mod 2 ^ 64 - 2 ^ 63.

(** The [for] loop over the parts.  [None]: a part failed and the function
    returned [false]; [Some (complete_total, total)]: the loop ended. *)
Fixpoint io_writev_loop (fuel : nat) (vector : list libmemcached_io_vector_st)
                        (complete_total total : Z) : M (option (Z * Z)) :=
  match vector with
  | [] => ret (Some (complete_total, total))
  | part :: vector =>
      let complete_total := wrap_ssize (complete_total + length part) in
      if negb (length part =? 0) then
        '(ok, written) <- _io_write fuel (length part) false ;;
        if negb ok then ret None
        else io_writev_loop fuel vector complete_total (wrap_ssize (total + written))
      else io_writev_loop fuel vector complete_total total
  end.

(** [memcached_io_writev], together with the two tallies at the point of
    return ([None] when a part failed before they were compared). *)
Definition io_writev_tallied (fuel : nat) (vector : list libmemcached_io_vector_st)
                             (with_flush : bool) : M (bool * option (Z * Z)) :=
  tallies <- io_writev_loop fuel vector 0 0 ;;
  match tallies with
  | None => ret (false, None)
  | Some (complete_total, total) =>
      if with_flush then
        flushed <- memcached_io_write_flush fuel ;;
        if negb flushed then ret (false, Some (complete_total, total))
        else ret (complete_total =? total, Some (complete_total, total))
      else ret (complete_total =? total, Some (complete_total, total))
  end.

Definition memcached_io_writev (fuel : nat) (vector : list libmemcached_io_vector_st)
                               (with_flush : bool) : M bool :=
  '(ok, _) <- io_writev_tallied fuel vector with_flush ;; ret ok.

(** ** Line read: [memcached_io_readline] *)

Definition newline : Z := 10.   (* '\n' *)

(** The inner loop
    [while (read_buffer_length and total_nr < size and line_complete == false)].
    [room] is [size - total_nr] at entry, so that [total_nr < size] is
    [room <> 0]; [dest] collects the bytes stored through [buffer_ptr].
    The result is [line_complete], [total_nr] and [dest]. *)
Fixpoint readline_copy (room : nat) (total_nr : Z) (dest : list Z)
  : M (bool * Z * list Z) :=
  match room with
  | O => ret (false, total_nr, dest)
  | S room =>
      i <- get_inst ;;
      if read_buffer_length i =? 0 then ret (false, total_nr, dest)
      else
        check_read 1 ;;
        let c := read_buffer i (read_ptr i) in
        put_inst (set_read_ptr (read_ptr i + 1)
                    (set_read_buffer_length (read_buffer_length i - 1) i)) ;;
        if c =? newline then ret (true, total_nr + 1, dest ++ [c])
        else readline_copy room (total_nr + 1) (dest ++ [c])
  end.

(** The outer [while (line_complete == false)] loop.  The result is the
    return code, the [total_nr] out-parameter and the bytes stored in the
    caller's buffer. *)
Fixpoint readline_loop (fuel : nat) (size : Z) (total_nr : Z) (dest : list Z)
  : M (memcached_return_t * Z * list Z) :=
  match fuel with
  | O => out_of_fuel
  | S fuel =>
      i <- get_inst ;;
      step <-
        (if read_buffer_length i =? 0 then
           '(rc, _, out) <- memcached_io_read fuel 1 ;;
           if memcached_failed rc && return_eqb rc MEMCACHED_IN_PROGRESS then
             memcached_quit_server ;;
             rc <- memcached_set_error rc ;;
             ret (inl rc)
           else if memcached_failed rc then ret (inl rc)
           else
             let c := nth 0 out 0 in
             ret (inr (c =? newline, wrap64 (total_nr + 1), dest ++ [c]))
         else ret (inr (false, total_nr, dest))) ;;
      match step with
      | inl rc => ret (rc, total_nr, dest)
      | inr (line_complete, total_nr, dest) =>
          '(line_complete, total_nr, dest) <-
            (if line_complete then ret (true, total_nr, dest)
             else readline_copy (Z.to_nat (size - total_nr)) total_nr dest) ;;
          if total_nr =? size then ret (MEMCACHED_PROTOCOL_ERROR, total_nr, dest)
          else if line_complete then ret (MEMCACHED_SUCCESS, total_nr, dest)
          else readline_loop fuel size total_nr dest
      end
  end.

Definition memcached_io_readline (fuel : nat) (size : Z)
  : M (memcached_return_t * Z * list Z) :=
  readline_loop fuel size 0 [].

(** ** Guaranteed-size read: [memcached_safe_read] *)

(** [while (memcached_continue(rc = memcached_io_read(...))) {}] *)
Fixpoint io_read_until_settled (fuel : nat) (length : Z)
  : M (memcached_return_t * option Z * list Z) :=
  match fuel with
  | O => out_of_fuel
  | S fuel =>
      '(rc, nread, out) <- memcached_io_read fuel length ;;
      if memcached_continue rc then io_read_until_settled fuel length
      else ret (rc, nread, out)
  end.

Fixpoint safe_read_loop (fuel : nat) (size offset : Z) (data : list Z)
  : M (memcached_return_t * list Z) :=
  match fuel with
  | O => out_of_fuel
  | S fuel =>
      if offset <? size then
        '(rc, nread, out) <- io_read_until_settled fuel (size - offset) ;;
        if memcached_failed rc then ret (rc, data)
        else
          match nread with
          | None => fault Uninitialized
          | Some nread => safe_read_loop fuel size (wrap64 (offset + nread)) (data ++ out)
          end
      else ret (MEMCACHED_SUCCESS, data)
  end.

Definition memcached_safe_read (fuel : nat) (size : Z)
  : M (memcached_return_t * list Z) :=
  safe_read_loop fuel size 0 [].

(** ** UDP framer: [_vdo_udp] and [memcached_vdo] *)

(** Modelled from the spec: [increment_udp_message_id] is part of the
    library's UDP module; it increments the connection's message id, which
    wraps at the width of the 16-bit header field. *)
Definition increment_udp_message_id (i : memcached_instance_st) :=
  set_udp_request_id ((udp_request_id i + 1) mod 2 ^ 16) i.

(** [uint32_t retry = 5; while (--retry) { ... }]: [retry] is the value
    before the pre-decrement.  A positive count breaks out of the loop and a
    negative one returns; a count of zero goes round again. *)
Fixpoint vdo_udp_loop (retry : nat) : M memcached_return_t :=
  match retry with
  | S (S _ as retry') =>
      sendmsg_length <- sys_sendmsg ;;
      match sendmsg_length with
      | IoLen n =>
          if 0 <? n then ret MEMCACHED_SUCCESS
          else vdo_udp_loop retry'
      | IoErr errno =>
          if errno =? EMSGSIZE then memcached_set_error MEMCACHED_WRITE_FAILURE
          else memcached_set_errno errno
      end
  | _ => ret MEMCACHED_SUCCESS
  end.

Definition vector_slot_used (part : libmemcached_io_vector_st) : bool :=
  match buffer part with Some _ => true | None => false end
  || negb (length part =? 0).

Definition _vdo_udp (vector : list libmemcached_io_vector_st) : M memcached_return_t :=
  match vector with
  | [] => fault OutOfBounds                       (* vector[0] is read *)
  | first :: _ =>
      if vector_slot_used first then
        get_root ;;
        memcached_set_error_root MEMCACHED_NOT_SUPPORTED
      else
        modify increment_udp_message_id ;;
        vdo_udp_loop 5
  end.

Definition memcached_vdo (fuel : nat) (vector : list libmemcached_io_vector_st)
                         (with_flush : bool) : M memcached_return_t :=
  rc <- memcached_connect ;;
  if memcached_failed rc then
    i <- get_inst ;;
    assert_ 91 (memcached_has_error i) ;;
    ret rc
  else
    r <- get_root ;;
    if memcached_is_udp r then _vdo_udp vector
    else
      sent_success <- memcached_io_writev fuel vector with_flush ;;
      r <- get_root ;;
      if negb sent_success then
        assert_ 115 (return_eqb (memcached_last_error r) MEMCACHED_SUCCESS) ;;
        if return_eqb (memcached_last_error r) MEMCACHED_SUCCESS then
          assert_ 118 (negb (return_eqb (memcached_last_error r) MEMCACHED_SUCCESS)) ;;
          memcached_set_error MEMCACHED_WRITE_FAILURE
        else
          ret (memcached_last_error r)
      else if is_replying r then
        modify memcached_server_response_increment ;;
        ret rc
      else ret rc.

(** ** Draining a dying connection: [memcached_io_slurp] *)

(** The order of the lifecycle states, as [int(instance->state)]. *)
Definition state_rank (s : memcached_server_state_t) : Z :=
  match s with
  | MEMCACHED_SERVER_STATE_NEW => 0
  | MEMCACHED_SERVER_STATE_ADDRINFO => 1
  | MEMCACHED_SERVER_STATE_IN_PROGRESS => 2
  | MEMCACHED_SERVER_STATE_CONNECTED => 3
  | MEMCACHED_SERVER_STATE_IN_TIMEOUT => 4
  end.

(** The [do { ... } while (data_read > 0)] loop of [memcached_io_slurp]
    with the [return] that follows it.  A [continue] goes to the loop
    condition, which fails after a receive that returned [-1]. *)
Fixpoint io_slurp_loop (fuel : nat) : M memcached_return_t :=
  match fuel with
  | O => out_of_fuel
  | S fuel =>
      data_read <- sys_recv ;;
      match data_read with
      | RecvErr errno =>
          if errno =? EINTR then ret MEMCACHED_CONNECTION_FAILURE
          else if (errno =? ETIMEDOUT) || (errno =? EAGAIN) || (errno =? ERESTART) then
            rc <- io_wait POLLIN ;;
            if memcached_success rc then ret MEMCACHED_CONNECTION_FAILURE
            else ret MEMCACHED_IN_PROGRESS
          else
            (* ENOTCONN and ENOTSOCK hit assert(0); with EBADF they fall
               through to the assert_msg on the descriptor *)
            (if errno =? ENOTCONN then assert_ 751 false else ret tt) ;;
            (if (errno =? ENOTCONN) || (errno =? ENOTSOCK)
             then assert_ 753 false else ret tt) ;;
            i <- get_inst ;;
            (if (errno =? ENOTCONN) || (errno =? ENOTSOCK) || (errno =? EBADF)
             then assert_ 755 (negb (fd i =? INVALID_SOCKET)) else ret tt) ;;
            ret MEMCACHED_CONNECTION_FAILURE
      | RecvData data =>
          let data := firstn (Z.to_nat MEMCACHED_MAX_BUFFER) data in
          let data_read := Z.of_nat (List.length data) in
          modify (fun i => set_read_buffer (store_bytes (read_buffer i) 0 data) i) ;;
          if 0 <? data_read then io_slurp_loop fuel
          else ret MEMCACHED_CONNECTION_FAILURE
      end
  end.

Definition memcached_io_slurp (fuel : nat) : M memcached_return_t :=
  i <- get_inst ;;
  assert_ 714 (root_is_not_udp i) ;;
  if fd i =? INVALID_SOCKET then
    assert_ 718 (state_rank (state i) <=? state_rank MEMCACHED_SERVER_STATE_ADDRINFO) ;;
    ret MEMCACHED_CONNECTION_FAILURE
  else io_slurp_loop fuel.

End Transport.

(** ** Readable-connection selector: [memcached_io_get_readable_server] *)

(** The first [for] loop: [x] is the index of the head of [servers], [fds]
    the descriptors collected so far ([host_index] is their number).
    [inl x]: the connection at [x] holds buffered data and is returned;
    [inr fds]: the loop ended. *)
Fixpoint collect_pollable (servers : list memcached_instance_st) (x : nat)
                          (fds : list Z) : nat + list Z :=
  match servers with
  | [] => inr fds
  | instance :: servers =>
      if Z.of_nat (List.length fds) <? MAX_SERVERS_TO_POLL then
        if 0 <? read_buffer_length instance then inl x
        else if 0 <? response_count instance
             then collect_pollable servers (S x) (fds ++ [fd instance])
             else collect_pollable servers (S x) fds
      else inr fds
  end.

(** The index of the first connection that satisfies [p]. *)
Fixpoint first_index (p : memcached_instance_st -> bool)
                     (servers : list memcached_instance_st) (x : nat) : option nat :=
  match servers with
  | [] => None
  | instance :: servers =>
      if p instance then Some x else first_index p servers (S x)
  end.

(** The scan after a successful poll: the first polled descriptor marked
    readable that some connection owns. *)
Fixpoint first_readable (servers : list memcached_instance_st)
                        (fds revents : list Z) : option nat :=
  match fds, revents with
  | fdx :: fds, rev :: revents =>
      if has_bit rev POLLIN then
        match first_index (fun instance => fd instance =? fdx) servers 0 with
        | Some y => Some y
        | None => first_readable servers fds revents
        end
      else first_readable servers fds revents
  | _, _ => None
  end.

(** The result: the index of the connection returned (or [None] for
    [NULL]), the owner afterwards, and the number of poll calls issued. *)
Definition memcached_io_get_readable_server
    (answer : poll_many_result) (memc : Memcached)
    (servers : list memcached_instance_st) : option nat * Memcached * nat :=
  match collect_pollable servers 0 [] with
  | inl x => (Some x, memc, 0%nat)
  | inr fds =>
      if Z.of_nat (List.length fds) <? 2 then
        (first_index (fun instance => 0 <? response_count instance) servers 0,
         memc, 0%nat)
      else
        match answer with
        | PollManyErr errno =>
            (None,
             set_memc_error_messages
               ((MEMCACHED_ERRNO, errno) :: memc_error_messages memc) memc,
             1%nat)
        | PollManyNone => (None, memc, 1%nat)
        | PollManyActive revents =>
            (first_readable servers fds revents, memc, 1%nat)
        end
  end.

(** * Specification helpers, concrete worlds and connections *)

(** A world in which every call succeeds at once and the collaborators
    leave the connection alone. *)
Definition quiet_world : world :=
  mkWorld (fun _ => None) (fun _ => PollActive POLLIN) (fun _ => Some 0)
          (fun _ => IoLen 0) (fun _ => RecvData []) (fun _ => IoLen 0)
          (fun _ i => (true, i)) (fun _ i => (MEMCACHED_SUCCESS, i))
          (fun _ => MEMCACHED_SUCCESS) (fun _ => true)
          (fun _ i => (MEMCACHED_SUCCESS, i)).

(** Changing one answer stream of a world. *)
Definition set_w_shutdown (f : nat -> option Z) (w : world) : world :=
  let 'mkWorld _ b c d e g h i j k l := w in mkWorld f b c d e g h i j k l.
Definition set_w_poll (f : nat -> poll_result) (w : world) : world :=
  let 'mkWorld a _ c d e g h i j k l := w in mkWorld a f c d e g h i j k l.
Definition set_w_send (f : nat -> io_result) (w : world) : world :=
  let 'mkWorld a b c _ e g h i j k l := w in mkWorld a b c f e g h i j k l.
Definition set_w_recv (f : nat -> recv_result) (w : world) : world :=
  let 'mkWorld a b c d _ g h i j k l := w in mkWorld a b c d f g h i j k l.
Definition set_w_purge
    (f : nat -> memcached_instance_st -> bool * memcached_instance_st)
    (w : world) : world :=
  let 'mkWorld a b c d e g _ i j k l := w in mkWorld a b c d e g f i j k l.

Definition tcp_root : Memcached := mkMemcached 5000 false true None [].
Definition udp_root : Memcached := mkMemcached 5000 true false None [].

(** A connected TCP connection with empty buffers and no history. *)
Definition fresh_conn : memcached_instance_st :=
  mkInstance 7 MEMCACHED_SERVER_STATE_CONNECTED false 0 0 0 0 0 0 1 4 15
             0 0 0 0 (fun _ => 0) [] (Some tcp_root) 0.

(** Unfolding of the monad's plumbing. *)
Ltac unfold_monad :=
  cbv beta iota delta
    [bind ret modify get_inst put_inst get_sys put_sys get_root fault out_of_fuel
     sys_shutdown sys_closesocket sys_poll sys_getsockopt sys_send sys_recv
     sys_sendmsg sys_mpi_test].

(** What [close_socket] leaves in the connection, given whether the
    descriptor was valid on entry. *)
Definition closed_conn (i : memcached_instance_st) : memcached_instance_st :=
  let i := if negb (fd i =? INVALID_SOCKET)
           then set_state MEMCACHED_SERVER_STATE_NEW (set_fd INVALID_SOCKET i)
           else i in
  set_versions UINT8_MAX
    (memcached_server_response_reset
      (set_is_shutting_down false
        (set_read_ptr 0
          (set_read_buffer_length 0
            (set_write_buffer_offset
               (match root i with
                | Some r => if memcached_is_udp r
                            then UDP_DATAGRAM_HEADER_LENGTH else 0
                | None => 0
                end)
               (set_io_bytes_sent 0
                 (set_cursor_active_ 0
                   (set_state MEMCACHED_SERVER_STATE_NEW i)))))))).

Definition closed_calls (i : memcached_instance_st) (c : calls) : calls :=
  if negb (fd i =? INVALID_SOCKET)
  then bump_closesocket (bump_shutdown c) else c.

(** A connection that has waited and read before it is closed. *)
Definition worn_conn : memcached_instance_st :=
  mkInstance 7 MEMCACHED_SERVER_STATE_CONNECTED false 3 120 9 2 5 4096 1 4 15
             10 6 16 33 (fun _ => 0) [] (Some tcp_root) 0.

(** A world whose [shutdown] fails with [EBADF]. *)
Definition failing_shutdown_world : world :=
  set_w_shutdown (fun _ => Some EBADF) quiet_world.

(** A kernel answer that is neither a success nor an error: a count of
    zero. *)
Definition no_verdict (r : io_result) : bool :=
  match r with
  | IoLen n => n <=? 0
  | IoErr _ => false
  end.

(** What the send loop returns when an attempt gets the answer [r] and that
    answer ends the loop. *)
Definition udp_verdict (r : io_result) : memcached_return_t :=
  match r with
  | IoLen _ => MEMCACHED_SUCCESS
  | IoErr e => if e =? EMSGSIZE then MEMCACHED_WRITE_FAILURE else MEMCACHED_ERRNO
  end.

(** The error a failed datagram send records on the connection. *)
Definition udp_error (r : io_result) : list error_t :=
  match r with
  | IoLen _ => []
  | IoErr e => if e =? EMSGSIZE then [(MEMCACHED_WRITE_FAILURE, 0)]
               else [(MEMCACHED_ERRNO, e)]
  end.

Definition udp_conn : memcached_instance_st :=
  mkInstance 7 MEMCACHED_SERVER_STATE_CONNECTED false 0 0 0 0 0 0 1 4 15
             0 0 0 8 (fun _ => 0) [] (Some udp_root) 41.

Definition udp_vector : list libmemcached_io_vector_st :=
  [mkVector None 0; mkVector (Some [103; 101; 116]) 3].

(** A world whose first four polls are interrupted by a signal and whose
    fifth would report the descriptor readable. *)
Definition four_signals_world : world :=
  set_w_poll (fun k => if (k <? 4)%nat then PollErr EINTR else PollActive POLLIN)
    quiet_world.

(** An answer of poll that [io_wait] treats as an error indication without
    an error: [POLLERR] alone among the bits it looks at. *)
Definition spurious (revents : Z) : bool :=
  negb (has_bit revents POLLIN || has_bit revents POLLOUT)
  && negb (has_bit revents POLLHUP) && has_bit revents POLLERR.

(** The next [k] polls, counted from the calls [c] already made, are all
    transient: interrupted ([EINTR], [ERESTART]), or an error indication
    whose queried socket error is zero.  The result is the calls made after
    them. *)
Fixpoint transient_polls (w : world) (k : nat) (c : calls) : option calls :=
  match k with
  | O => Some c
  | S k =>
      match w_poll w (n_poll c) with
      | PollErr e =>
          if is_EINTR_or_ERESTART e then transient_polls w k (bump_poll c) else None
      | PollActive revents =>
          if spurious revents then
            match w_getsockopt w (n_getsockopt c) with
            | Some 0 => transient_polls w k (bump_getsockopt (bump_poll c))
            | _ => None
            end
          else None
      | PollNone => None
      end
  end.

(** The wait counter that one call of [io_wait] increments. *)
Definition count_wait (events : Z) (i : memcached_instance_st) :=
  if has_bit events POLLOUT
  then set_io_wait_count_write (wrap32 (io_wait_count_write i + 1)) i
  else set_io_wait_count_read (wrap32 (io_wait_count_read i + 1)) i.

(** A world in which the second poll finds the descriptor writable after
    one spurious error indication. *)
Definition spurious_then_ready_world : world :=
  set_w_poll (fun k => if (k <? 1)%nat then PollActive POLLERR else PollActive POLLOUT)
    quiet_world.

(** A world whose purge of pending input fails. *)
Definition failing_purge_world : world :=
  set_w_purge (fun _ i => (false, i)) quiet_world.

(** A world in which every send fails with [EPIPE]. *)
Definition broken_pipe_world : world :=
  set_w_send (fun _ => IoErr EPIPE) quiet_world.

Definition get_vector : list libmemcached_io_vector_st :=
  [mkVector (Some [103; 101; 116]) 3].

(** A world whose kernel takes whatever it is handed. *)
Definition sending_world : world :=
  set_w_send (fun _ => IoLen MEMCACHED_MAX_BUFFER) quiet_world.

(** A part that fills the write buffer, between two small ones. *)
Definition big_part : libmemcached_io_vector_st :=
  mkVector (Some (repeat 120 (Z.to_nat MEMCACHED_MAX_BUFFER))) MEMCACHED_MAX_BUFFER.
Definition small_part : libmemcached_io_vector_st := mkVector (Some [13; 10]) 2.

Definition buffered (i : memcached_instance_st) : bool := 0 <? read_buffer_length i.
Definition pending (i : memcached_instance_st) : bool := 0 <? response_count i.

(** A connection that owes nothing to read but is owed one response, and one
    that holds five unread bytes. *)
Definition pending_conn : memcached_instance_st :=
  mkInstance 7 MEMCACHED_SERVER_STATE_CONNECTED false 1 0 0 0 0 0 1 4 15
             0 0 0 0 (fun _ => 0) [] (Some tcp_root) 0.
Definition buffered_conn : memcached_instance_st :=
  mkInstance 9 MEMCACHED_SERVER_STATE_CONNECTED false 0 0 0 0 0 0 1 4 15
             0 5 5 0 (fun _ => 69) [] (Some tcp_root) 0.

(** A connection whose earlier refill of 16 bytes has been consumed and
    that has sent 120 bytes since. *)
Definition drained_conn : memcached_instance_st :=
  mkInstance 7 MEMCACHED_SERVER_STATE_CONNECTED false 3 120 9 2 5 4096 1 4 15
             16 0 16 0 (fun _ => 0) [] (Some tcp_root) 0.


(** A world whose receive delivers three bytes, the first of them zero. *)
Definition nul_first_world : world :=
  set_w_recv (fun _ => RecvData [0; 65; 66]) quiet_world.

(** The connection after [n] buffered bytes have been consumed. *)
Definition advance (n : Z) (i : memcached_instance_st) : memcached_instance_st :=
  set_read_ptr (read_ptr i + n) (set_read_buffer_length (read_buffer_length i - n) i).

(** A connection whose read buffer holds the three unread bytes "ab\n". *)
Definition line_conn : memcached_instance_st :=
  mkInstance 7 MEMCACHED_SERVER_STATE_CONNECTED false 1 0 0 0 0 3 1 4 15
             0 3 3 0 (store_bytes (fun _ => 0) 0 [97; 98; newline]) []
             (Some tcp_root) 0.

(** What one turn of the retry loop of [io_wait] guarantees, whatever poll
    answers: one more poll, the wait counts untouched, the connection
    untouched when the turn reports readiness or goes round again, and a
    recorded errno failure when the turn breaks out of the loop. *)
Definition io_wait_turn_post (w : world) (i : memcached_instance_st) (c : calls)
           (f : flow memcached_return_t) (m' : machine) : Prop :=
  n_poll (sys m') = S (n_poll c)
  /\ io_wait_count_read (inst m') = io_wait_count_read i
  /\ io_wait_count_write (inst m') = io_wait_count_write i
  /\ match f with
     | Return rc =>
         rc = MEMCACHED_SUCCESS ->
         inst m' = i
         /\ exists revents,
              w_poll w (n_poll c) = PollActive revents
              /\ has_bit revents POLLIN || has_bit revents POLLOUT = true
     | Continue => inst m' = i
     | Break => memcached_has_error (inst m') = true
                /\ memcached_instance_error_return (inst m') = MEMCACHED_ERRNO
     end.

(** What the retry loop of [io_wait] guarantees when entered with
    [loop_max]: a bounded number of polls, the wait counts untouched, an
    untouched connection and a poll that reported readiness when it returns
    SUCCESS, and, when it is left without a [return], either a recorded
    errno failure or an untouched connection. *)
Definition io_wait_loop_post (w : world) (loop_max : nat)
           (i : memcached_instance_st) (c : calls)
           (r : option memcached_return_t) (m' : machine) : Prop :=
  (n_poll (sys m') <= n_poll c + Nat.pred loop_max)%nat
  /\ io_wait_count_read (inst m') = io_wait_count_read i
  /\ io_wait_count_write (inst m') = io_wait_count_write i
  /\ match r with
     | Some rc =>
         rc = MEMCACHED_SUCCESS ->
         inst m' = i
         /\ exists revents,
              w_poll w (Nat.pred (n_poll (sys m'))) = PollActive revents
              /\ has_bit revents POLLIN || has_bit revents POLLOUT = true
     | None =>
         (memcached_has_error (inst m') = true
          /\ memcached_instance_error_return (inst m') = MEMCACHED_ERRNO)
         \/ inst m' = i
     end.

(** A connected TCP connection whose owner has a poll time-out of zero. *)
Definition zero_timeout_conn : memcached_instance_st :=
  mkInstance 7 MEMCACHED_SERVER_STATE_CONNECTED false 0 0 0 0 0 0 1 4 15
             0 0 0 0 (fun _ => 0) [] (Some (mkMemcached 0 false true None [])) 0.

(** What a return of [io_wait] that records [rc] without closing leaves:
    the error on top of the connection's errors, and the descriptor, the
    lifecycle state and the buffer tallies of [i1]. *)
Definition recorded_not_closed (rc : memcached_return_t)
           (i1 i' : memcached_instance_st) : Prop :=
  error_messages i' = (rc, 0) :: error_messages i1
  /\ fd i' = fd i1
  /\ state i' = state i1
  /\ read_buffer_length i' = read_buffer_length i1
  /\ write_buffer_offset i' = write_buffer_offset i1.

(** A world whose poll times out. *)
Definition poll_timeout_world : world := set_w_poll (fun _ => PollNone) quiet_world.

(** A world whose poll reports an error condition and whose socket error
    is [ECONNREFUSED]. *)
Definition refused_world : world :=
  let 'mkWorld a b c d e g h i j k l :=
    set_w_poll (fun _ => PollActive POLLERR) quiet_world in
  mkWorld a b (fun _ => Some ECONNREFUSED) d e g h i j k l.

(** What a flush that returns guarantees: on [true] the error is SUCCESS
    and the write buffer is empty; on [false] either the error is still
    SUCCESS (the wait for writability answered TIMEOUT) or it is the errno
    failure and the connection has been closed. *)
Definition flush_post (ok : bool) (error : memcached_return_t)
           (i' : memcached_instance_st) : Prop :=
  if ok then error = MEMCACHED_SUCCESS /\ write_buffer_offset i' = 0
  else error = MEMCACHED_SUCCESS
       \/ (error = MEMCACHED_ERRNO
           /\ fd i' = INVALID_SOCKET
           /\ state i' = MEMCACHED_SERVER_STATE_NEW
           /\ memcached_instance_error_return i' = MEMCACHED_ERRNO).

(** A world whose kernel takes two bytes at a time. *)
Definition two_bytes_world : world := set_w_send (fun _ => IoLen 2) quiet_world.

(** The read tally after a step that either leaves it or empties the read
    buffer. *)
Definition kept_or_emptied (i i' : memcached_instance_st) : Prop :=
  read_buffer_length i' = read_buffer_length i \/ read_buffer_length i' = 0.

(** The errno values on which [_io_fill] retries or waits instead of
    giving up. *)
Definition fill_retries (e : Z) : bool :=
  (e =? EINTR) || (e =? ETIMEDOUT) || (e =? EAGAIN) || (e =? ERESTART).

(** The errno values that reach the descriptor assertion of [_io_fill]. *)
Definition fill_asserts (e : Z) : bool :=
  (e =? ENOTCONN) || (e =? ENOTSOCK) || (e =? EBADF).

(** A world whose peer has closed: every receive delivers nothing. *)
Definition eof_world : world := set_w_recv (fun _ => RecvData []) quiet_world.

(** A world whose receive fails with [ECONNREFUSED]. *)
Definition recv_refused_world : world :=
  set_w_recv (fun _ => RecvErr ECONNREFUSED) quiet_world.

(** The sum of the lengths of the parts of a vector. *)
Definition total_length (vector : list libmemcached_io_vector_st) : Z :=
  fold_right (fun part acc => length part + acc) 0 vector.

(** A request in three parts, one of them empty. *)
Definition request_vector : list libmemcached_io_vector_st :=
  [mkVector (Some [103; 101; 116; 32]) 4; mkVector None 0;
   mkVector (Some [107; 13; 10]) 3].


(** A connection with nothing buffered and no response owed. *)
Definition idle (i : memcached_instance_st) : bool :=
  negb (buffered i) && negb (pending i).

(** A connection on another descriptor that is owed two responses. *)
Definition busy_conn : memcached_instance_st :=
  mkInstance 11 MEMCACHED_SERVER_STATE_CONNECTED false 2 0 0 0 0 0 1 4 15
             0 0 0 0 (fun _ => 0) [] (Some tcp_root) 0.

(** The counters of the data-transfer calls agree in two call records. *)
Definition same_transfers (c c' : calls) : Prop :=
  n_recv c' = n_recv c /\ n_send c' = n_send c /\ n_sendmsg c' = n_sendmsg c.

(** A world whose peer delivers two bytes twice and then closes. *)
Definition trickle_world : world :=
  set_w_recv (fun k => if (k <? 2)%nat then RecvData [104; 105] else RecvData [])
             quiet_world.

(** The connection after the [memmove] of [repack_input_buffer], when there
    was something to move. *)
Definition repacked (i : memcached_instance_st) : memcached_instance_st :=
  if negb (read_ptr i =? 0)
  then set_read_data_length (read_buffer_length i)
         (set_read_ptr 0
            (set_read_buffer
               (memmove_front (read_buffer i) (read_ptr i) (read_buffer_length i)) i))
  else i.

(** A connection whose owner has three callbacks registered. *)
Definition callback_conn : memcached_instance_st :=
  mkInstance 7 MEMCACHED_SERVER_STATE_CONNECTED false 1 0 0 0 0 0 1 4 15
             0 0 0 0 (fun _ => 0) []
             (Some (mkMemcached 5000 false true (Some 3%nat) [])) 0.

(** A world whose second callback fails. *)
Definition failing_callback_world : world :=
  let 'mkWorld a b c d e g h i j k l := quiet_world in
  mkWorld a b c d e g h i
          (fun n => if (n =? 1)%nat then MEMCACHED_FAILURE else MEMCACHED_SUCCESS) k l.


(** A kernel answer to a send that moves nothing and is retried at once:
    [ENOBUFS], or a count of zero. *)
Definition stalls (r : io_result) : bool :=
  match r with
  | IoErr e => e =? ENOBUFS
  | IoLen n => n <=? 0
  end.

(** A connection with three bytes to send whose last recorded error is an
    old TIMEOUT, and a world in which the send and the receive would
    block and every poll is interrupted by a signal. *)
Definition stale_timeout_conn : memcached_instance_st :=
  mkInstance 7 MEMCACHED_SERVER_STATE_CONNECTED false 0 0 0 0 0 0 1 4 15
             0 0 0 3 (fun _ => 0) [(MEMCACHED_TIMEOUT, 0)] (Some tcp_root) 0.
Definition stale_timeout_world : world :=
  set_w_send (fun _ => IoErr EAGAIN)
    (set_w_recv (fun _ => RecvErr EAGAIN)
       (set_w_poll (fun _ => PollErr EINTR) quiet_world)).



(** The buffered writes of the non-empty parts of a vector, one after the
    other, each of them succeeding: [parts_written w nd fuel vector m m']
    holds when they take the connection from [m] to [m'].  A part of
    length zero is skipped. *)
Inductive parts_written (w : world) (nd : bool) (fuel : nat)
  : list libmemcached_io_vector_st -> machine -> machine -> Prop :=
| parts_written_nil (m : machine) : parts_written w nd fuel [] m m
| parts_written_skip (part : libmemcached_io_vector_st)
    (vector : list libmemcached_io_vector_st) (m m' : machine) :
    length part = 0 ->
    parts_written w nd fuel vector m m' ->
    parts_written w nd fuel (part :: vector) m m'
| parts_written_cons (part : libmemcached_io_vector_st)
    (vector : list libmemcached_io_vector_st) (m m1 m' : machine) (written : Z) :
    length part <> 0 ->
    _io_write w nd fuel (length part) false m = Done ((true, written), m1) ->
    parts_written w nd fuel vector m1 m' ->
    parts_written w nd fuel (part :: vector) m m'.











(** The completion test finds the flag set within [T] further tests,
    whenever it is started. *)
Definition completes_within (w : world) (T : nat) : Prop :=
  forall k, exists t, (t <= T)%nat /\ w_mpi_test w (k + t) = true.


(** * Properties *)

Lemma return_eqb_eq a b : return_eqb a b = true <-> a = b.
Proof. destruct a, b; simpl; split; congruence. Qed.

(** ** Lifecycle *)

Lemma close_socket_eq (w : world) (m : machine) :
  close_socket w m
  = Done (tt, mkMachine (closed_conn (inst m)) (closed_calls (inst m) (sys m))).
Proof.
  destruct m as [i c]; unfold closed_conn, closed_calls; simpl.
  unfold close_socket, reset_socket; unfold_monad; simpl.
  destruct (fd i =? INVALID_SOCKET) eqn:E; simpl.
  - destruct i; reflexivity.
  - destruct i; simpl in *. rewrite E. simpl. reflexivity.
Qed.

(** C8, counterexample: "all counters are zero" after [close_socket] fails.
    A connection with 2 read waits, 5 write waits and 4096 bytes read in
    total is closed; the pending-response count and the bytes-sent counter
    are zeroed, the two wait counts and the cumulative bytes-read counter
    are not. *)
Lemma close_socket_leaves_wait_counts :
  exists m',
    close_socket quiet_world (mkMachine worn_conn no_calls) = Done (tt, m')
    /\ cursor_active_ (inst m') = 0
    /\ io_bytes_sent (inst m') = 0
    /\ io_wait_count_read (inst m') = 2
    /\ io_wait_count_write (inst m') = 5
    /\ io_wait_count_bytes_read (inst m') = 4096
    /\ ~ (io_wait_count_read (inst m') = 0
          /\ io_wait_count_write (inst m') = 0
          /\ io_wait_count_bytes_read (inst m') = 0).
Proof.
  eexists. split; [apply close_socket_eq |].
  simpl. repeat split; try reflexivity.
  intros (H & _). discriminate H.
Qed.

(** C8, as amended: for every connection and every answer of the shutdown
    call, [close_socket] returns and leaves the lifecycle state NEW, the
    descriptor invalid, the read buffer length zero with the read cursor at
    the buffer start, the write-buffer offset at the UDP header size when
    the owner is UDP and at zero otherwise, the shutdown flag cleared, the
    three version numbers reset to [UINT8_MAX], and the pending-response
    count and the bytes-sent counter at zero; the read-wait, write-wait and
    cumulative bytes-read counters keep their values. *)
Theorem close_socket_resets (w : world) (m : machine) :
  exists m',
    close_socket w m = Done (tt, m')
    /\ state (inst m') = MEMCACHED_SERVER_STATE_NEW
    /\ fd (inst m') = INVALID_SOCKET
    /\ read_buffer_length (inst m') = 0
    /\ read_ptr (inst m') = 0
    /\ write_buffer_offset (inst m')
       = match root (inst m) with
         | Some r => if memcached_is_udp r then UDP_DATAGRAM_HEADER_LENGTH else 0
         | None => 0
         end
    /\ is_shutting_down (inst m') = false
    /\ major_version (inst m') = UINT8_MAX
    /\ minor_version (inst m') = UINT8_MAX
    /\ micro_version (inst m') = UINT8_MAX
    /\ cursor_active_ (inst m') = 0
    /\ io_bytes_sent (inst m') = 0
    /\ io_wait_count_read (inst m') = io_wait_count_read (inst m)
    /\ io_wait_count_write (inst m') = io_wait_count_write (inst m)
    /\ io_wait_count_bytes_read (inst m') = io_wait_count_bytes_read (inst m).
Proof.
  eexists. split; [apply close_socket_eq |].
  destruct m as [i c]; destruct i; simpl.
  unfold closed_conn; simpl.
  destruct (fd0 =? INVALID_SOCKET) eqn:E; simpl;
    repeat split; try reflexivity.
  apply Z.eqb_eq in E. exact E.
Qed.

(** The same closing when [shutdown] itself fails: the reset is the one of
    [close_socket_resets]. *)
Example close_socket_after_failed_shutdown :
  exists m',
    close_socket failing_shutdown_world (mkMachine worn_conn no_calls) = Done (tt, m')
    /\ state (inst m') = MEMCACHED_SERVER_STATE_NEW
    /\ write_buffer_offset (inst m') = 0
    /\ n_shutdown (sys m') = 1%nat.
Proof.
  eexists. split; [apply close_socket_eq |]. simpl. repeat split.
Qed.

(** ** UDP framer *)

Lemma error_messages_record_on_root (e : error_t) (i : memcached_instance_st) :
  error_messages (record_on_root e i) = error_messages i.
Proof. unfold record_on_root. destruct i as [? ? ? ? ? ? ? ? ? ? ? ? ? ? ? ? ? ? [r|] ?]; reflexivity. Qed.

Lemma error_messages_set_error_messages (l : list error_t) (i : memcached_instance_st) :
  error_messages (set_error_messages l i) = l.
Proof. destruct i; reflexivity. Qed.

Lemma vdo_udp_loop_spec (w : world) :
  forall (retry : nat) (m : machine),
  exists rc m' k,
    vdo_udp_loop w retry m = Done (rc, m')
    /\ n_sendmsg (sys m') = (n_sendmsg (sys m) + k)%nat
    /\ (k <= Nat.pred retry)%nat
    /\ (forall j, (S j < k)%nat ->
          no_verdict (w_sendmsg w (n_sendmsg (sys m) + j)) = true)
    /\ (forall j, (j < k)%nat ->
          no_verdict (w_sendmsg w (n_sendmsg (sys m) + j)) = false ->
          S j = k /\ rc = udp_verdict (w_sendmsg w (n_sendmsg (sys m) + j))
          /\ error_messages (inst m')
             = udp_error (w_sendmsg w (n_sendmsg (sys m) + j))
               ++ error_messages (inst m))
    /\ ((forall j, (j < k)%nat ->
          no_verdict (w_sendmsg w (n_sendmsg (sys m) + j)) = true) ->
        rc = MEMCACHED_SUCCESS /\ inst m' = inst m /\ k = Nat.pred retry).
Proof.
  induction retry as [|retry IH]; intros m.
  - exists MEMCACHED_SUCCESS, m, 0%nat. simpl.
    repeat split; try lia; intros; lia.
  - destruct retry as [|retry'].
    + exists MEMCACHED_SUCCESS, m, 0%nat. simpl.
      repeat split; try lia; intros; lia.
    + destruct m as [i c].
      change (vdo_udp_loop w (S (S retry')) (mkMachine i c))
        with (bind (sys_sendmsg w)
                (fun sendmsg_length =>
                   match sendmsg_length with
                   | IoLen n => if 0 <? n then ret MEMCACHED_SUCCESS
                                else vdo_udp_loop w (S retry')
                   | IoErr errno =>
                       if errno =? EMSGSIZE
                       then memcached_set_error MEMCACHED_WRITE_FAILURE
                       else memcached_set_errno errno
                   end) (mkMachine i c)).
      unfold_monad. cbn [sys inst].
      destruct (w_sendmsg w (n_sendmsg c)) as [e|n] eqn:Ans.
      * (* an error ends the loop *)
        unfold memcached_set_error, memcached_set_errno; unfold_monad.
        destruct (e =? EMSGSIZE) eqn:Ee.
        -- eexists _, _, 1%nat. split; [reflexivity|].
           cbn [sys inst]. split; [destruct c; simpl; lia|]. split; [simpl; lia|].
           split; [intros; lia|]. split.
           ++ intros j Hj _. assert (j = 0)%nat by lia. subst j.
              rewrite Nat.add_0_r, Ans. cbn [udp_verdict udp_error]. rewrite Ee.
              rewrite error_messages_set_error_messages. auto.
           ++ intros H. specialize (H 0%nat ltac:(lia)).
              rewrite Nat.add_0_r, Ans in H. discriminate H.
        -- eexists _, _, 1%nat. split; [reflexivity|].
           cbn [sys inst]. split; [destruct c; simpl; lia|]. split; [simpl; lia|].
           split; [intros; lia|]. split.
           ++ intros j Hj _. assert (j = 0)%nat by lia. subst j.
              rewrite Nat.add_0_r, Ans. cbn [udp_verdict udp_error]. rewrite Ee.
              rewrite error_messages_set_error_messages. auto.
           ++ intros H. specialize (H 0%nat ltac:(lia)).
              rewrite Nat.add_0_r, Ans in H. discriminate H.
      * destruct (0 <? n) eqn:Pos.
        -- (* a positive count breaks out *)
           eexists _, _, 1%nat. split; [reflexivity|].
           simpl. split; [destruct c; simpl; lia|]. split; [lia|].
           split; [intros; lia|]. split.
           ++ intros j Hj _. assert (j = 0)%nat by lia. subst j.
              rewrite Nat.add_0_r, Ans. simpl. auto.
           ++ intros H. specialize (H 0%nat ltac:(lia)).
              rewrite Nat.add_0_r, Ans in H. simpl in H.
              apply Z.ltb_lt in Pos. apply Z.leb_le in H. lia.
        -- (* a zero count goes round again *)
           destruct (IH (mkMachine i (bump_sendmsg c)))
             as (rc & m' & k & Run & Cnt & Bound & Before & Last & All).
           exists rc, m', (S k). split; [exact Run|].
           assert (Hb : n_sendmsg (bump_sendmsg c) = S (n_sendmsg c))
             by (destruct c; reflexivity).
           simpl in Cnt, Before, Last, All. rewrite Hb in Cnt, Before, Last, All.
           simpl in Bound.
           assert (Zero : no_verdict (w_sendmsg w (n_sendmsg c)) = true).
           { rewrite Ans. simpl. apply Z.leb_le. apply Z.ltb_ge in Pos. lia. }
           simpl. split; [lia|]. split; [lia|]. split; [|split].
           ++ intros [|j] Hj.
              ** rewrite Nat.add_0_r. exact Zero.
              ** replace (n_sendmsg c + S j)%nat with (S (n_sendmsg c) + j)%nat by lia.
                 apply Before. lia.
           ++ intros [|j] Hj Hv.
              ** rewrite Nat.add_0_r, Zero in Hv. discriminate Hv.
              ** replace (n_sendmsg c + S j)%nat with (S (n_sendmsg c) + j)%nat in * by lia.
                 destruct (Last j ltac:(lia) Hv) as (-> & -> & ->). auto.
           ++ intros H.
              destruct All as (-> & -> & ->).
              { intros j Hj.
                replace (S (n_sendmsg c) + j)%nat with (n_sendmsg c + S j)%nat by lia.
                apply H. lia. }
              auto.
Qed.

Lemma vdo_udp_unfold (w : world) first rest (m : machine) :
  vector_slot_used first = false ->
  _vdo_udp w (first :: rest) m
  = vdo_udp_loop w 5 (mkMachine (increment_udp_message_id (inst m)) (sys m)).
Proof.
  intros H. unfold _vdo_udp. rewrite H. unfold_monad. reflexivity.
Qed.

Lemma error_messages_increment_udp_message_id (i : memcached_instance_st) :
  error_messages (increment_udp_message_id i) = error_messages i.
Proof. destruct i; reflexivity. Qed.

(** The send loop never makes a fifth call: the pre-decrement of
    [while (--retry)] leaves four turns. *)
Lemma vdo_udp_sendmsg_at_most_4 (w : world) first rest (m : machine) :
  vector_slot_used first = false ->
  exists rc m',
    _vdo_udp w (first :: rest) m = Done (rc, m')
    /\ (n_sendmsg (sys m') <= n_sendmsg (sys m) + 4)%nat.
Proof.
  intros H. rewrite (vdo_udp_unfold w first rest m H).
  destruct (vdo_udp_loop_spec w 5 (mkMachine (increment_udp_message_id (inst m)) (sys m)))
    as (rc & m' & k & Run & Cnt & Bound & _).
  exists rc, m'. split; [exact Run|]. simpl in *. lia.
Qed.


(** C5: when every call the send loop makes before it gives up reports
    neither success nor an error, the datagram send returns SUCCESS and
    records no error: the connection's and its owner's error lists are the
    ones it started with (only the message id has moved).  The loop gives up
    after its fourth call. *)
Theorem vdo_udp_silent_success (w : world) first rest (m : machine) :
  vector_slot_used first = false ->
  (forall j, (j < 4)%nat ->
     no_verdict (w_sendmsg w (n_sendmsg (sys m) + j)) = true) ->
  exists m',
    _vdo_udp w (first :: rest) m = Done (MEMCACHED_SUCCESS, m')
    /\ inst m' = increment_udp_message_id (inst m)
    /\ error_messages (inst m') = error_messages (inst m)
    /\ root (inst m') = root (inst m)
    /\ n_sendmsg (sys m') = (n_sendmsg (sys m) + 4)%nat.
Proof.
  intros H Quiet. rewrite (vdo_udp_unfold w first rest m H).
  destruct (vdo_udp_loop_spec w 5 (mkMachine (increment_udp_message_id (inst m)) (sys m)))
    as (rc & m' & k & Run & Cnt & Bound & _ & _ & All).
  cbn [sys inst] in *. simpl in Bound.
  destruct All as (-> & Hi & ->).
  { intros j Hj. apply Quiet. lia. }
  exists m'. split; [exact Run|]. split; [exact Hi|].
  rewrite Hi. split; [apply error_messages_increment_udp_message_id|].
  split; [destruct (inst m); reflexivity|]. simpl in Cnt. exact Cnt.
Qed.

Lemma vdo_udp_silent_success_witness :
  exists m',
    _vdo_udp quiet_world udp_vector (mkMachine udp_conn no_calls)
    = Done (MEMCACHED_SUCCESS, m')
    /\ inst m' = increment_udp_message_id udp_conn
    /\ error_messages (inst m') = []
    /\ root (inst m') = Some udp_root
    /\ n_sendmsg (sys m') = 4%nat.
Proof.
  apply (vdo_udp_silent_success quiet_world (mkVector None 0)
           [mkVector (Some [103; 101; 116]) 3] (mkMachine udp_conn no_calls)).
  - reflexivity.
  - intros j _. reflexivity.
Defined.

(** ** Poll Gate *)

(** C3, the code at the failing input: the claim promises up to 5 attempts,
    and [loop_max] is set to 5, but [while (--loop_max)] leaves four turns.
    Four polls in a row are interrupted by a signal and a fifth poll would
    find the descriptor readable; [io_wait] gives up after the fourth poll,
    closes the connection and returns CONNECTION_FAILURE instead of making
    the fifth attempt. *)
Lemma io_wait_gives_up_after_four_polls :
  exists m',
    io_wait four_signals_world POLLIN (mkMachine fresh_conn no_calls)
    = Done (MEMCACHED_CONNECTION_FAILURE, m')
    /\ n_poll (sys m') = 4%nat
    /\ w_poll four_signals_world 4 = PollActive POLLIN
    /\ state (inst m') = MEMCACHED_SERVER_STATE_NEW
    /\ fd (inst m') = INVALID_SOCKET.
Proof.
  eexists. split; [vm_compute; reflexivity |].
  repeat split.
Qed.

Lemma n_poll_bump_poll c : n_poll (bump_poll c) = S (n_poll c).
Proof. destruct c; reflexivity. Qed.

Lemma n_poll_bump_getsockopt c : n_poll (bump_getsockopt c) = n_poll c.
Proof. destruct c; reflexivity. Qed.

Lemma n_getsockopt_bump_poll c : n_getsockopt (bump_poll c) = n_getsockopt c.
Proof. destruct c; reflexivity. Qed.

Lemma transient_polls_count (w : world) :
  forall k c c', transient_polls w k c = Some c' ->
                 n_poll c' = (n_poll c + k)%nat.
Proof.
  induction k as [|k IH]; intros c c' H; simpl in H.
  - inversion H; subst. lia.
  - destruct (w_poll w (n_poll c)) as [e| |rev]; try discriminate.
    + destruct (is_EINTR_or_ERESTART e); try discriminate.
      apply IH in H. rewrite n_poll_bump_poll in H. lia.
    + destruct (spurious rev); try discriminate.
      destruct (w_getsockopt w (n_getsockopt c)) as [[| |]|]; try discriminate.
      apply IH in H. rewrite n_poll_bump_getsockopt, n_poll_bump_poll in H. lia.
Qed.

(** One transient answer makes the loop body [continue] and changes nothing
    but the call counts. *)
Lemma io_wait_body_transient (w : world) (i : memcached_instance_st) (c c' : calls) :
  transient_polls w 1 c = Some c' ->
  io_wait_body w (mkMachine i c) = Done (Continue, mkMachine i c').
Proof.
  simpl. unfold io_wait_body. unfold_monad. cbn [sys inst].
  destruct (w_poll w (n_poll c)) as [e| |rev]; try discriminate.
  - destruct (is_EINTR_or_ERESTART e); try discriminate.
    intros H; inversion H; reflexivity.
  - unfold spurious.
    destruct (has_bit rev POLLIN || has_bit rev POLLOUT); try discriminate.
    destruct (has_bit rev POLLHUP); try discriminate.
    destruct (has_bit rev POLLERR); try discriminate.
    cbn [negb andb sys inst]. rewrite n_getsockopt_bump_poll.
    destruct (w_getsockopt w (n_getsockopt c)) as [[| |]|]; try discriminate.
    intros H; inversion H; reflexivity.
Qed.

Lemma transient_polls_S (w : world) k c c' :
  transient_polls w (S k) c = Some c' ->
  exists c1, transient_polls w 1 c = Some c1 /\ transient_polls w k c1 = Some c'.
Proof.
  simpl.
  destruct (w_poll w (n_poll c)) as [e| |rev]; try discriminate.
  - destruct (is_EINTR_or_ERESTART e); try discriminate. eauto.
  - destruct (spurious rev); try discriminate.
    destruct (w_getsockopt w (n_getsockopt c)) as [[| |]|]; try discriminate. eauto.
Qed.

Lemma io_wait_loop_SS (w : world) (n : nat) :
  io_wait_loop w (S (S n))
  = bind (io_wait_body w)
      (fun f => match f with
                | Return rc => ret (Some rc)
                | Continue => io_wait_loop w (S n)
                | Break => ret None
                end).
Proof. reflexivity. Qed.

(** [k] transient answers take [k] turns of the loop. *)
Lemma io_wait_loop_transient (w : world) (i : memcached_instance_st) :
  forall k n c c',
    transient_polls w k c = Some c' ->
    io_wait_loop w (k + S n) (mkMachine i c) = io_wait_loop w (S n) (mkMachine i c').
Proof.
  induction k as [|k IH]; intros n c c' H.
  - simpl in H. inversion H. reflexivity.
  - apply transient_polls_S in H. destruct H as (c1 & H1 & Hk).
    replace (S k + S n)%nat with (S (S (k + n))) by lia.
    rewrite io_wait_loop_SS. unfold bind at 1.
    rewrite (io_wait_body_transient w i c c1 H1).
    replace (S (k + n)) with (k + S n)%nat by lia.
    apply IH. exact Hk.
Qed.

Lemma io_wait_body_ready (w : world) (i : memcached_instance_st) (c : calls) revents :
  w_poll w (n_poll c) = PollActive revents ->
  has_bit revents POLLIN || has_bit revents POLLOUT = true ->
  io_wait_body w (mkMachine i c)
  = Done (Return MEMCACHED_SUCCESS, mkMachine i (bump_poll c)).
Proof.
  intros Hp Hb. unfold io_wait_body. unfold_monad. cbn [sys inst].
  rewrite Hp, Hb. reflexivity.
Qed.

Lemma root_count_wait events i : root (count_wait events i) = root i.
Proof. unfold count_wait. destruct (has_bit events POLLOUT); destruct i; reflexivity. Qed.

Lemma error_messages_count_wait events i :
  error_messages (count_wait events i) = error_messages i.
Proof. unfold count_wait. destruct (has_bit events POLLOUT); destruct i; reflexivity. Qed.

Lemma error_messages_closed_conn i : error_messages (closed_conn i) = error_messages i.
Proof.
  unfold closed_conn. destruct (negb (fd i =? INVALID_SOCKET)); destruct i; reflexivity.
Qed.

Lemma state_closed_conn i : state (closed_conn i) = MEMCACHED_SERVER_STATE_NEW.
Proof.
  unfold closed_conn. destruct (negb (fd i =? INVALID_SOCKET)); destruct i; reflexivity.
Qed.

Lemma fd_closed_conn i : fd (closed_conn i) = INVALID_SOCKET.
Proof.
  unfold closed_conn. destruct (fd i =? INVALID_SOCKET) eqn:E.
  - apply Z.eqb_eq in E. destruct i; simpl in *. exact E.
  - destruct i; reflexivity.
Qed.

Lemma n_poll_closed_calls i c : n_poll (closed_calls i c) = n_poll c.
Proof.
  unfold closed_calls. destruct (negb (fd i =? INVALID_SOCKET)); destruct c; reflexivity.
Qed.

Lemma state_fd_after_set_error (e : error_t) (l : list error_t) i :
  state (set_error_messages l (record_on_root e i)) = state i
  /\ fd (set_error_messages l (record_on_root e i)) = fd i.
Proof.
  unfold record_on_root.
  destruct i as [? ? ? ? ? ? ? ? ? ? ? ? ? ? ? ? ? ? [r|] ?]; split; reflexivity.
Qed.

(** [io_wait] from the entry of its retry loop on: the purge (when write
    interest was asked for) has succeeded and left the machine [m1], and the
    configured timeout is not zero. *)
Lemma io_wait_enters_loop (w : world) (events : Z) (m m1 : machine) (r : Memcached) :
  (if has_bit events POLLOUT then memcached_purge w else ret true) m = Done (true, m1) ->
  root (inst m1) = Some r ->
  poll_timeout r <> 0 ->
  io_wait w events m
  = bind (io_wait_loop w 5)
      (fun looped =>
         match looped with
         | Some rc => ret rc
         | None =>
             bind (memcached_quit_server w) (fun _ =>
             bind get_inst (fun i =>
             if memcached_has_error i then ret (memcached_instance_error_return i)
             else memcached_set_error MEMCACHED_CONNECTION_FAILURE))
         end)
      (mkMachine (count_wait events (inst m1)) (sys m1)).
Proof.
  intros Hp Hr Ht. unfold io_wait. unfold bind at 1. rewrite Hp. cbn [negb].
  unfold bind at 1.
  assert (Hc : (if has_bit events POLLOUT
                then modify (fun i => set_io_wait_count_write
                                        (wrap32 (io_wait_count_write i + 1)) i)
                else modify (fun i => set_io_wait_count_read
                                        (wrap32 (io_wait_count_read i + 1)) i)) m1
               = Done (tt, mkMachine (count_wait events (inst m1)) (sys m1))).
  { unfold count_wait. destruct (has_bit events POLLOUT); reflexivity. }
  rewrite Hc. unfold bind at 1. unfold get_root. cbn [inst].
  rewrite root_count_wait, Hr.
  apply Z.eqb_neq in Ht. rewrite Ht. reflexivity.
Qed.

(** The retry loop of the Poll Gate as the code runs it: once the purge has
    passed and the timeout is not zero, the readiness wait is retried on
    interruption-by-signal and on the spurious error indication (error
    reported, queried socket error zero) for up to 4 attempts.  After
    [k < 4] such answers a poll that reports the descriptor ready makes the
    call return SUCCESS after [k + 1] polls.  After 4 such answers no
    further poll is made: the connection is closed (state NEW, descriptor
    invalid) and the call returns the connection's last recorded error, or
    records and returns CONNECTION_FAILURE when none was recorded. *)
Theorem io_wait_retries_four_attempts (w : world) (events : Z) (m m1 : machine)
        (r : Memcached) (k : nat) (c' : calls) :
  (if has_bit events POLLOUT then memcached_purge w else ret true) m = Done (true, m1) ->
  root (inst m1) = Some r ->
  poll_timeout r <> 0 ->
  transient_polls w k (sys m1) = Some c' ->
  ((k < 4)%nat ->
   forall revents,
     w_poll w (n_poll c') = PollActive revents ->
     has_bit revents POLLIN || has_bit revents POLLOUT = true ->
     io_wait w events m
     = Done (MEMCACHED_SUCCESS, mkMachine (count_wait events (inst m1)) (bump_poll c'))
     /\ n_poll (bump_poll c') = (n_poll (sys m1) + k + 1)%nat)
  /\ (k = 4%nat ->
      exists m',
        io_wait w events m
        = Done (if memcached_has_error (inst m1)
                then memcached_instance_error_return (inst m1)
                else MEMCACHED_CONNECTION_FAILURE, m')
        /\ n_poll (sys m') = (n_poll (sys m1) + 4)%nat
        /\ state (inst m') = MEMCACHED_SERVER_STATE_NEW
        /\ fd (inst m') = INVALID_SOCKET
        /\ error_messages (inst m')
           = if memcached_has_error (inst m1) then error_messages (inst m1)
             else [(MEMCACHED_CONNECTION_FAILURE, 0)]).
Proof.
  intros Hp Hr Ht Htr.
  rewrite (io_wait_enters_loop w events m m1 r Hp Hr Ht).
  pose proof (transient_polls_count w k (sys m1) c' Htr) as Hcnt.
  split.
  - intros Hk revents Hpoll Hbit.
    unfold bind at 1.
    replace 5%nat with (k + S (S (3 - k)))%nat by lia.
    rewrite (io_wait_loop_transient w _ k (S (3 - k)) (sys m1) c' Htr).
    rewrite io_wait_loop_SS. unfold bind at 1.
    rewrite (io_wait_body_ready w _ c' revents Hpoll Hbit).
    split; [reflexivity|]. rewrite n_poll_bump_poll. lia.
  - intros ->.
    unfold bind at 1.
    change 5%nat with (4 + 1)%nat.
    rewrite (io_wait_loop_transient w _ 4 0 (sys m1) c' Htr).
    cbn [io_wait_loop]. unfold ret at 1.
    unfold memcached_quit_server. unfold bind at 1.
    rewrite close_socket_eq. cbn [inst sys].
    unfold bind at 1. unfold get_inst. cbn [inst].
    unfold memcached_has_error at 1, memcached_instance_error_return at 1.
    rewrite error_messages_closed_conn, error_messages_count_wait.
    unfold memcached_has_error, memcached_instance_error_return.
    destruct (error_messages (inst m1)) as [|[rc e] l] eqn:El.
    + eexists. split; [reflexivity|].
      unfold memcached_set_error; unfold_monad. cbn [sys inst].
      rewrite n_poll_closed_calls.
      split; [lia|].
      destruct (state_fd_after_set_error (MEMCACHED_CONNECTION_FAILURE, 0)
                  ((MEMCACHED_CONNECTION_FAILURE, 0)
                     :: error_messages (closed_conn (count_wait events (inst m1))))
                  (closed_conn (count_wait events (inst m1)))) as (Hs & Hf).
      rewrite Hs, Hf, state_closed_conn, fd_closed_conn.
      rewrite error_messages_set_error_messages, error_messages_closed_conn,
              error_messages_count_wait, El.
      repeat split.
    + eexists. split; [reflexivity|]. cbn [sys inst].
      rewrite n_poll_closed_calls, state_closed_conn, fd_closed_conn,
              error_messages_closed_conn, error_messages_count_wait.
      repeat split; [lia | exact El].
Qed.

Lemma io_wait_retries_four_attempts_witness :
  exists m',
    io_wait four_signals_world POLLIN (mkMachine fresh_conn no_calls)
    = Done (MEMCACHED_CONNECTION_FAILURE, m')
    /\ n_poll (sys m') = (0 + 4)%nat
    /\ state (inst m') = MEMCACHED_SERVER_STATE_NEW
    /\ fd (inst m') = INVALID_SOCKET
    /\ error_messages (inst m') = [(MEMCACHED_CONNECTION_FAILURE, 0)].
Proof.
  refine (proj2 (io_wait_retries_four_attempts four_signals_world POLLIN
                   (mkMachine fresh_conn no_calls) (mkMachine fresh_conn no_calls)
                   tcp_root 4 (mkCalls 0 0 4 0 0 0 0 0 0 0 0 0) _ _ _ _) eq_refl).
  - reflexivity.
  - reflexivity.
  - simpl. lia.
  - vm_compute. reflexivity.
Defined.

Example io_wait_retries_spurious_error :
  exists m',
    io_wait spurious_then_ready_world POLLOUT (mkMachine fresh_conn no_calls)
    = Done (MEMCACHED_SUCCESS, m')
    /\ n_poll (sys m') = 2%nat /\ n_getsockopt (sys m') = 1%nat
    /\ io_wait_count_write (inst m') = 1.
Proof. eexists. split; [vm_compute; reflexivity|]. repeat split. Qed.

(** ** Flush *)

(** C9, counterexample: flushing a connection whose write buffer is empty
    is not always a success.  [io_flush] purges pending input first; when
    that purge fails, it returns [false] and leaves the error out-parameter
    unassigned. *)
Lemma io_flush_empty_buffer_may_fail :
  write_buffer_offset fresh_conn = 0
  /\ exists m',
       io_flush failing_purge_world 10 true (mkMachine fresh_conn no_calls)
       = Done ((false, None), m')
       /\ n_send (sys m') = 0%nat.
Proof.
  split; [reflexivity|].
  eexists. split; [vm_compute; reflexivity|]. reflexivity.
Qed.

Lemma set_write_buffer_offset_same i :
  set_write_buffer_offset (write_buffer_offset i) i = i.
Proof. destruct i; reflexivity. Qed.

(** C9, as amended: for every connection whose write buffer is empty once
    the purge of pending input has succeeded, flushing is a no-op that
    returns success: no send call is made, the connection is left as the
    purge left it with the write-buffer offset at zero, and the reported
    error is SUCCESS.  When the purge fails, the flush returns [false]
    without a send call and without assigning the error. *)
Theorem io_flush_empty_is_noop (w : world) (fuel : nat) (with_flush : bool)
        (m : machine) (i1 : memcached_instance_st) :
  (w_purge w (n_purge (sys m)) (inst m) = (true, i1) ->
   write_buffer_offset i1 = 0 ->
   io_flush w (S fuel) with_flush m
   = Done ((true, Some MEMCACHED_SUCCESS), mkMachine i1 (bump_purge (sys m)))
   /\ n_send (bump_purge (sys m)) = n_send (sys m))
  /\ (w_purge w (n_purge (sys m)) (inst m) = (false, i1) ->
      io_flush w (S fuel) with_flush m
      = Done ((false, None), mkMachine i1 (bump_purge (sys m)))
      /\ n_send (bump_purge (sys m)) = n_send (sys m)).
Proof.
  split.
  - intros Hp Hz. split; [|destruct (sys m); reflexivity].
    unfold io_flush, memcached_purge. unfold_monad. rewrite Hp.
    cbn [negb inst sys io_flush_loop]. rewrite Hz.
    cbn [Z.eqb]. unfold_monad. cbn [inst sys].
    rewrite <- Hz at 1. rewrite set_write_buffer_offset_same. reflexivity.
  - intros Hp. split; [|destruct (sys m); reflexivity].
    unfold io_flush, memcached_purge. unfold_monad. rewrite Hp. reflexivity.
Qed.

Lemma io_flush_empty_is_noop_witness :
  (io_flush quiet_world 1 true (mkMachine fresh_conn no_calls)
   = Done ((true, Some MEMCACHED_SUCCESS), mkMachine fresh_conn (bump_purge no_calls))
   /\ n_send (bump_purge no_calls) = n_send no_calls)
  /\ (io_flush failing_purge_world 1 true (mkMachine fresh_conn no_calls)
      = Done ((false, None), mkMachine fresh_conn (bump_purge no_calls))
      /\ n_send (bump_purge no_calls) = n_send no_calls).
Proof.
  split.
  - apply (proj1 (io_flush_empty_is_noop quiet_world 0 true
                    (mkMachine fresh_conn no_calls) fresh_conn));
      reflexivity.
  - apply (proj2 (io_flush_empty_is_noop failing_purge_world 0 true
                    (mkMachine fresh_conn no_calls) fresh_conn));
      reflexivity.
Defined.

(** ** Scatter-gather writer *)

Lemma bind_Done {A B : Type} (c : M A) (k : A -> M B) (m : machine) (r : B * machine) :
  bind c k m = Done r ->
  exists a m1, c m = Done (a, m1) /\ k a m1 = Done r.
Proof.
  unfold bind. destruct (c m) as [[a m1]| |]; try discriminate. eauto.
Qed.

Lemma assert_Done (nd : bool) (line : Z) (cond : bool) (m : machine)
      (r : unit * machine) :
  assert_ nd line cond m = Done r -> r = (tt, m).
Proof.
  unfold assert_. destruct (nd || cond); unfold ret, fault; congruence.
Qed.

(** A buffered write that reports success has written all it was asked
    to. *)
Lemma io_write_written (w : world) (nd : bool) (fuel : nat) (len : Z) (wf : bool)
      (m m' : machine) (wr : Z) :
  _io_write w nd fuel len wf m = Done ((true, wr), m') -> wr = len.
Proof.
  unfold _io_write. intros H.
  apply bind_Done in H. destruct H as (i & m1 & _ & H).
  apply bind_Done in H. destruct H as (? & m2 & _ & H).
  apply bind_Done in H. destruct H as (? & m3 & _ & H).
  apply bind_Done in H. destruct H as (stopped & m4 & _ & H).
  destruct stopped as [left|].
  - unfold ret in H. inversion H.
  - destruct wf.
    + apply bind_Done in H. destruct H as ([ok e] & m5 & _ & H).
      unfold ret in H. inversion H. lia.
    + unfold ret in H. inversion H. lia.
Qed.

Lemma io_writev_loop_cons (w : world) (nd : bool) (fuel : nat) part vector ct t :
  io_writev_loop w nd fuel (part :: vector) ct t
  = (let complete_total := wrap_ssize (ct + length part) in
     if negb (length part =? 0) then
       bind (_io_write w nd fuel (length part) false)
         (fun r => let '(ok, written) := r in
                   if negb ok then ret None
                   else io_writev_loop w nd fuel vector complete_total
                          (wrap_ssize (t + written)))
     else io_writev_loop w nd fuel vector complete_total t).
Proof. reflexivity. Qed.

Lemma wrap_ssize_range z : - 2 ^ 63 <= wrap_ssize z < 2 ^ 63.
Proof.
  unfold wrap_ssize.
  pose proof (Z.mod_pos_bound (z + 2 ^ 63) (2 ^ 64) ltac:(lia)). lia.
Qed.

Lemma wrap_ssize_small z : - 2 ^ 63 <= z < 2 ^ 63 -> wrap_ssize z = z.
Proof.
  intros H. unfold wrap_ssize. rewrite Z.mod_small; lia.
Qed.

(** The two tallies stay equal as long as every part succeeds. *)
Lemma io_writev_loop_tallies (w : world) (nd : bool) (fuel : nat) :
  forall vector ct m ct' t' m',
    - 2 ^ 63 <= ct < 2 ^ 63 ->
    io_writev_loop w nd fuel vector ct ct m = Done (Some (ct', t'), m') ->
    ct' = t'.
Proof.
  induction vector as [|part vector IH]; intros ct m ct' t' m' R H.
  - simpl in H. unfold ret in H. inversion H. reflexivity.
  - rewrite io_writev_loop_cons in H. cbv zeta in H.
    destruct (negb (length part =? 0)) eqn:Ne.
    + apply bind_Done in H. destruct H as ([ok wr] & m1 & Hw & H).
      destruct ok; cbn [negb] in H.
      * apply io_write_written in Hw. subst wr.
        eapply IH; [|exact H]. apply wrap_ssize_range.
      * unfold ret in H. inversion H.
    + apply negb_false_iff, Z.eqb_eq in Ne. rewrite Ne, Z.add_0_r in H.
      rewrite (wrap_ssize_small ct R) in H.
      eapply IH; [exact R|exact H].
Qed.

(** A part whose buffered write fails ends the call: what follows it in
    the vector is not looked at. *)
Lemma io_writev_loop_short_circuit (w : world) (nd : bool) (fuel : nat) :
  forall pre part rest ct t ct1 t1 m m1 m2 wr,
    io_writev_loop w nd fuel pre ct t m = Done (Some (ct1, t1), m1) ->
    length part <> 0 ->
    _io_write w nd fuel (length part) false m1 = Done ((false, wr), m2) ->
    io_writev_loop w nd fuel (pre ++ part :: rest) ct t m = Done (None, m2).
Proof.
  induction pre as [|p pre IH]; intros part rest ct t ct1 t1 m m1 m2 wr Hpre Hlen Hw.
  - simpl in Hpre. unfold ret in Hpre. inversion Hpre; subst.
    cbn [app]. rewrite io_writev_loop_cons. cbv zeta.
    apply Z.eqb_neq in Hlen. rewrite Hlen. cbn [negb].
    unfold bind. rewrite Hw. reflexivity.
  - cbn [app]. rewrite io_writev_loop_cons in *. cbv zeta in *.
    destruct (negb (length p =? 0)).
    + apply bind_Done in Hpre. destruct Hpre as ([ok wr0] & m0 & Hw0 & Hpre).
      unfold bind at 1. rewrite Hw0.
      destruct ok; cbn [negb] in *.
      * eapply IH; eauto.
      * unfold ret in Hpre. inversion Hpre.
    + eapply IH; eauto.
Qed.

(** C6, counterexample: the result is not "true iff the bytes written equal
    the bytes requested".  (1) A three-byte part is written in full
    ([total = complete_total = 3]) and the trailing flush then fails on a
    broken pipe: the call returns [false] with equal tallies.  (2) Without
    the trailing flush the same call returns [true] although no send call
    was made and no byte has left the write buffer. *)
Lemma io_writev_equal_tallies_yet_false :
  (exists m',
     io_writev_tallied broken_pipe_world true 10 get_vector true
       (mkMachine fresh_conn no_calls)
     = Done ((false, Some (3, 3)), m')
     /\ memcached_io_writev broken_pipe_world true 10 get_vector true
          (mkMachine fresh_conn no_calls)
        = Done (false, m'))
  /\ (exists m',
        memcached_io_writev quiet_world true 10 get_vector false
          (mkMachine fresh_conn no_calls)
        = Done (true, m')
        /\ n_send (sys m') = 0%nat
        /\ io_bytes_sent (inst m') = 0
        /\ write_buffer_offset (inst m') = 3).
Proof.
  split.
  - eexists. split; vm_compute; reflexivity.
  - eexists. split; [vm_compute; reflexivity|]. repeat split.
Qed.

(** The loop over the parts ends with its tallies exactly when the
    buffered write of every non-empty part succeeded. *)
Lemma io_writev_loop_written (w : world) (nd : bool) (fuel : nat) :
  forall vector ct t m ct' t' m',
    io_writev_loop w nd fuel vector ct t m = Done (Some (ct', t'), m') ->
    parts_written w nd fuel vector m m'.
Proof.
  induction vector as [|part vector IH]; intros ct t m ct' t' m' H.
  - simpl in H. unfold ret in H. injection H as _ _ <-. constructor.
  - rewrite io_writev_loop_cons in H. cbv zeta in H.
    destruct (length part =? 0) eqn:Ez; cbn [negb] in H.
    + apply Z.eqb_eq in Ez. apply parts_written_skip; [exact Ez|].
      eapply IH. exact H.
    + apply Z.eqb_neq in Ez.
      apply bind_Done in H. destruct H as ([ok wr] & m1 & Hw & H).
      destruct ok; cbn [negb] in H; [|discriminate H].
      eapply parts_written_cons; [exact Ez | exact Hw |].
      eapply IH. exact H.
Qed.

Lemma parts_written_loop (w : world) (nd : bool) (fuel : nat) :
  forall vector m m',
    parts_written w nd fuel vector m m' ->
    forall ct t, exists ct' t',
      io_writev_loop w nd fuel vector ct t m = Done (Some (ct', t'), m').
Proof.
  induction 1 as [m | part vector m m' Hz _ IH | part vector m m1 m' wr Hnz Hw _ IH];
    intros ct t.
  - exists ct, t. reflexivity.
  - rewrite io_writev_loop_cons. cbv zeta.
    apply Z.eqb_eq in Hz. rewrite Hz. cbn [negb]. apply IH.
  - rewrite io_writev_loop_cons. cbv zeta.
    apply Z.eqb_neq in Hnz. rewrite Hnz. cbn [negb].
    unfold bind at 1. rewrite Hw. cbn [negb]. apply IH.
Qed.

(** C6, as amended: for any sequence of parts, [memcached_io_writev]
    returns true if and only if the buffered write of every non-empty part
    succeeded, one after the other (empty parts are skipped), and, when a
    flush was asked for, the trailing flush with no payload succeeded as
    well; the two tallies are then equal; and a failure of the buffered
    write on a non-empty part, after the parts before it were written,
    makes the whole call return false at once, in the state that write
    left, whatever parts follow. *)
Theorem io_writev_all_or_nothing (w : world) (nd : bool) (fuel : nat)
        (vector : list libmemcached_io_vector_st) (wf : bool) (m : machine) :
  (forall m',
     memcached_io_writev w nd fuel vector wf m = Done (true, m') <->
     exists m1,
       parts_written w nd fuel vector m m1
       /\ (if wf then memcached_io_write_flush w nd fuel m1 = Done (true, m')
           else m' = m1))
  /\ (forall m' tallies,
        io_writev_tallied w nd fuel vector wf m = Done ((true, tallies), m') ->
        exists t, tallies = Some (t, t))
  /\ (forall pre part rest m1 m2 wr,
        vector = pre ++ part :: rest ->
        parts_written w nd fuel pre m m1 ->
        length part <> 0 ->
        _io_write w nd fuel (length part) false m1 = Done ((false, wr), m2) ->
        memcached_io_writev w nd fuel vector wf m = Done (false, m2)).
Proof.
  split; [|split].
  - intros m'. unfold memcached_io_writev, io_writev_tallied.
    unfold bind at 1 2.
    destruct (io_writev_loop w nd fuel vector 0 0 m) as [[[[ct t]|] m1]| |] eqn:Loop.
    + assert (ct = t) by (eapply io_writev_loop_tallies; [|exact Loop]; lia).
      subst t.
      assert (Hw : parts_written w nd fuel vector m m1)
        by (eapply io_writev_loop_written; exact Loop).
      assert (Same : forall m1', parts_written w nd fuel vector m m1' -> m1' = m1).
      { intros m1' Hw'.
        destruct (parts_written_loop w nd fuel vector m m1' Hw' 0 0) as (a & b & E).
        rewrite Loop in E. injection E as _ _ <-. reflexivity. }
      destruct wf.
      * unfold bind at 1.
        destruct (memcached_io_write_flush w nd fuel m1) as [[flushed m2]| |] eqn:Fl.
        -- destruct flushed; cbn [negb]; unfold ret.
           ++ rewrite Z.eqb_refl. split.
              ** intros H. injection H as <-. exists m1. auto.
              ** intros (m1' & E & F). rewrite (Same m1' E), Fl in F.
                 injection F as <-. reflexivity.
           ++ split; [discriminate|].
              intros (m1' & E & F). rewrite (Same m1' E), Fl in F. discriminate F.
        -- split; [discriminate|].
           intros (m1' & E & F). rewrite (Same m1' E), Fl in F. discriminate F.
        -- split; [discriminate|].
           intros (m1' & E & F). rewrite (Same m1' E), Fl in F. discriminate F.
      * unfold ret. rewrite Z.eqb_refl. split.
        -- intros H. injection H as <-. exists m1. auto.
        -- intros (m1' & E & ->). rewrite (Same m1' E). reflexivity.
    + unfold ret. split; [discriminate|].
      intros (m1' & E & _).
      destruct (parts_written_loop w nd fuel vector m m1' E 0 0) as (a & b & E').
      rewrite Loop in E'. discriminate E'.
    + split; [discriminate|]. intros (m1' & E & _).
      destruct (parts_written_loop w nd fuel vector m m1' E 0 0) as (a & b & E').
      rewrite Loop in E'. discriminate E'.
    + split; [discriminate|]. intros (m1' & E & _).
      destruct (parts_written_loop w nd fuel vector m m1' E 0 0) as (a & b & E').
      rewrite Loop in E'. discriminate E'.
  - intros m' tallies H. unfold io_writev_tallied in H.
    apply bind_Done in H. destruct H as (tl & m1 & Loop & H).
    destruct tl as [[ct t]|]; [|discriminate H].
    assert (ct = t) by (eapply io_writev_loop_tallies; [|exact Loop]; lia).
    subst t. exists ct.
    destruct wf.
    + apply bind_Done in H. destruct H as (flushed & m2 & _ & H).
      destruct flushed; cbn [negb] in H; [|discriminate H].
      injection H as _ <- _. reflexivity.
    + injection H as _ <- _. reflexivity.
  - intros pre part rest m1 m2 wr -> Hpre Hlen Hw.
    destruct (parts_written_loop w nd fuel pre m m1 Hpre 0 0) as (ct & t & Loop).
    unfold memcached_io_writev, io_writev_tallied. unfold bind at 1 2.
    rewrite (io_writev_loop_short_circuit w nd fuel pre part rest 0 0 ct t m m1 m2 wr
               Loop Hlen Hw).
    reflexivity.
Qed.

Lemma io_writev_all_or_nothing_witness :
  (exists m',
     memcached_io_writev sending_world true 10 request_vector true
       (mkMachine fresh_conn no_calls) = Done (true, m'))
  /\ (exists m2,
        memcached_io_writev broken_pipe_world true 10
          (request_vector ++ big_part :: [small_part]) true
          (mkMachine fresh_conn no_calls) = Done (false, m2)
        /\ n_send (sys m2) = 1%nat).
Proof.
  split.
  - eexists.
    apply (proj2 (proj1 (io_writev_all_or_nothing sending_world true 10 request_vector
                           true (mkMachine fresh_conn no_calls)) _)).
    eexists. split.
    + eapply parts_written_cons; [vm_compute; discriminate | vm_compute; reflexivity |].
      eapply parts_written_skip; [reflexivity|].
      eapply parts_written_cons; [vm_compute; discriminate | vm_compute; reflexivity |].
      apply parts_written_nil.
    + vm_compute. reflexivity.
  - eexists. split.
    + eapply (proj2 (proj2 (io_writev_all_or_nothing broken_pipe_world true 10
                              (request_vector ++ big_part :: [small_part]) true
                              (mkMachine fresh_conn no_calls)))
                request_vector big_part [small_part]).
      * reflexivity.
      * eapply parts_written_cons; [vm_compute; discriminate | vm_compute; reflexivity |].
        eapply parts_written_skip; [reflexivity|].
        eapply parts_written_cons; [vm_compute; discriminate | vm_compute; reflexivity |].
        apply parts_written_nil.
      * vm_compute. discriminate.
      * vm_compute. reflexivity.
    + reflexivity.
Defined.

(** ** [memcached_vdo] on the TCP path *)

(** C10, the code at the failing input: the else-branch is reached, against
    the code's own assertion.  The trailing flush fails on a broken pipe,
    which records an errno failure on the connection and its owner, and
    [memcached_io_writev] returns [false].  The assertion of line 115
    states that the last recorded error is SUCCESS at this point, so that
    only the first branch can follow; it is false here.  With assertions
    enabled the call aborts on it; with assertions disabled the
    else-branch runs and [memcached_vdo] returns the recorded errno
    failure: no WRITE_FAILURE is recorded or returned. *)
Theorem vdo_else_branch_reached_without_assertions :
  (exists m' r',
     memcached_vdo broken_pipe_world true 10 get_vector true
       (mkMachine fresh_conn no_calls)
     = Done (MEMCACHED_ERRNO, m')
     /\ root (inst m') = Some r'
     /\ memcached_last_error r' = MEMCACHED_ERRNO
     /\ error_messages (inst m') = [(MEMCACHED_ERRNO, EPIPE)]
     /\ memc_error_messages r' = [(MEMCACHED_ERRNO, EPIPE)])
  /\ memcached_vdo broken_pipe_world false 10 get_vector true
       (mkMachine fresh_conn no_calls)
     = Fault (AssertionFailed 115).
Proof.
  split.
  - eexists. eexists. split; [vm_compute; reflexivity|].
    split; [reflexivity|]. repeat split.
  - vm_compute. reflexivity.
Qed.

(** The two branches after a failed send, for every run: in
    [memcached_vdo] on the TCP path, whenever [memcached_io_writev]
    reports failure:
    - when the last recorded error equals SUCCESS, the branch taken contains
      the assertion (line 118) that this same error differs from SUCCESS,
      which fails on every such execution; with assertions disabled the
      call records and returns WRITE_FAILURE;
    - when the last recorded error differs from SUCCESS, the assertion
      before the test (line 115) fails; with assertions disabled the
      else-branch runs and the call returns the recorded error. *)
Theorem vdo_failed_send_branches (w : world) (nd : bool) (fuel : nat)
        (vector : list libmemcached_io_vector_st) (wf : bool)
        (m m0 m1 : machine) (rc0 : memcached_return_t) (r r1 : Memcached) :
  memcached_connect w m = Done (rc0, m0) ->
  memcached_failed rc0 = false ->
  root (inst m0) = Some r ->
  memcached_is_udp r = false ->
  memcached_io_writev w nd fuel vector wf m0 = Done (false, m1) ->
  root (inst m1) = Some r1 ->
  (memcached_last_error r1 = MEMCACHED_SUCCESS ->
     (nd = false ->
        memcached_vdo w nd fuel vector wf m = Fault (AssertionFailed 118))
     /\ (nd = true ->
           exists m',
             memcached_vdo w nd fuel vector wf m = Done (MEMCACHED_WRITE_FAILURE, m')
             /\ error_messages (inst m')
                = (MEMCACHED_WRITE_FAILURE, 0) :: error_messages (inst m1)))
  /\ (memcached_last_error r1 <> MEMCACHED_SUCCESS ->
        (nd = false ->
           memcached_vdo w nd fuel vector wf m = Fault (AssertionFailed 115))
        /\ (nd = true ->
              memcached_vdo w nd fuel vector wf m
              = Done (memcached_last_error r1, m1))).
Proof.
  intros Hc Hok Hr Hudp Hw Hr1.
  assert (Head : memcached_vdo w nd fuel vector wf m
          = (assert_ nd 115 (return_eqb (memcached_last_error r1) MEMCACHED_SUCCESS) ;;
             if return_eqb (memcached_last_error r1) MEMCACHED_SUCCESS then
               assert_ nd 118
                 (negb (return_eqb (memcached_last_error r1) MEMCACHED_SUCCESS)) ;;
               memcached_set_error MEMCACHED_WRITE_FAILURE
             else ret (memcached_last_error r1)) m1).
  { unfold memcached_vdo. unfold bind at 1. rewrite Hc, Hok.
    unfold bind at 1. unfold get_root at 1. rewrite Hr, Hudp.
    unfold bind at 1. rewrite Hw.
    unfold bind at 1. unfold get_root at 1. rewrite Hr1. reflexivity. }
  rewrite Head. clear Head. split.
  - intros Hl. rewrite Hl. cbn [return_eqb negb]. split.
    + intros ->. reflexivity.
    + intros ->. unfold assert_; cbn [orb]. unfold memcached_set_error; unfold_monad.
      eexists. split; [reflexivity|]. cbn [inst].
      apply error_messages_set_error_messages.
  - intros Hl.
    assert (E : return_eqb (memcached_last_error r1) MEMCACHED_SUCCESS = false).
    { destruct (return_eqb (memcached_last_error r1) MEMCACHED_SUCCESS) eqn:E; auto.
      apply return_eqb_eq in E. contradiction. }
    rewrite E. split.
    + intros ->. reflexivity.
    + intros ->. reflexivity.
Qed.

Lemma vdo_failed_send_branches_witness :
  exists m1 r1,
    memcached_vdo broken_pipe_world true 10 get_vector true
      (mkMachine fresh_conn no_calls)
    = Done (memcached_last_error r1, m1)
    /\ memcached_vdo broken_pipe_world false 10 get_vector true
         (mkMachine fresh_conn no_calls)
       = Fault (AssertionFailed 115)
    /\ root (inst m1) = Some r1
    /\ memcached_last_error r1 <> MEMCACHED_SUCCESS.
Proof.
  eexists. eexists. split; [|split].
  - refine (proj2 (proj2 (vdo_failed_send_branches broken_pipe_world true 10 get_vector
                            true (mkMachine fresh_conn no_calls)
                            (mkMachine fresh_conn (bump_connect no_calls)) _
                            MEMCACHED_SUCCESS tcp_root _ _ _ _ _ _ _) _) eq_refl).
    + reflexivity.
    + reflexivity.
    + reflexivity.
    + reflexivity.
    + vm_compute. reflexivity.
    + reflexivity.
    + vm_compute. discriminate.
  - refine (proj1 (proj2 (vdo_failed_send_branches broken_pipe_world false 10 get_vector
                            true (mkMachine fresh_conn no_calls)
                            (mkMachine fresh_conn (bump_connect no_calls)) _
                            MEMCACHED_SUCCESS tcp_root _ _ _ _ _ _ _) _) eq_refl).
    + reflexivity.
    + reflexivity.
    + reflexivity.
    + reflexivity.
    + vm_compute. reflexivity.
    + reflexivity.
    + vm_compute. discriminate.
  - split; [reflexivity | vm_compute; discriminate].
Defined.

(** ** Readable-connection selector *)

(** C7, counterexample: a connection with unread buffered bytes is not
    always returned without a poll.  The scan stops once it has collected
    [MAX_SERVERS_TO_POLL] = 100 descriptors; with 100 connections that only
    have a pending response ahead of the buffered one, the buffered
    connection (index 100) is never looked at, a poll is issued, and on its
    time-out the selector returns [NULL]. *)
Lemma selector_polls_past_the_cap :
  buffered (nth 100 (repeat pending_conn 100 ++ [buffered_conn]) fresh_conn) = true
  /\ memcached_io_get_readable_server PollManyNone tcp_root
       (repeat pending_conn 100 ++ [buffered_conn])
     = (None, tcp_root, 1%nat).
Proof. split; vm_compute; reflexivity. Qed.

Lemma collect_pollable_first_buffered :
  forall pre instance post x fds,
    Forall (fun i => buffered i = false) pre ->
    buffered instance = true ->
    (List.length fds + List.length (filter pending pre) < 100)%nat ->
    collect_pollable (pre ++ instance :: post) x fds = inl (x + List.length pre)%nat.
Proof.
  induction pre as [|p pre IH]; intros instance post x fds Hpre Hb Hcap.
  - cbn [app collect_pollable]. cbn [filter List.length] in Hcap.
    replace (Z.of_nat (List.length fds) <? MAX_SERVERS_TO_POLL) with true
      by (symmetry; apply Z.ltb_lt; unfold MAX_SERVERS_TO_POLL; lia).
    unfold buffered in Hb. rewrite Hb. f_equal. cbn [List.length]. lia.
  - inversion Hpre as [|? ? Hp Hrest]; subst.
    cbn [app collect_pollable]. cbn [filter] in Hcap.
    replace (Z.of_nat (List.length fds) <? MAX_SERVERS_TO_POLL) with true
      by (symmetry; apply Z.ltb_lt; unfold MAX_SERVERS_TO_POLL;
          destruct (pending p); cbn [List.length] in Hcap; lia).
    unfold buffered in Hp. rewrite Hp.
    fold (pending p). destruct (pending p) eqn:Pp.
    + rewrite (IH instance post (S x) (fds ++ [fd p]) Hrest Hb).
      * f_equal. cbn [List.length]. lia.
      * rewrite length_app. cbn [List.length] in *. lia.
    + rewrite (IH instance post (S x) fds Hrest Hb Hcap).
      f_equal. cbn [List.length]. lia.
Qed.

(** C7, as amended: for every server set in which the first connection
    holding unread buffered bytes is preceded by fewer than 100 connections
    with a non-zero pending-response count, the selector returns that
    connection at once and issues no poll, whatever the pending-response
    counts of the other connections are. *)
Theorem selector_prefers_buffered (answer : poll_many_result) (memc : Memcached)
        (pre post : list memcached_instance_st) (instance : memcached_instance_st) :
  Forall (fun i => buffered i = false) pre ->
  buffered instance = true ->
  (List.length (filter pending pre) < 100)%nat ->
  memcached_io_get_readable_server answer memc (pre ++ instance :: post)
  = (Some (List.length pre), memc, 0%nat).
Proof.
  intros Hpre Hb Hcap. unfold memcached_io_get_readable_server.
  rewrite (collect_pollable_first_buffered pre instance post 0 [] Hpre Hb).
  - reflexivity.
  - cbn [List.length]. lia.
Qed.

Lemma selector_prefers_buffered_witness :
  memcached_io_get_readable_server (PollManyActive [POLLIN; POLLIN]) tcp_root
    ([pending_conn; fresh_conn; pending_conn] ++ buffered_conn :: [pending_conn])
  = (Some 3%nat, tcp_root, 0%nat).
Proof.
  apply (selector_prefers_buffered (PollManyActive [POLLIN; POLLIN]) tcp_root
           [pending_conn; fresh_conn; pending_conn] [pending_conn] buffered_conn).
  - repeat constructor.
  - reflexivity.
  - vm_compute. lia.
Defined.

(** ** Refill *)




(** The tallies a refill leaves are the length of the string that starts
    the read buffer, not the received count: a refill that receives 3
    bytes starting with a zero byte leaves both lengths at 0. *)
Lemma io_fill_tallies_are_string_lengths :
  exists m',
    _io_fill nul_first_world true 5 (mkMachine drained_conn no_calls)
    = Done (MEMCACHED_SUCCESS, m')
    /\ read_data_length (inst m') = 0
    /\ read_buffer_length (inst m') = 0
    /\ io_wait_count_bytes_read (inst m') = 4096 + 3.
Proof.
  eexists; (split; [vm_compute; reflexivity|]); repeat split.
Qed.




(** ** Line read *)






(** A read that stays inside the read buffer passes the bounds check. *)
Lemma check_read_ok (n : Z) (i : memcached_instance_st) (c : calls) :
  0 <= read_ptr i -> 0 <= n -> read_ptr i + n <= MEMCACHED_MAX_BUFFER ->
  check_read n (mkMachine i c) = Done (tt, mkMachine i c).
Proof.
  intros H1 H2 H3. unfold check_read, read_in_bounds.
  unfold bind, get_inst. cbn [inst].
  replace (0 <=? read_ptr i) with true by (symmetry; apply Z.leb_le; exact H1).
  replace (0 <=? n) with true by (symmetry; apply Z.leb_le; exact H2).
  replace (read_ptr i + n <=? MEMCACHED_MAX_BUFFER) with true
    by (symmetry; apply Z.leb_le; exact H3).
  reflexivity.
Qed.

Lemma check_read_Done (n : Z) (m : machine) (r : unit * machine) :
  check_read n m = Done r ->
  r = (tt, m) /\ 0 <= read_ptr (inst m) /\ 0 <= n
  /\ read_ptr (inst m) + n <= MEMCACHED_MAX_BUFFER.
Proof.
  unfold check_read, read_in_bounds. unfold bind, get_inst.
  destruct (0 <=? read_ptr (inst m)) eqn:E1; cbn [andb]; [|discriminate].
  destruct (0 <=? n) eqn:E2; cbn [andb]; [|discriminate].
  destruct (read_ptr (inst m) + n <=? MEMCACHED_MAX_BUFFER) eqn:E3; [|discriminate].
  unfold ret. intros H. injection H as <-.
  apply Z.leb_le in E1, E2, E3. auto.
Qed.




(** * Further properties of the transport core *)

(** ** Poll Gate: every path of [io_wait] *)

Lemma wait_counts_set_error (l : list error_t) (e : error_t) i :
  io_wait_count_read (set_error_messages l (record_on_root e i)) = io_wait_count_read i
  /\ io_wait_count_write (set_error_messages l (record_on_root e i))
     = io_wait_count_write i.
Proof.
  unfold record_on_root.
  destruct i as [? ? ? ? ? ? ? ? ? ? ? ? ? ? ? ? ? ? [r|] ?]; split; reflexivity.
Qed.

Lemma wait_counts_closed_conn i :
  io_wait_count_read (closed_conn i) = io_wait_count_read i
  /\ io_wait_count_write (closed_conn i) = io_wait_count_write i.
Proof.
  unfold closed_conn. destruct (negb (fd i =? INVALID_SOCKET)); destruct i;
    split; reflexivity.
Qed.

Lemma n_poll_after_close i c :
  n_poll (closed_calls i c) = n_poll c.
Proof. apply n_poll_closed_calls. Qed.

Lemma set_error_run (rc : memcached_return_t) (m : machine) :
  memcached_set_error rc m
  = Done (rc, mkMachine (set_error_messages ((rc, 0) :: error_messages (inst m))
                           (record_on_root (rc, 0) (inst m))) (sys m)).
Proof. reflexivity. Qed.

Lemma set_errno_run (e : Z) (m : machine) :
  memcached_set_errno e m
  = Done (MEMCACHED_ERRNO,
          mkMachine (set_error_messages ((MEMCACHED_ERRNO, e) :: error_messages (inst m))
                       (record_on_root (MEMCACHED_ERRNO, e) (inst m))) (sys m)).
Proof. reflexivity. Qed.

Ltac wait_counts :=
  repeat rewrite (proj1 (wait_counts_set_error _ _ _));
  repeat rewrite (proj2 (wait_counts_set_error _ _ _));
  repeat rewrite (proj1 (wait_counts_closed_conn _));
  repeat rewrite (proj2 (wait_counts_closed_conn _)).

Lemma io_wait_body_post (w : world) (i : memcached_instance_st) (c : calls) :
  exists f m',
    io_wait_body w (mkMachine i c) = Done (f, m')
    /\ io_wait_turn_post w i c f m'.
Proof.
  unfold io_wait_body, io_wait_turn_post.
  unfold bind at 1. unfold sys_poll; unfold_monad. cbn [sys inst].
  destruct (w_poll w (n_poll c)) as [e| |revents] eqn:Ans.
  - (* poll failed *)
    destruct (is_EINTR_or_ERESTART e).
    + eexists _, _. split; [reflexivity|]. cbn [sys inst].
      rewrite n_poll_bump_poll. auto.
    + unfold memcached_set_error, memcached_set_errno; unfold_monad. cbn [sys inst].
      destruct ((e =? EFAULT) || (e =? ENOMEM)); cbn [orb];
        [|destruct (e =? EINVAL)];
        (eexists _, _; split; [reflexivity|]; cbn [sys inst];
         rewrite n_poll_bump_poll; wait_counts;
         unfold memcached_has_error, memcached_instance_error_return;
         rewrite error_messages_set_error_messages; auto).
  - (* timed out *)
    rewrite set_error_run. cbn [sys inst].
    eexists _, _. split; [reflexivity|]. cbn [sys inst].
    rewrite n_poll_bump_poll. wait_counts.
    repeat split; discriminate.
  - destruct (has_bit revents POLLIN || has_bit revents POLLOUT) eqn:Ready.
    + eexists _, _. split; [reflexivity|]. cbn [sys inst].
      rewrite n_poll_bump_poll. repeat split. eauto.
    + destruct (has_bit revents POLLHUP).
      * rewrite set_error_run. cbn [sys inst].
        eexists _, _. split; [reflexivity|]. cbn [sys inst].
        rewrite n_poll_bump_poll. wait_counts. repeat split; discriminate.
      * destruct (has_bit revents POLLERR).
        -- cbn [sys inst].
           destruct (w_getsockopt w (n_getsockopt (bump_poll c))) as [[|p|p]|] eqn:Err;
             try (eexists _, _; split; [reflexivity|]; cbn [sys inst];
                  rewrite n_poll_bump_getsockopt, n_poll_bump_poll; auto; fail);
             unfold memcached_quit_server;
             rewrite close_socket_eq; cbn [sys inst];
             rewrite set_errno_run; cbn [sys inst];
             (eexists _, _; split; [reflexivity|]; cbn [sys inst];
              rewrite n_poll_closed_calls, n_poll_bump_getsockopt, n_poll_bump_poll;
              wait_counts; repeat split; discriminate).
        -- rewrite set_error_run. cbn [sys inst].
           eexists _, _. split; [reflexivity|]. cbn [sys inst].
           rewrite n_poll_bump_poll. wait_counts. repeat split; discriminate.
Qed.

Lemma io_wait_loop_total (w : world) :
  forall loop_max i c,
  exists r m',
    io_wait_loop w loop_max (mkMachine i c) = Done (r, m')
    /\ io_wait_loop_post w loop_max i c r m'.
Proof.
  induction loop_max as [|n IH]; intros i c.
  - exists None, (mkMachine i c). split; [reflexivity|].
    unfold io_wait_loop_post. cbn [sys inst]. repeat split; auto; lia.
  - destruct n as [|n].
    + exists None, (mkMachine i c). split; [reflexivity|].
      unfold io_wait_loop_post. cbn [sys inst]. repeat split; auto; lia.
    + rewrite io_wait_loop_SS. unfold bind at 1.
      destruct (io_wait_body_post w i c) as (f & m1 & Run & Cnt & Hr & Hw & Hf).
      rewrite Run. destruct f as [rc| |].
      * exists (Some rc), m1. split; [reflexivity|].
        unfold io_wait_loop_post. split; [cbn; lia|]. split; [exact Hr|].
        split; [exact Hw|]. intros Hrc. destruct (Hf Hrc) as (Hi & rev & Hp & Hb).
        split; [exact Hi|]. exists rev. rewrite Cnt. cbn [Nat.pred]. auto.
      * destruct m1 as [i1 c1]. cbn [inst sys] in *. subst i1.
        destruct (IH i c1) as (r & m' & Run' & Cnt' & Hr' & Hw' & Hpost).
        exists r, m'. split; [exact Run'|].
        unfold io_wait_loop_post. cbn [Nat.pred] in *.
        split; [lia|]. split; [exact Hr'|]. split; [exact Hw'|]. exact Hpost.
      * exists None, m1. split; [reflexivity|].
        unfold io_wait_loop_post. split; [cbn; lia|]. split; [exact Hr|].
        split; [exact Hw|]. left. exact Hf.
Qed.

Lemma io_wait_after_purge (w : world) (events : Z) (m m1 : machine) (r : Memcached) :
  (if has_bit events POLLOUT then memcached_purge w else ret true) m = Done (true, m1) ->
  root (inst m1) = Some r ->
  poll_timeout r = 0 ->
  io_wait w events m
  = memcached_set_error MEMCACHED_TIMEOUT
      (mkMachine (count_wait events (inst m1)) (sys m1)).
Proof.
  intros Hp Hr Ht. unfold io_wait. unfold bind at 1. rewrite Hp. cbn [negb].
  unfold bind at 1.
  assert (Hc : (if has_bit events POLLOUT
                then modify (fun i => set_io_wait_count_write
                                        (wrap32 (io_wait_count_write i + 1)) i)
                else modify (fun i => set_io_wait_count_read
                                        (wrap32 (io_wait_count_read i + 1)) i)) m1
               = Done (tt, mkMachine (count_wait events (inst m1)) (sys m1))).
  { unfold count_wait. destruct (has_bit events POLLOUT); reflexivity. }
  rewrite Hc. unfold bind at 1. unfold get_root. cbn [inst].
  rewrite root_count_wait, Hr, Ht. reflexivity.
Qed.

(** X1: once the purge has passed, [io_wait] always returns, whatever the
    socket answers: it polls at most four times and it has added exactly
    one to the wait counter of the requested interest (the write counter
    for write interest, the read counter otherwise), leaving the other
    counter alone. *)
Theorem io_wait_returns_and_counts_once (w : world) (events : Z) (m m1 : machine)
        (r : Memcached) :
  (if has_bit events POLLOUT then memcached_purge w else ret true) m = Done (true, m1) ->
  root (inst m1) = Some r ->
  exists rc m',
    io_wait w events m = Done (rc, m')
    /\ (n_poll (sys m') <= n_poll (sys m1) + 4)%nat
    /\ io_wait_count_read (inst m')
       = (if has_bit events POLLOUT then io_wait_count_read (inst m1)
          else wrap32 (io_wait_count_read (inst m1) + 1))
    /\ io_wait_count_write (inst m')
       = (if has_bit events POLLOUT then wrap32 (io_wait_count_write (inst m1) + 1)
          else io_wait_count_write (inst m1)).
Proof.
  intros Hp Hr.
  assert (Hcr : io_wait_count_read (count_wait events (inst m1))
                = (if has_bit events POLLOUT then io_wait_count_read (inst m1)
                   else wrap32 (io_wait_count_read (inst m1) + 1))).
  { unfold count_wait. destruct (has_bit events POLLOUT); destruct (inst m1); reflexivity. }
  assert (Hcw : io_wait_count_write (count_wait events (inst m1))
                = (if has_bit events POLLOUT then wrap32 (io_wait_count_write (inst m1) + 1)
                   else io_wait_count_write (inst m1))).
  { unfold count_wait. destruct (has_bit events POLLOUT); destruct (inst m1); reflexivity. }
  rewrite <- Hcr, <- Hcw.
  destruct (Z.eq_dec (poll_timeout r) 0) as [Hz|Hnz].
  - rewrite (io_wait_after_purge w events m m1 r Hp Hr Hz), set_error_run.
    eexists _, _. split; [reflexivity|]. cbn [sys inst]. wait_counts.
    repeat split. lia.
  - rewrite (io_wait_enters_loop w events m m1 r Hp Hr Hnz).
    unfold bind at 1.
    destruct (io_wait_loop_total w 5 (count_wait events (inst m1)) (sys m1))
      as (looped & m2 & Run & Cnt & Hread & Hwrite & _).
    rewrite Run. cbn [Nat.pred] in Cnt.
    destruct looped as [rc|].
    + exists rc, m2. split; [reflexivity|]. auto.
    + unfold memcached_quit_server. unfold bind at 1. rewrite close_socket_eq.
      unfold bind at 1. unfold get_inst. cbn [inst sys].
      destruct (memcached_has_error (closed_conn (inst m2))).
      * eexists _, _. split; [reflexivity|]. cbn [sys inst].
        rewrite n_poll_closed_calls. wait_counts. auto.
      * rewrite set_error_run. eexists _, _. split; [reflexivity|]. cbn [sys inst].
        rewrite n_poll_closed_calls. wait_counts. auto.
Qed.

Lemma io_wait_returns_and_counts_once_witness :
  exists rc m',
    io_wait four_signals_world POLLIN (mkMachine fresh_conn no_calls) = Done (rc, m')
    /\ (n_poll (sys m') <= 0 + 4)%nat
    /\ io_wait_count_read (inst m') = wrap32 (0 + 1)
    /\ io_wait_count_write (inst m') = 0.
Proof.
  apply (io_wait_returns_and_counts_once four_signals_world POLLIN
           (mkMachine fresh_conn no_calls) (mkMachine fresh_conn no_calls) tcp_root).
  - reflexivity.
  - reflexivity.
Defined.

(** After [k < 4] transient answers, a turn of the loop that returns makes
    [io_wait] return the same code in the same state. *)
Lemma io_wait_returns_from_turn (w : world) (events : Z) (m m1 m2 : machine)
      (r : Memcached) (k : nat) (c' : calls) (rc : memcached_return_t) :
  (if has_bit events POLLOUT then memcached_purge w else ret true) m = Done (true, m1) ->
  root (inst m1) = Some r ->
  poll_timeout r <> 0 ->
  transient_polls w k (sys m1) = Some c' ->
  (k < 4)%nat ->
  io_wait_body w (mkMachine (count_wait events (inst m1)) c') = Done (Return rc, m2) ->
  io_wait w events m = Done (rc, m2).
Proof.
  intros Hp Hr Ht Htr Hk Hbody.
  rewrite (io_wait_enters_loop w events m m1 r Hp Hr Ht).
  unfold bind at 1.
  replace 5%nat with (k + S (S (3 - k)))%nat by lia.
  rewrite (io_wait_loop_transient w _ k (S (3 - k)) (sys m1) c' Htr).
  rewrite io_wait_loop_SS. unfold bind at 1. rewrite Hbody. reflexivity.
Qed.

Lemma fd_state_after_error (e : error_t) (l : list error_t) i :
  fd (set_error_messages l (record_on_root e i)) = fd i
  /\ state (set_error_messages l (record_on_root e i)) = state i
  /\ read_buffer_length (set_error_messages l (record_on_root e i))
     = read_buffer_length i
  /\ write_buffer_offset (set_error_messages l (record_on_root e i))
     = write_buffer_offset i.
Proof.
  unfold record_on_root.
  destruct i as [? ? ? ? ? ? ? ? ? ? ? ? ? ? ? ? ? ? [r|] ?]; repeat split.
Qed.

Lemma fd_state_count_wait events i :
  fd (count_wait events i) = fd i
  /\ state (count_wait events i) = state i
  /\ read_buffer_length (count_wait events i) = read_buffer_length i
  /\ write_buffer_offset (count_wait events i) = write_buffer_offset i.
Proof.
  unfold count_wait. destruct (has_bit events POLLOUT); destruct i; repeat split.
Qed.

(** X2: with a configured time-out of zero [io_wait] returns TIMEOUT at
    once: it records the time-out on the connection, makes no system call
    at all, and leaves the descriptor, the lifecycle state and both buffer
    tallies as they were (the connection is not closed). *)
Theorem io_wait_zero_timeout (w : world) (events : Z) (m m1 : machine) (r : Memcached) :
  (if has_bit events POLLOUT then memcached_purge w else ret true) m = Done (true, m1) ->
  root (inst m1) = Some r ->
  poll_timeout r = 0 ->
  exists m',
    io_wait w events m = Done (MEMCACHED_TIMEOUT, m')
    /\ sys m' = sys m1
    /\ error_messages (inst m') = (MEMCACHED_TIMEOUT, 0) :: error_messages (inst m1)
    /\ fd (inst m') = fd (inst m1)
    /\ state (inst m') = state (inst m1)
    /\ read_buffer_length (inst m') = read_buffer_length (inst m1)
    /\ write_buffer_offset (inst m') = write_buffer_offset (inst m1).
Proof.
  intros Hp Hr Hz.
  rewrite (io_wait_after_purge w events m m1 r Hp Hr Hz), set_error_run.
  eexists. split; [reflexivity|]. cbn [sys inst].
  destruct (fd_state_after_error (MEMCACHED_TIMEOUT, 0)
              ((MEMCACHED_TIMEOUT, 0) :: error_messages (count_wait events (inst m1)))
              (count_wait events (inst m1))) as (H1 & H2 & H3 & H4).
  destruct (fd_state_count_wait events (inst m1)) as (G1 & G2 & G3 & G4).
  rewrite H1, H2, H3, H4, G1, G2, G3, G4.
  rewrite error_messages_set_error_messages, error_messages_count_wait.
  repeat split.
Qed.

Lemma io_wait_zero_timeout_witness :
  exists m',
    io_wait quiet_world POLLIN (mkMachine zero_timeout_conn no_calls)
    = Done (MEMCACHED_TIMEOUT, m')
    /\ sys m' = no_calls
    /\ error_messages (inst m') = [(MEMCACHED_TIMEOUT, 0)]
    /\ fd (inst m') = 7
    /\ state (inst m') = MEMCACHED_SERVER_STATE_CONNECTED
    /\ read_buffer_length (inst m') = 0
    /\ write_buffer_offset (inst m') = 0.
Proof.
  apply (io_wait_zero_timeout quiet_world POLLIN
           (mkMachine zero_timeout_conn no_calls) (mkMachine zero_timeout_conn no_calls)
           (mkMemcached 0 false true None [])).
  - reflexivity.
  - reflexivity.
  - reflexivity.
Defined.

Lemma has_error_closed_conn i :
  memcached_has_error (closed_conn i) = memcached_has_error i
  /\ memcached_instance_error_return (closed_conn i) = memcached_instance_error_return i.
Proof.
  unfold memcached_has_error, memcached_instance_error_return.
  rewrite error_messages_closed_conn. auto.
Qed.

Lemma has_error_count_wait events i :
  memcached_has_error (count_wait events i) = memcached_has_error i
  /\ memcached_instance_error_return (count_wait events i)
     = memcached_instance_error_return i.
Proof.
  unfold memcached_has_error, memcached_instance_error_return.
  rewrite error_messages_count_wait. auto.
Qed.

(** X3: a wait that returns SUCCESS has seen the descriptor ready and has
    not touched the connection.  Provided the last error recorded on the
    connection, if any, is not itself coded SUCCESS: when [io_wait] returns
    SUCCESS, its last poll reported the descriptor readable or writable,
    and the connection is the one the purge left, with only the wait
    counter moved (it was not closed and no error was recorded). *)
Theorem io_wait_success_means_ready (w : world) (events : Z) (m m1 m' : machine)
        (r : Memcached) :
  (if has_bit events POLLOUT then memcached_purge w else ret true) m = Done (true, m1) ->
  root (inst m1) = Some r ->
  poll_timeout r <> 0 ->
  (memcached_has_error (inst m1) = true ->
   memcached_instance_error_return (inst m1) <> MEMCACHED_SUCCESS) ->
  io_wait w events m = Done (MEMCACHED_SUCCESS, m') ->
  inst m' = count_wait events (inst m1)
  /\ exists revents,
       w_poll w (Nat.pred (n_poll (sys m'))) = PollActive revents
       /\ has_bit revents POLLIN || has_bit revents POLLOUT = true.
Proof.
  intros Hp Hr Ht Hclean H.
  rewrite (io_wait_enters_loop w events m m1 r Hp Hr Ht) in H.
  unfold bind at 1 in H.
  destruct (io_wait_loop_total w 5 (count_wait events (inst m1)) (sys m1))
    as (looped & m2 & Run & _ & _ & _ & Hpost).
  rewrite Run in H. destruct looped as [rc|].
  - unfold ret in H. inversion H; subst. apply Hpost. reflexivity.
  - exfalso. unfold memcached_quit_server in H. unfold bind at 1 in H.
    rewrite close_socket_eq in H. unfold bind at 1 in H. unfold get_inst in H.
    cbn [inst sys] in H.
    destruct (has_error_closed_conn (inst m2)) as (He & Hret).
    rewrite He, Hret in H.
    destruct Hpost as [(Herr & Hcode)|Hsame].
    + rewrite Herr, Hcode in H. unfold ret in H. inversion H.
    + rewrite Hsame in H.
      destruct (has_error_count_wait events (inst m1)) as (He' & Hret').
      rewrite He', Hret' in H.
      destruct (memcached_has_error (inst m1)) eqn:E.
      * unfold ret in H. inversion H as [Hrc]. apply (Hclean eq_refl). exact Hrc.
      * rewrite set_error_run in H. inversion H.
Qed.

Lemma io_wait_success_means_ready_witness :
  inst (mkMachine (count_wait POLLOUT fresh_conn) (mkCalls 0 0 2 1 0 0 0 1 0 0 0 0))
  = count_wait POLLOUT fresh_conn
  /\ exists revents,
       w_poll spurious_then_ready_world
         (Nat.pred (n_poll (sys (mkMachine (count_wait POLLOUT fresh_conn)
                                           (mkCalls 0 0 2 1 0 0 0 1 0 0 0 0)))))
       = PollActive revents
       /\ has_bit revents POLLIN || has_bit revents POLLOUT = true.
Proof.
  apply (io_wait_success_means_ready spurious_then_ready_world POLLOUT
           (mkMachine fresh_conn no_calls)
           (mkMachine fresh_conn (bump_purge no_calls))
           (mkMachine (count_wait POLLOUT fresh_conn) (mkCalls 0 0 2 1 0 0 0 1 0 0 0 0))
           tcp_root).
  - reflexivity.
  - reflexivity.
  - simpl. lia.
  - intros H. discriminate H.
  - vm_compute. reflexivity.
Defined.

Lemma recorded_not_closed_after_error rc events i1 :
  recorded_not_closed rc i1
    (set_error_messages ((rc, 0) :: error_messages (count_wait events i1))
       (record_on_root (rc, 0) (count_wait events i1))).
Proof.
  unfold recorded_not_closed.
  destruct (fd_state_after_error (rc, 0)
              ((rc, 0) :: error_messages (count_wait events i1))
              (count_wait events i1)) as (H1 & H2 & H3 & H4).
  destruct (fd_state_count_wait events i1) as (G1 & G2 & G3 & G4).
  rewrite H1, H2, H3, H4, G1, G2, G3, G4.
  rewrite error_messages_set_error_messages, error_messages_count_wait.
  repeat split.
Qed.

(** X4: a poll that times out, and a poll that reports a hang-up, end the
    wait without closing the connection.  After fewer than four transient
    answers, a poll answering 0 makes [io_wait] return TIMEOUT, and a poll
    reporting POLLHUP (and neither POLLIN nor POLLOUT) makes it return
    CONNECTION_FAILURE; in both cases the code is recorded on the
    connection and the descriptor, the lifecycle state and the buffer
    tallies stay as they were. *)
Theorem io_wait_timeout_and_hangup_keep_descriptor (w : world) (events : Z)
        (m m1 : machine) (r : Memcached) (k : nat) (c' : calls) :
  (if has_bit events POLLOUT then memcached_purge w else ret true) m = Done (true, m1) ->
  root (inst m1) = Some r ->
  poll_timeout r <> 0 ->
  transient_polls w k (sys m1) = Some c' ->
  (k < 4)%nat ->
  (w_poll w (n_poll c') = PollNone ->
   exists m',
     io_wait w events m = Done (MEMCACHED_TIMEOUT, m')
     /\ recorded_not_closed MEMCACHED_TIMEOUT (inst m1) (inst m'))
  /\ (forall revents,
        w_poll w (n_poll c') = PollActive revents ->
        has_bit revents POLLIN || has_bit revents POLLOUT = false ->
        has_bit revents POLLHUP = true ->
        exists m',
          io_wait w events m = Done (MEMCACHED_CONNECTION_FAILURE, m')
          /\ recorded_not_closed MEMCACHED_CONNECTION_FAILURE (inst m1) (inst m')).
Proof.
  intros Hp Hr Ht Htr Hk. split.
  - intros Ans. eexists. split.
    + apply (io_wait_returns_from_turn w events m m1 _ r k c' _ Hp Hr Ht Htr Hk).
      unfold io_wait_body. unfold bind at 1. unfold sys_poll; unfold_monad.
      cbn [sys inst]. rewrite Ans. rewrite set_error_run. reflexivity.
    + cbn [inst]. apply recorded_not_closed_after_error.
  - intros revents Ans Hnot Hhup. eexists. split.
    + apply (io_wait_returns_from_turn w events m m1 _ r k c' _ Hp Hr Ht Htr Hk).
      unfold io_wait_body. unfold bind at 1. unfold sys_poll; unfold_monad.
      cbn [sys inst]. rewrite Ans, Hnot, Hhup. rewrite set_error_run. reflexivity.
    + cbn [inst]. apply recorded_not_closed_after_error.
Qed.

Lemma io_wait_timeout_and_hangup_keep_descriptor_witness :
  exists m',
    io_wait poll_timeout_world POLLIN (mkMachine fresh_conn no_calls)
    = Done (MEMCACHED_TIMEOUT, m')
    /\ recorded_not_closed MEMCACHED_TIMEOUT fresh_conn (inst m').
Proof.
  refine (proj1 (io_wait_timeout_and_hangup_keep_descriptor poll_timeout_world POLLIN
                   (mkMachine fresh_conn no_calls) (mkMachine fresh_conn no_calls)
                   tcp_root 0 no_calls _ _ _ _ _) _).
  - reflexivity.
  - reflexivity.
  - simpl. lia.
  - reflexivity.
  - lia.
  - reflexivity.
Defined.

(** X5: a genuine socket error closes the connection.  After fewer than
    four transient answers, a poll that reports POLLERR alone, followed by
    a socket-error query that yields a non-zero error (or fails, which
    counts as EINVAL), makes [io_wait] close the connection (state NEW,
    descriptor invalid, read buffer emptied) and return the errno failure,
    recorded with that error code. *)
Theorem io_wait_socket_error_closes (w : world) (events : Z)
        (m m1 : machine) (r : Memcached) (k : nat) (c' : calls)
        (revents : Z) (err : option Z) :
  (if has_bit events POLLOUT then memcached_purge w else ret true) m = Done (true, m1) ->
  root (inst m1) = Some r ->
  poll_timeout r <> 0 ->
  transient_polls w k (sys m1) = Some c' ->
  (k < 4)%nat ->
  w_poll w (n_poll c') = PollActive revents ->
  spurious revents = true ->
  w_getsockopt w (n_getsockopt c') = err ->
  err <> Some 0 ->
  exists m',
    io_wait w events m = Done (MEMCACHED_ERRNO, m')
    /\ error_messages (inst m')
       = (MEMCACHED_ERRNO, match err with Some e => e | None => EINVAL end)
         :: error_messages (inst m1)
    /\ fd (inst m') = INVALID_SOCKET
    /\ state (inst m') = MEMCACHED_SERVER_STATE_NEW
    /\ read_buffer_length (inst m') = 0.
Proof.
  intros Hp Hr Ht Htr Hk Ans Hsp Herr Hnz.
  unfold spurious in Hsp.
  apply andb_true_iff in Hsp. destruct Hsp as (Hsp & Hpe).
  apply andb_true_iff in Hsp. destruct Hsp as (Hnr & Hnh).
  apply negb_true_iff in Hnr. apply negb_true_iff in Hnh.
  set (e := match err with Some e => e | None => EINVAL end).
  set (cw := count_wait events (inst m1)).
  assert (Hbody : io_wait_body w (mkMachine cw c')
                  = Done (Return MEMCACHED_ERRNO,
                          mkMachine
                            (set_error_messages
                               ((MEMCACHED_ERRNO, e) :: error_messages (closed_conn cw))
                               (record_on_root (MEMCACHED_ERRNO, e) (closed_conn cw)))
                            (closed_calls cw (bump_getsockopt (bump_poll c'))))).
  { unfold io_wait_body. unfold bind at 1. unfold sys_poll; unfold_monad.
    cbn [sys inst]. rewrite Ans, Hnr, Hnh, Hpe. cbn [sys inst].
    rewrite n_getsockopt_bump_poll, Herr.
    unfold memcached_quit_server. subst e.
    destruct err as [[|p|p]|]; try congruence;
      rewrite close_socket_eq; cbn [sys inst]; rewrite set_errno_run; reflexivity. }
  eexists. split.
  - apply (io_wait_returns_from_turn w events m m1 _ r k c' _ Hp Hr Ht Htr Hk).
    exact Hbody.
  - cbn [inst].
    destruct (fd_state_after_error (MEMCACHED_ERRNO, e)
                ((MEMCACHED_ERRNO, e) :: error_messages (closed_conn cw))
                (closed_conn cw)) as (H1 & H2 & H3 & _).
    rewrite H1, H2, H3, error_messages_set_error_messages,
            error_messages_closed_conn, fd_closed_conn, state_closed_conn.
    subst cw. rewrite error_messages_count_wait.
    repeat split.
    unfold closed_conn.
    destruct (negb (fd (count_wait events (inst m1)) =? INVALID_SOCKET));
      destruct (count_wait events (inst m1)); reflexivity.
Qed.

Lemma io_wait_socket_error_closes_witness :
  exists m',
    io_wait refused_world POLLIN (mkMachine fresh_conn no_calls)
    = Done (MEMCACHED_ERRNO, m')
    /\ error_messages (inst m') = (MEMCACHED_ERRNO, ECONNREFUSED) :: []
    /\ fd (inst m') = INVALID_SOCKET
    /\ state (inst m') = MEMCACHED_SERVER_STATE_NEW
    /\ read_buffer_length (inst m') = 0.
Proof.
  apply (io_wait_socket_error_closes refused_world POLLIN
           (mkMachine fresh_conn no_calls) (mkMachine fresh_conn no_calls)
           tcp_root 0 no_calls POLLERR (Some ECONNREFUSED)).
  - reflexivity.
  - reflexivity.
  - simpl. lia.
  - reflexivity.
  - lia.
  - reflexivity.
  - reflexivity.
  - reflexivity.
  - discriminate.
Defined.

(** ** Flush *)

Lemma closed_then_errno (w : world) (e : Z) (m : machine) :
  exists m',
    bind (memcached_quit_server w)
      (fun _ => bind (memcached_set_errno e) (fun error => ret (false, error))) m
    = Done ((false, MEMCACHED_ERRNO), m')
    /\ fd (inst m') = INVALID_SOCKET
    /\ state (inst m') = MEMCACHED_SERVER_STATE_NEW
    /\ memcached_instance_error_return (inst m') = MEMCACHED_ERRNO.
Proof.
  unfold memcached_quit_server. unfold bind at 1. rewrite close_socket_eq.
  unfold bind at 1. rewrite set_errno_run. unfold ret.
  eexists. split; [reflexivity|]. cbn [inst sys].
  destruct (fd_state_after_error (MEMCACHED_ERRNO, e)
              ((MEMCACHED_ERRNO, e) :: error_messages (closed_conn (inst m)))
              (closed_conn (inst m))) as (H1 & H2 & _).
  rewrite H1, H2, fd_closed_conn, state_closed_conn.
  unfold memcached_instance_error_return.
  rewrite error_messages_set_error_messages. auto.
Qed.

Lemma io_flush_loop_post (w : world) :
  forall fuel write_length m ok error m',
    io_flush_loop w fuel write_length m = Done ((ok, error), m') ->
    flush_post ok error (inst m').
Proof.
  induction fuel as [|fuel IH]; intros wl m ok error m' H.
  - discriminate H.
  - cbn [io_flush_loop] in H.
    destruct (wl =? 0).
    + apply bind_Done in H. destruct H as (? & m1 & Hm & H).
      unfold modify in Hm. inversion Hm; subst.
      unfold ret in H. inversion H; subst.
      unfold flush_post. split; [reflexivity|]. cbn [inst].
      destruct (inst m); reflexivity.
    + apply bind_Done in H. destruct H as (sent & m1 & _ & H).
      destruct sent as [e|n].
      * destruct (e =? ENOBUFS); [eapply IH; exact H|].
        destruct (e =? EAGAIN).
        -- apply bind_Done in H. destruct H as (repacked & m2 & _ & H).
           apply bind_Done in H. destruct H as (progressed & m3 & _ & H).
           destruct progressed; [eapply IH; exact H|].
           apply bind_Done in H. destruct H as (rc & m4 & _ & H).
           destruct (memcached_success rc); [eapply IH; exact H|].
           destruct (return_eqb rc MEMCACHED_TIMEOUT).
           ++ unfold ret in H. inversion H; subst. unfold flush_post. auto.
           ++ destruct (closed_then_errno w e m4) as (mx & Run & Hfd & Hst & Herr).
              rewrite Run in H. inversion H; subst.
              unfold flush_post. right. auto.
        -- destruct (closed_then_errno w e m1) as (mx & Run & Hfd & Hst & Herr).
           rewrite Run in H. inversion H; subst.
           unfold flush_post. right. auto.
      * apply bind_Done in H. destruct H as (? & m2 & _ & H).
        eapply IH. exact H.
Qed.

(** The error a failed flush leaves at SUCCESS says nothing about the
    connection: on a connection whose last recorded error is a stale
    TIMEOUT, a send that would block is followed by a wait for writability
    that is interrupted four times, gives up, closes the connection and
    returns the stale TIMEOUT; the flush then returns [false] with the
    error still SUCCESS and the descriptor invalid. *)
Lemma io_flush_false_with_success_after_close :
  exists m',
    io_flush stale_timeout_world 10 true (mkMachine stale_timeout_conn no_calls)
    = Done ((false, Some MEMCACHED_SUCCESS), m')
    /\ fd (inst m') = INVALID_SOCKET
    /\ state (inst m') = MEMCACHED_SERVER_STATE_NEW.
Proof. eexists. split; [vm_compute; reflexivity|]. split; reflexivity. Qed.

(** X6: what a flush that returns has done.  A flush that returns [true]
    has assigned SUCCESS to the error and left the write buffer empty
    (offset zero).  A flush that returns [false] after the purge has either
    left the error at SUCCESS (nothing follows from that about the
    connection: the wait for writability may have closed it) or assigned
    the errno failure, recorded it as the connection's last error and
    closed the connection (descriptor invalid, state NEW); when the purge
    itself fails, the error is not assigned. *)
Theorem io_flush_postcondition (w : world) (fuel : nat) (with_flush : bool)
        (m m' : machine) (ok : bool) (error : option memcached_return_t) :
  io_flush w fuel with_flush m = Done ((ok, error), m') ->
  match error with
  | Some e => flush_post ok e (inst m')
  | None => ok = false /\ w_purge w (n_purge (sys m)) (inst m) = (false, inst m')
  end.
Proof.
  unfold io_flush. intros H.
  apply bind_Done in H. destruct H as (purged & m1 & Hp & H).
  unfold memcached_purge in Hp.
  cbv beta iota delta [bind ret get_inst put_inst get_sys put_sys] in Hp.
  destruct (w_purge w (n_purge (sys m)) (inst m)) as [okp i1] eqn:Ep.
  inversion Hp; subst. destruct purged; cbn [negb] in H.
  - apply bind_Done in H. destruct H as (i & m2 & _ & H).
    apply bind_Done in H. destruct H as ([ok' e'] & m3 & Hl & H).
    unfold ret in H. inversion H; subst.
    eapply io_flush_loop_post. exact Hl.
  - unfold ret in H. inversion H; subst. cbn [inst]. auto.
Qed.

Lemma io_flush_postcondition_witness :
  flush_post false MEMCACHED_ERRNO
    (set_error_messages [(MEMCACHED_ERRNO, EPIPE)]
       (record_on_root (MEMCACHED_ERRNO, EPIPE)
          (closed_conn (set_write_buffer_offset 3 fresh_conn)))).
Proof.
  apply (io_flush_postcondition broken_pipe_world 5 true
           (mkMachine (set_write_buffer_offset 3 fresh_conn) no_calls)
           (mkMachine
              (set_error_messages [(MEMCACHED_ERRNO, EPIPE)]
                 (record_on_root (MEMCACHED_ERRNO, EPIPE)
                    (closed_conn (set_write_buffer_offset 3 fresh_conn))))
              (mkCalls 1 1 0 0 1 0 0 1 0 0 0 0))
           false (Some MEMCACHED_ERRNO)).
  vm_compute. reflexivity.
Defined.

Lemma n_send_bump_send c : n_send (bump_send c) = S (n_send c).
Proof. destruct c; reflexivity. Qed.

Lemma n_purge_bump_send c : n_purge (bump_send c) = n_purge c.
Proof. destruct c; reflexivity. Qed.

Lemma n_send_bump_purge c : n_send (bump_purge c) = n_send c.
Proof. destruct c; reflexivity. Qed.

Lemma wrap32_add_l a b : wrap32 (wrap32 a + b) = wrap32 (a + b).
Proof. unfold wrap32. apply Z.add_mod_idemp_l. lia. Qed.

(** Draining [write_length] pending bytes through a kernel that takes at
    least one byte per call. *)
Lemma io_flush_loop_drains (w : world) :
  forall fuel write_length i c,
    0 <= write_length < 2 ^ 32 ->
    (Z.to_nat write_length < fuel)%nat ->
    (forall j, (j < Z.to_nat write_length)%nat ->
       exists n, w_send w (n_send c + j) = IoLen n /\ 1 <= n) ->
    exists m',
      io_flush_loop w fuel write_length (mkMachine i c)
      = Done ((true, MEMCACHED_SUCCESS), m')
      /\ write_buffer_offset (inst m') = 0
      /\ wrap32 (io_bytes_sent (inst m')) = wrap32 (io_bytes_sent i + write_length)
      /\ (n_send (sys m') <= n_send c + Z.to_nat write_length)%nat
      /\ n_purge (sys m') = n_purge c
      /\ fd (inst m') = fd i.
Proof.
  induction fuel as [|fuel IH]; intros wl i c Hwl Hfuel Hsend; [lia|].
  cbn [io_flush_loop].
  destruct (wl =? 0) eqn:Ez.
  - apply Z.eqb_eq in Ez. subst wl. unfold_monad. cbn [inst sys].
    eexists. split; [reflexivity|]. cbn [inst sys].
    rewrite Z.add_0_r. destruct i; cbn. repeat split. lia.
  - apply Z.eqb_neq in Ez.
    destruct (Hsend 0%nat ltac:(lia)) as (n & Ans & Hn).
    rewrite Nat.add_0_r in Ans.
    unfold bind at 1. unfold sys_send; unfold_monad. cbn [inst sys].
    rewrite Ans.
    assert (Hk : 1 <= kernel_count n wl <= wl) by (unfold kernel_count; lia).
    assert (Hw32 : wrap32 (kernel_count n wl) = kernel_count n wl)
      by (unfold wrap32; apply Z.mod_small; lia).
    rewrite Hw32.
    assert (Hw64 : wrap64 (wl - kernel_count n wl) = wl - kernel_count n wl)
      by (unfold wrap64; apply Z.mod_small; lia).
    rewrite Hw64.
    destruct (IH (wl - kernel_count n wl)
                 (set_io_bytes_sent (wrap32 (io_bytes_sent i + kernel_count n wl)) i)
                 (bump_send c))
      as (m' & Run & Hoff & Hsent & Hcnt & Hpurge & Hfd).
    + lia.
    + lia.
    + intros j Hj. rewrite n_send_bump_send.
      replace (S (n_send c) + j)%nat with (n_send c + S j)%nat by lia.
      apply Hsend. lia.
    + exists m'. split; [exact Run|]. split; [exact Hoff|].
      rewrite n_send_bump_send in Hcnt. rewrite n_purge_bump_send in Hpurge.
      split; [|split; [lia|split; [exact Hpurge|]]].
      * rewrite Hsent.
        replace (io_bytes_sent (set_io_bytes_sent
                   (wrap32 (io_bytes_sent i + kernel_count n wl)) i))
          with (wrap32 (io_bytes_sent i + kernel_count n wl))
          by (destruct i; reflexivity).
        rewrite wrap32_add_l. f_equal. lia.
      * rewrite Hfd. destruct i; reflexivity.
Qed.

Lemma io_flush_drains_eq (w : world) (fuel : nat) (with_flush : bool)
        (m : machine) (i1 : memcached_instance_st) :
  w_purge w (n_purge (sys m)) (inst m) = (true, i1) ->
  0 <= write_buffer_offset i1 < 2 ^ 32 ->
  (Z.to_nat (write_buffer_offset i1) < fuel)%nat ->
  (forall j, (j < Z.to_nat (write_buffer_offset i1))%nat ->
     exists n, w_send w (n_send (sys m) + j) = IoLen n /\ 1 <= n) ->
  exists m',
    io_flush w fuel with_flush m = Done ((true, Some MEMCACHED_SUCCESS), m')
    /\ write_buffer_offset (inst m') = 0
    /\ wrap32 (io_bytes_sent (inst m'))
       = wrap32 (io_bytes_sent i1 + write_buffer_offset i1)
    /\ (n_send (sys m') <= n_send (sys m) + Z.to_nat (write_buffer_offset i1))%nat
    /\ fd (inst m') = fd i1.
Proof.
  intros Hp Hwl Hfuel Hsend.
  destruct (io_flush_loop_drains w fuel (write_buffer_offset i1) i1 (bump_purge (sys m))
              Hwl Hfuel) as (m' & Run & Hoff & Hsent & Hcnt & _ & Hfd).
  { intros j Hj. rewrite n_send_bump_purge. apply Hsend. exact Hj. }
  exists m'. rewrite n_send_bump_purge in Hcnt.
  split; [|auto].
  unfold io_flush, memcached_purge. unfold_monad. rewrite Hp.
  cbn [negb inst sys]. rewrite Run. reflexivity.
Qed.

(** X7: a flush drains the write buffer when the kernel cooperates.  When
    the purge succeeds and every send call takes at least one byte, the
    flush of [n] pending bytes (with enough fuel, [n] turns suffice)
    returns [true] with error SUCCESS after at most [n] send calls, leaves
    the write buffer empty, keeps the descriptor, and has added exactly [n]
    to the bytes-sent counter (modulo 2^32). *)
Theorem io_flush_drains (w : world) (fuel : nat) (with_flush : bool)
        (m : machine) (i1 : memcached_instance_st) :
  w_purge w (n_purge (sys m)) (inst m) = (true, i1) ->
  0 <= write_buffer_offset i1 < 2 ^ 32 ->
  (Z.to_nat (write_buffer_offset i1) < fuel)%nat ->
  (forall j, (j < Z.to_nat (write_buffer_offset i1))%nat ->
     exists n, w_send w (n_send (sys m) + j) = IoLen n /\ 1 <= n) ->
  exists m',
    io_flush w fuel with_flush m = Done ((true, Some MEMCACHED_SUCCESS), m')
    /\ write_buffer_offset (inst m') = 0
    /\ wrap32 (io_bytes_sent (inst m'))
       = wrap32 (io_bytes_sent i1 + write_buffer_offset i1)
    /\ (n_send (sys m') <= n_send (sys m) + Z.to_nat (write_buffer_offset i1))%nat
    /\ fd (inst m') = fd i1.
Proof. apply io_flush_drains_eq. Qed.

Lemma io_flush_drains_witness :
  exists m',
    io_flush two_bytes_world 6 true
      (mkMachine (set_write_buffer_offset 5 fresh_conn) no_calls)
    = Done ((true, Some MEMCACHED_SUCCESS), m')
    /\ write_buffer_offset (inst m') = 0
    /\ wrap32 (io_bytes_sent (inst m')) = wrap32 (0 + 5)
    /\ (n_send (sys m') <= 0 + Z.to_nat 5)%nat
    /\ fd (inst m') = 7.
Proof.
  apply (io_flush_drains two_bytes_world 6 true
           (mkMachine (set_write_buffer_offset 5 fresh_conn) no_calls)
           (set_write_buffer_offset 5 fresh_conn)).
  - reflexivity.
  - simpl. lia.
  - simpl. lia.
  - intros j _. exists 2. split; [reflexivity | lia].
Defined.

(** ** Buffered write *)

Lemma io_write_small_buffered_eq (w : world) (nd : bool) (fuel : nat)
        (len : Z) (m : machine) :
  fd (inst m) <> INVALID_SOCKET ->
  root_is_not_udp (inst m) = true ->
  0 <= write_buffer_offset (inst m) ->
  0 <= len ->
  write_buffer_offset (inst m) + len < MEMCACHED_MAX_BUFFER ->
  _io_write w nd (S (S fuel)) len false m
  = Done ((true, len),
          mkMachine (set_write_buffer_offset (write_buffer_offset (inst m) + len)
                       (inst m))
                    (sys m)).
Proof.
  intros Hfd Hudp Hoff Hlen Hfit. destruct m as [i c]. cbn [inst sys] in *.
  unfold _io_write. unfold bind at 1. unfold get_inst. cbn [inst].
  apply Z.eqb_neq in Hfd.
  unfold assert_. rewrite Hfd, Hudp. cbn [negb]. rewrite !orb_true_r.
  unfold bind at 1 2. unfold ret at 1 2.
  unfold bind at 1.
  assert (Hmax : MEMCACHED_MAX_BUFFER = 8196) by reflexivity.
  destruct (len =? 0) eqn:Ez.
  - apply Z.eqb_eq in Ez. subst len.
    cbn [io_write_loop Z.eqb]. unfold ret. rewrite Z.add_0_r, Z.sub_0_r.
    rewrite set_write_buffer_offset_same. reflexivity.
  - cbn [io_write_loop]. rewrite Ez.
    unfold bind at 1. unfold get_inst. cbn [inst].
    assert (H64 : wrap64 (MEMCACHED_MAX_BUFFER - write_buffer_offset i)
                  = MEMCACHED_MAX_BUFFER - write_buffer_offset i)
      by (unfold wrap64; apply Z.mod_small; lia).
    rewrite H64.
    replace (MEMCACHED_MAX_BUFFER - write_buffer_offset i <? len) with false
      by (symmetry; apply Z.ltb_ge; lia).
    assert (H64' : wrap64 (write_buffer_offset i + len) = write_buffer_offset i + len)
      by (unfold wrap64; apply Z.mod_small; lia).
    rewrite H64'.
    unfold bind at 1. unfold put_inst. cbn [inst sys].
    unfold bind at 1. unfold get_inst. cbn [inst].
    replace (write_buffer_offset
               (set_write_buffer_offset (write_buffer_offset i + len) i))
      with (write_buffer_offset i + len) by (destruct i; reflexivity).
    replace (write_buffer_offset i + len =? MEMCACHED_MAX_BUFFER) with false
      by (symmetry; apply Z.eqb_neq; lia).
    rewrite Z.sub_diag. destruct fuel; cbn [io_write_loop Z.eqb]; unfold ret;
      rewrite Z.sub_0_r; reflexivity.
Qed.

(** X8: a write that fits is only buffered.  On a connected stream
    connection, a write of [length] bytes without flush that leaves the
    write buffer short of its capacity makes no system call at all (no
    purge, no send): it returns [true] with [written = length] and has
    advanced the write-buffer offset by [length], nothing else. *)
Theorem io_write_small_is_buffered (w : world) (nd : bool) (fuel : nat)
        (len : Z) (m : machine) :
  fd (inst m) <> INVALID_SOCKET ->
  root_is_not_udp (inst m) = true ->
  0 <= write_buffer_offset (inst m) ->
  0 <= len ->
  write_buffer_offset (inst m) + len < MEMCACHED_MAX_BUFFER ->
  _io_write w nd (S (S fuel)) len false m
  = Done ((true, len),
          mkMachine (set_write_buffer_offset (write_buffer_offset (inst m) + len)
                       (inst m))
                    (sys m)).
Proof. apply io_write_small_buffered_eq. Qed.

Lemma io_write_small_is_buffered_witness :
  _io_write quiet_world false 2 3 false (mkMachine fresh_conn no_calls)
  = Done ((true, 3), mkMachine (set_write_buffer_offset (0 + 3) fresh_conn) no_calls).
Proof.
  apply (io_write_small_is_buffered quiet_world false 0 3
           (mkMachine fresh_conn no_calls)).
  - discriminate.
  - reflexivity.
  - simpl. lia.
  - lia.
  - vm_compute. reflexivity.
Defined.

(** X9: the buffered write never reports a partial count.  Whatever the
    socket does, [memcached_io_write] returns either [-1] or exactly the
    requested [length]. *)
Theorem io_write_all_or_error (w : world) (nd : bool) (fuel : nat) (len : Z)
        (with_flush : bool) (m m' : machine) (r : Z) :
  memcached_io_write w nd fuel len with_flush m = Done (r, m') ->
  r = -1 \/ r = len.
Proof.
  unfold memcached_io_write. intros H.
  apply bind_Done in H. destruct H as ([ok written] & m1 & Hw & H).
  destruct ok; cbn [negb] in H; unfold ret in H; inversion H; subst.
  - right. eapply io_write_written. exact Hw.
  - left. reflexivity.
Qed.

Lemma io_write_all_or_error_witness :
  -1 = -1 \/ -1 = 3.
Proof.
  apply (io_write_all_or_error broken_pipe_world true 5 3 true
           (mkMachine fresh_conn no_calls)
           (mkMachine
              (set_error_messages [(MEMCACHED_ERRNO, EPIPE)]
                 (record_on_root (MEMCACHED_ERRNO, EPIPE)
                    (closed_conn (set_write_buffer_offset 3 fresh_conn))))
              (mkCalls 1 1 0 0 1 0 0 1 0 0 0 0))
           (-1)).
  vm_compute. reflexivity.
Defined.

(** ** Buffered read *)

Lemma io_read_not_connected_eq (w : world) (nd : bool) (fuel : nat) (len : Z)
      (m : machine) :
  fd (inst m) = INVALID_SOCKET ->
  root_is_not_udp (inst m) = true ->
  memcached_io_read w nd fuel len m
  = Done ((MEMCACHED_CONNECTION_FAILURE, None, []), m).
Proof.
  intros Hfd Hudp. destruct m as [i c]. cbn [inst] in *.
  unfold memcached_io_read. unfold bind at 1. unfold get_inst. cbn [inst].
  unfold assert_. rewrite Hudp, orb_true_r. unfold bind at 1. unfold ret at 1.
  rewrite Hfd. reflexivity.
Qed.

(** X10: no read entry point touches a connection that is not connected.
    On a stream connection whose descriptor is invalid,
    [memcached_io_read], [memcached_safe_read] (of a positive size) and
    [memcached_io_readline] (with nothing buffered) all return
    CONNECTION_FAILURE without any system call, without recording an
    error and without changing the connection; [memcached_io_read] leaves
    [nread] unassigned and the two others deliver no byte. *)
Theorem reads_fail_when_not_connected (w : world) (nd : bool) (fuel : nat) (len : Z)
        (m : machine) :
  fd (inst m) = INVALID_SOCKET ->
  root_is_not_udp (inst m) = true ->
  memcached_io_read w nd fuel len m
  = Done ((MEMCACHED_CONNECTION_FAILURE, None, []), m)
  /\ (0 < len ->
      memcached_safe_read w nd (S (S fuel)) len m
      = Done ((MEMCACHED_CONNECTION_FAILURE, []), m))
  /\ (read_buffer_length (inst m) = 0 ->
      memcached_io_readline w nd (S fuel) len m
      = Done ((MEMCACHED_CONNECTION_FAILURE, 0, []), m)).
Proof.
  intros Hfd Hudp. split; [apply io_read_not_connected_eq; assumption|]. split.
  - intros Hlen. unfold memcached_safe_read. cbn [safe_read_loop].
    replace (0 <? len) with true by (symmetry; apply Z.ltb_lt; exact Hlen).
    unfold bind at 1. cbn [io_read_until_settled]. unfold bind at 1.
    rewrite (io_read_not_connected_eq w nd fuel (len - 0) m Hfd Hudp).
    reflexivity.
  - intros Hrbl. unfold memcached_io_readline. cbn [readline_loop].
    unfold bind at 1. unfold get_inst at 1. cbn [inst]. rewrite Hrbl. cbn [Z.eqb].
    unfold bind at 1 2.
    rewrite (io_read_not_connected_eq w nd fuel 1 m Hfd Hudp).
    reflexivity.
Qed.

Lemma reads_fail_when_not_connected_witness :
  memcached_io_read quiet_world false 3 10
    (mkMachine (closed_conn fresh_conn) no_calls)
  = Done ((MEMCACHED_CONNECTION_FAILURE, None, []),
          mkMachine (closed_conn fresh_conn) no_calls)
  /\ memcached_safe_read quiet_world false 5 10
       (mkMachine (closed_conn fresh_conn) no_calls)
     = Done ((MEMCACHED_CONNECTION_FAILURE, []),
             mkMachine (closed_conn fresh_conn) no_calls)
  /\ memcached_io_readline quiet_world false 4 10
       (mkMachine (closed_conn fresh_conn) no_calls)
     = Done ((MEMCACHED_CONNECTION_FAILURE, 0, []),
             mkMachine (closed_conn fresh_conn) no_calls).
Proof.
  destruct (reads_fail_when_not_connected quiet_world false 3 10
              (mkMachine (closed_conn fresh_conn) no_calls))
    as (R1 & R2 & R3).
  - reflexivity.
  - reflexivity.
  - split; [exact R1|]. split; [apply R2; lia | apply R3; reflexivity].
Defined.

Lemma rbl_closed_conn i : read_buffer_length (closed_conn i) = 0.
Proof.
  unfold closed_conn. destruct (negb (fd i =? INVALID_SOCKET)); destruct i; reflexivity.
Qed.

Lemma rbl_after_error (e : error_t) (l : list error_t) i :
  read_buffer_length (set_error_messages l (record_on_root e i)) = read_buffer_length i.
Proof. apply (fd_state_after_error e l i). Qed.

Lemma io_wait_body_read_tally (w : world) (i : memcached_instance_st) (c : calls)
      (f : flow memcached_return_t) (m' : machine) :
  io_wait_body w (mkMachine i c) = Done (f, m') ->
  kept_or_emptied i (inst m').
Proof.
  unfold io_wait_body, kept_or_emptied.
  unfold bind at 1. unfold sys_poll; unfold_monad. cbn [sys inst].
  destruct (w_poll w (n_poll c)) as [e| |revents].
  - destruct (is_EINTR_or_ERESTART e).
    + intros H; inversion H; subst. auto.
    + unfold memcached_set_error, memcached_set_errno; unfold_monad. cbn [sys inst].
      destruct ((e =? EFAULT) || (e =? ENOMEM)); cbn [orb];
        [|destruct (e =? EINVAL)];
        intros H; inversion H; subst; cbn [inst];
        rewrite !rbl_after_error; auto.
  - rewrite set_error_run. intros H; inversion H; subst. cbn [inst].
    rewrite rbl_after_error. auto.
  - destruct (has_bit revents POLLIN || has_bit revents POLLOUT).
    + intros H; inversion H; subst. auto.
    + destruct (has_bit revents POLLHUP).
      * rewrite set_error_run. intros H; inversion H; subst. cbn [inst].
        rewrite rbl_after_error. auto.
      * destruct (has_bit revents POLLERR).
        -- cbn [sys inst].
           destruct (w_getsockopt w (n_getsockopt (bump_poll c))) as [[|p|p]|];
             try (intros H; inversion H; subst; auto; fail);
             unfold memcached_quit_server;
             rewrite close_socket_eq; cbn [sys inst];
             rewrite set_errno_run; cbn [sys inst];
             intros H; inversion H; subst; cbn [inst];
             rewrite rbl_after_error, rbl_closed_conn; auto.
        -- rewrite set_error_run. intros H; inversion H; subst. cbn [inst].
           rewrite rbl_after_error. auto.
Qed.

Lemma io_wait_loop_read_tally (w : world) :
  forall loop_max i c r m',
    io_wait_loop w loop_max (mkMachine i c) = Done (r, m') ->
    kept_or_emptied i (inst m').
Proof.
  induction loop_max as [|n IH]; intros i c r m' H.
  - inversion H; subst. left. reflexivity.
  - destruct n as [|n].
    + inversion H; subst. left. reflexivity.
    + rewrite io_wait_loop_SS in H.
      apply bind_Done in H. destruct H as (f & m1 & Hb & H).
      pose proof (io_wait_body_read_tally w i c f m1 Hb) as Hk.
      destruct f as [rc| |].
      * unfold ret in H. inversion H; subst. exact Hk.
      * destruct m1 as [i1 c1]. apply IH in H. cbn [inst] in Hk.
        unfold kept_or_emptied in *. destruct H as [H|H]; [|auto].
        rewrite H. exact Hk.
      * unfold ret in H. inversion H; subst. exact Hk.
Qed.

(** A wait for readability leaves the read tally or empties the read
    buffer. *)
Lemma io_wait_read_tally (w : world) (m m' : machine) (rc : memcached_return_t) :
  io_wait w POLLIN m = Done (rc, m') ->
  kept_or_emptied (inst m) (inst m').
Proof.
  unfold io_wait. intros H.
  change (has_bit POLLIN POLLOUT) with false in H. cbv iota in H.
  unfold bind at 1 in H. unfold ret at 1 in H. cbn [negb] in H.
  apply bind_Done in H. destruct H as (? & m1 & Hm & H).
  unfold modify in Hm. inversion Hm; subst. clear Hm.
  apply bind_Done in H. destruct H as (r & m2 & Hg & H).
  unfold get_root in Hg. cbn [inst] in Hg.
  destruct (root _); [|discriminate]. inversion Hg; subst. clear Hg.
  assert (Hcnt : read_buffer_length
                   (set_io_wait_count_read (wrap32 (io_wait_count_read (inst m) + 1))
                      (inst m)) = read_buffer_length (inst m))
    by (destruct (inst m); reflexivity).
  destruct (poll_timeout r =? 0).
  - rewrite set_error_run in H. inversion H; subst. cbn [inst].
    left. rewrite rbl_after_error. exact Hcnt.
  - apply bind_Done in H. destruct H as (looped & m3 & Hl & H).
    apply io_wait_loop_read_tally in Hl. cbn [inst] in Hl.
    unfold kept_or_emptied in *. rewrite Hcnt in Hl.
    destruct looped as [rc'|].
    + unfold ret in H. inversion H; subst. exact Hl.
    + unfold memcached_quit_server in H.
      apply bind_Done in H. destruct H as (? & m4 & Hc & H).
      rewrite close_socket_eq in Hc. inversion Hc; subst. clear Hc.
      apply bind_Done in H. destruct H as (i4 & m5 & Hg & H).
      unfold get_inst in Hg. inversion Hg; subst. clear Hg. cbn [inst] in H.
      destruct (memcached_has_error (closed_conn (inst m3))).
      * unfold ret in H. inversion H; subst. cbn [inst]. right. apply rbl_closed_conn.
      * rewrite set_error_run in H. inversion H; subst. cbn [inst]. right.
        rewrite rbl_after_error. apply rbl_closed_conn.
Qed.

Lemma strlen_from_lower (buf : Z -> Z) :
  forall n k len, strlen_from n k buf = Some len -> k <= len.
Proof.
  induction n as [|n IH]; intros k len H; [discriminate|].
  cbn [strlen_from] in H. destruct (buf k =? 0).
  - inversion H. lia.
  - apply IH in H. lia.
Qed.

Lemma mpi_wait_inst (w : world) :
  forall fuel m r m', mpi_wait w fuel m = Done (r, m') -> inst m' = inst m.
Proof.
  induction fuel as [|fuel IH]; intros m r m' H; [discriminate|].
  cbn [mpi_wait] in H.
  apply bind_Done in H. destruct H as (flag & m1 & Ht & H).
  unfold sys_mpi_test in Ht.
  cbv beta iota delta [bind ret get_sys put_sys] in Ht. inversion Ht; subst.
  destruct (w_mpi_test w (n_mpi_test (sys m))).
  - unfold ret in H. inversion H; subst. reflexivity.
  - apply IH in H. exact H.
Qed.


(** A refill that returns leaves a read tally that is not negative, and its
    only code that is not fatal is SUCCESS. *)
Lemma io_fill_outcome (w : world) (nd : bool) :
  forall fuel m rc m',
    0 <= read_buffer_length (inst m) ->
    _io_fill w nd fuel m = Done (rc, m') ->
    0 <= read_buffer_length (inst m')
    /\ (memcached_fatal rc = false -> rc = MEMCACHED_SUCCESS).
Proof.
  induction fuel as [|fuel IH]; intros m rc m' Hpos H; [discriminate|].
  cbn [_io_fill] in H.
  apply bind_Done in H. destruct H as (data_read & m1 & Hrecv & H).
  assert (Hm1 : inst m1 = inst m).
  { unfold sys_recv in Hrecv.
    cbv beta iota delta [bind ret get_sys put_sys] in Hrecv.
    inversion Hrecv; reflexivity. }
  destruct data_read as [e|data].
  - destruct (e =? EINTR).
    + eapply IH; [|exact H]. rewrite Hm1. exact Hpos.
    + destruct ((e =? ETIMEDOUT) || (e =? EAGAIN) || (e =? ERESTART)).
      * apply bind_Done in H. destruct H as (rcw & m2 & Hw & H).
        pose proof (io_wait_read_tally w m1 m2 rcw Hw) as Hk.
        assert (Hpos2 : 0 <= read_buffer_length (inst m2)).
        { destruct Hk as [Hk|Hk]; rewrite Hk; [rewrite Hm1; exact Hpos | lia]. }
        destruct (memcached_success rcw) eqn:Es.
        -- eapply IH; [exact Hpos2 | exact H].
        -- unfold ret in H. inversion H; subst. split; [exact Hpos2|].
           unfold memcached_fatal. rewrite Es. discriminate.
      * apply bind_Done in H. destruct H as (i1 & m2 & Hg & H).
        unfold get_inst in Hg. inversion Hg; subst. clear Hg.
        apply bind_Done in H. destruct H as (? & m3 & Ha & H).
        assert (Hm3 : m3 = m2).
        { destruct ((e =? ENOTCONN) || (e =? ENOTSOCK) || (e =? EBADF)).
          - apply assert_Done in Ha. inversion Ha. reflexivity.
          - unfold ret in Ha. inversion Ha. reflexivity. }
        subst m3. unfold memcached_quit_server in H.
        apply bind_Done in H. destruct H as (? & m4 & Hc & H).
        rewrite close_socket_eq in Hc. inversion Hc; subst. clear Hc.
        apply bind_Done in H. destruct H as (? & m5 & He & H).
        rewrite set_errno_run in He. inversion He; subst. clear He.
        apply bind_Done in H. destruct H as (i5 & m6 & Hg & H).
        unfold get_inst in Hg. inversion Hg; subst. clear Hg.
        unfold ret in H. inversion H; subst. cbn [inst].
        rewrite rbl_after_error, rbl_closed_conn. split; [lia|].
        unfold memcached_instance_error_return.
        rewrite error_messages_set_error_messages. discriminate.
  - cbv zeta in H.
    destruct (Z.of_nat (List.length (firstn (Z.to_nat MEMCACHED_MAX_BUFFER) data)) =? 0).
    + unfold memcached_quit_server in H.
      apply bind_Done in H. destruct H as (? & m2 & Hc & H).
      rewrite close_socket_eq in Hc. inversion Hc; subst. clear Hc.
      rewrite set_error_run in H. inversion H; subst. cbn [inst].
      rewrite rbl_after_error, rbl_closed_conn. split; [lia|]. discriminate.
    + apply bind_Done in H. destruct H as (? & m2 & Hmod & H).
      unfold io_fill_tail in H.
      apply bind_Done in H. destruct H as (? & m3 & Hmpi & H).
      apply mpi_wait_inst in Hmpi.
      apply bind_Done in H. destruct H as (i3 & m4 & Hg & H).
      unfold get_inst in Hg. inversion Hg; subst. clear Hg.
      destruct (strlen (read_buffer (inst m4))) as [len|] eqn:Es; [|discriminate].
      apply bind_Done in H. destruct H as (? & m5 & Hmod2 & H).
      unfold modify in Hmod2. inversion Hmod2; subst. clear Hmod2.
      unfold ret in H. inversion H; subst. cbn [inst].
      split; [|reflexivity].
      unfold strlen in Es. apply strlen_from_lower in Es.
      destruct (inst m4); cbn. exact Es.
Qed.

Lemma read_bytes_length buf from n : List.length (read_bytes buf from n) = n.
Proof. unfold read_bytes. rewrite length_map, length_seq. reflexivity. Qed.

Lemma wrap64_nonneg z : 0 <= wrap64 z.
Proof. unfold wrap64. apply Z.mod_pos_bound. lia. Qed.

(** The copy loop of [memcached_io_read]: the read tally stays
    non-negative, and a result that is not fatal is SUCCESS with exactly
    [length] more bytes copied. *)
Lemma io_read_loop_outcome (w : world) (nd : bool) :
  forall fuel len out m rc nread out' m',
    0 <= len ->
    0 <= read_buffer_length (inst m) ->
    io_read_loop w nd fuel len out m = Done ((rc, nread, out'), m') ->
    0 <= read_buffer_length (inst m')
    /\ (memcached_fatal rc = false ->
        rc = MEMCACHED_SUCCESS
        /\ nread = Z.of_nat (List.length out')
        /\ Z.of_nat (List.length out') = Z.of_nat (List.length out) + len).
Proof.
  induction fuel as [|fuel IH]; intros len out m rc nread out' m' Hlen Hpos H;
    [discriminate|].
  cbn [io_read_loop] in H.
  destruct (len =? 0) eqn:Ez.
  - apply Z.eqb_eq in Ez. unfold ret in H. inversion H; subst.
    split; [exact Hpos|]. intros _. repeat split. lia.
  - apply Z.eqb_neq in Ez.
    apply bind_Done in H. destruct H as (i & m1 & Hg & H).
    unfold get_inst in Hg. inversion Hg; subst. clear Hg.
    apply bind_Done in H. destruct H as (fill_ret & m2 & Hfill & H).
    assert (Hfill' : 0 <= read_buffer_length (inst m2)
                     /\ (memcached_fatal fill_ret = false ->
                         fill_ret = MEMCACHED_SUCCESS)).
    { destruct (read_buffer_length (inst m1) =? 0).
      - eapply io_fill_outcome; [exact Hpos | exact Hfill].
      - unfold ret in Hfill. inversion Hfill; subst. auto. }
    destruct Hfill' as (Hpos2 & Hcode).
    destruct (memcached_fatal fill_ret) eqn:Ef.
    + unfold ret in H. inversion H; subst. split; [exact Hpos2|].
      intros Hnf. rewrite Hnf in Ef. discriminate.
    + apply bind_Done in H. destruct H as (i2 & m3 & Hg & H).
      unfold get_inst in Hg. inversion Hg; subst. clear Hg.
      destruct (1 <? len) eqn:E1.
      * apply Z.ltb_lt in E1.
        set (difference := if read_buffer_length (inst m3) <? len
                           then read_buffer_length (inst m3) else len) in *.
        assert (Hd : 0 <= difference <= len /\ difference <= read_buffer_length (inst m3)).
        { subst difference. destruct (read_buffer_length (inst m3) <? len) eqn:E.
          - apply Z.ltb_lt in E. lia.
          - apply Z.ltb_ge in E. lia. }
        apply bind_Done in H. destruct H as (? & m4 & Hp & H).
        unfold put_inst in Hp. inversion Hp; subst. clear Hp.
        apply IH in H.
        -- destruct H as (Hpos' & Hres). split; [exact Hpos'|].
           intros Hnf. destruct (Hres Hnf) as (-> & -> & Hl).
           repeat split. rewrite Hl, length_app, read_bytes_length. lia.
        -- lia.
        -- cbn [inst]. destruct (inst m3); cbn in *. lia.
      * apply Z.ltb_ge in E1.
        apply bind_Done in H. destruct H as (? & m4 & Hp & H).
        unfold put_inst in Hp. inversion Hp; subst. clear Hp.
        unfold ret in H. inversion H; subst. cbn [inst].
        split.
        -- destruct (inst m3); cbn. apply wrap64_nonneg.
        -- intros _. repeat split. rewrite length_app. cbn [List.length]. lia.
Qed.

Lemma memcached_io_read_outcome (w : world) (nd : bool) (fuel : nat) (len : Z)
      (m m' : machine) (rc : memcached_return_t) (nread : option Z)
      (out : list Z) :
  0 <= len ->
  0 <= read_buffer_length (inst m) ->
  memcached_io_read w nd fuel len m = Done ((rc, nread, out), m') ->
  0 <= read_buffer_length (inst m')
  /\ (memcached_failed rc = false ->
      rc = MEMCACHED_SUCCESS
      /\ nread = Some len
      /\ Z.of_nat (List.length out) = len).
Proof.
  intros Hlen Hpos H. unfold memcached_io_read in H.
  apply bind_Done in H. destruct H as (i & m1 & Hg & H).
  unfold get_inst in Hg. injection Hg as Hi Hm1. subst i m1.
  apply bind_Done in H. destruct H as (u & m2 & Ha & H).
  apply assert_Done in Ha. injection Ha as _ Hm2. subst m2.
  destruct (fd (inst m) =? INVALID_SOCKET).
  - unfold ret in H. inversion H; subst. split; [exact Hpos|]. discriminate.
  - apply bind_Done in H. destruct H as ([[rc' nread'] out'] & m3 & Hl & H).
    unfold ret in H. injection H as Hrc Hnread Hout Hm3. subst rc' nread out' m3.
    destruct (io_read_loop_outcome w nd fuel len [] m rc nread' out m'
                Hlen Hpos Hl) as (Hpos' & Hres).
    split; [exact Hpos'|]. intros Hnf.
    destruct (Hres Hnf) as (-> & -> & Hout). cbn [List.length] in Hout.
    repeat split; [f_equal|]; lia.
Qed.

(** X11: [memcached_io_read] never returns a short read.  On a connection
    whose read tally is not negative, whatever the socket answers, the
    tally stays non-negative, and a read of [length >= 0] bytes that does
    not fail returns SUCCESS with [nread = length] and exactly [length]
    bytes copied to the caller. *)
Theorem io_read_is_exact (w : world) (nd : bool) (fuel : nat) (len : Z)
        (m m' : machine) (rc : memcached_return_t) (nread : option Z)
        (out : list Z) :
  0 <= len ->
  0 <= read_buffer_length (inst m) ->
  memcached_io_read w nd fuel len m = Done ((rc, nread, out), m') ->
  0 <= read_buffer_length (inst m')
  /\ (memcached_failed rc = false ->
      rc = MEMCACHED_SUCCESS
      /\ nread = Some len
      /\ Z.of_nat (List.length out) = len).
Proof. apply memcached_io_read_outcome. Qed.

Lemma io_read_is_exact_witness :
  0 <= read_buffer_length (advance 2 line_conn)
  /\ (memcached_failed MEMCACHED_SUCCESS = false ->
      MEMCACHED_SUCCESS = MEMCACHED_SUCCESS
      /\ Some 2 = Some 2
      /\ Z.of_nat (List.length [97; 98]) = 2).
Proof.
  apply (io_read_is_exact quiet_world false 5 2
           (mkMachine line_conn no_calls) (mkMachine (advance 2 line_conn) no_calls)
           MEMCACHED_SUCCESS (Some 2) [97; 98]).
  - lia.
  - simpl. lia.
  - vm_compute. reflexivity.
Defined.

(** Serving a read from the buffer: no refill, no system call. *)
Lemma memcached_io_read_buffered (w : world) (nd : bool) (fuel : nat) (n : nat)
      (i : memcached_instance_st) (c : calls) :
  fd i <> INVALID_SOCKET ->
  root_is_not_udp i = true ->
  (0 < n)%nat ->
  Z.of_nat n <= read_buffer_length i ->
  0 <= read_ptr i ->
  read_ptr i + read_buffer_length i <= MEMCACHED_MAX_BUFFER ->
  memcached_io_read w nd (S (S fuel)) (Z.of_nat n) (mkMachine i c)
  = Done ((MEMCACHED_SUCCESS, Some (Z.of_nat n),
           read_bytes (read_buffer i) (read_ptr i) n),
          mkMachine (advance (Z.of_nat n) i) c).
Proof.
  intros Hfd Hudp Hn Hlen Hptr Hcap. apply Z.eqb_neq in Hfd.
  assert (Hmax : MEMCACHED_MAX_BUFFER = 8196) by reflexivity.
  unfold memcached_io_read. unfold bind at 1. unfold get_inst. cbn [inst].
  unfold assert_. rewrite Hudp, orb_true_r. unfold bind at 1. unfold ret at 1.
  rewrite Hfd. unfold bind at 1.
  cbn [io_read_loop].
  replace (Z.of_nat n =? 0) with false by (symmetry; apply Z.eqb_neq; lia).
  unfold bind at 1. unfold get_inst. cbn [inst].
  replace (read_buffer_length i =? 0) with false by (symmetry; apply Z.eqb_neq; lia).
  unfold bind at 1. unfold ret at 1. cbn [memcached_fatal memcached_success negb].
  unfold bind at 1. unfold get_inst. cbn [inst].
  destruct (1 <? Z.of_nat n) eqn:E1.
  - replace (read_buffer_length i <? Z.of_nat n) with false
      by (symmetry; apply Z.ltb_ge; lia).
    unfold bind at 1. rewrite check_read_ok by lia.
    unfold bind at 1. unfold put_inst. cbn [inst sys].
    rewrite Z.sub_diag, Nat2Z.id.
    destruct fuel; cbn [io_read_loop Z.eqb app]; unfold ret;
      rewrite read_bytes_length;
      (replace (set_read_buffer_length (read_buffer_length i - Z.of_nat n)
                  (set_read_ptr (read_ptr i + Z.of_nat n) i))
         with (advance (Z.of_nat n) i)
         by (unfold advance; destruct i; reflexivity));
      reflexivity.
  - apply Z.ltb_ge in E1. assert (n = 1%nat) by lia. subst n.
    unfold bind at 1. rewrite check_read_ok by lia.
    unfold bind at 1. unfold put_inst. cbn [inst sys]. unfold ret.
    assert (H64 : wrap64 (read_buffer_length i - 1) = read_buffer_length i - 1)
      by (unfold wrap64; apply Z.mod_small; lia).
    rewrite H64.
    replace (set_read_buffer_length (read_buffer_length i - 1)
               (set_read_ptr (read_ptr i + 1) i))
      with (advance (Z.of_nat 1) i)
      by (unfold advance; destruct i; reflexivity).
    unfold read_bytes. cbn [seq map app List.length Z.of_nat Pos.of_succ_nat].
    rewrite Z.add_0_r. reflexivity.
Qed.

(** X12: a read that the buffer can serve makes no system call.  On a
    connected stream connection whose unread bytes lie inside the read
    buffer (the read cursor is not negative and the cursor plus the unread
    tally does not exceed the buffer capacity) and number at least
    [n >= 1], [memcached_io_read] of [n] bytes returns SUCCESS with
    [nread = n] and the next [n] buffered bytes, in order, and only
    advances the read cursor and lowers the unread tally by [n]: no
    refill, no poll. *)
Theorem io_read_served_from_buffer (w : world) (nd : bool) (fuel : nat) (n : nat)
        (i : memcached_instance_st) (c : calls) :
  fd i <> INVALID_SOCKET ->
  root_is_not_udp i = true ->
  (0 < n)%nat ->
  Z.of_nat n <= read_buffer_length i ->
  0 <= read_ptr i ->
  read_ptr i + read_buffer_length i <= MEMCACHED_MAX_BUFFER ->
  memcached_io_read w nd (S (S fuel)) (Z.of_nat n) (mkMachine i c)
  = Done ((MEMCACHED_SUCCESS, Some (Z.of_nat n),
           read_bytes (read_buffer i) (read_ptr i) n),
          mkMachine (advance (Z.of_nat n) i) c).
Proof. apply memcached_io_read_buffered. Qed.

Lemma io_read_served_from_buffer_witness :
  memcached_io_read quiet_world false 2 (Z.of_nat 2) (mkMachine line_conn no_calls)
  = Done ((MEMCACHED_SUCCESS, Some (Z.of_nat 2),
           read_bytes (read_buffer line_conn) (read_ptr line_conn) 2),
          mkMachine (advance (Z.of_nat 2) line_conn) no_calls).
Proof.
  apply (io_read_served_from_buffer quiet_world false 0 2 line_conn no_calls).
  - discriminate.
  - reflexivity.
  - lia.
  - vm_compute. discriminate.
  - vm_compute. discriminate.
  - vm_compute. discriminate.
Defined.

(** ** Guaranteed-size read *)

Lemma io_read_until_settled_outcome (w : world) (nd : bool) :
  forall fuel len m rc nread out m',
    0 <= len ->
    0 <= read_buffer_length (inst m) ->
    io_read_until_settled w nd fuel len m = Done ((rc, nread, out), m') ->
    0 <= read_buffer_length (inst m')
    /\ (memcached_failed rc = false ->
        rc = MEMCACHED_SUCCESS
        /\ nread = Some len
        /\ Z.of_nat (List.length out) = len).
Proof.
  induction fuel as [|fuel IH]; intros len m rc nread out m' Hlen Hpos H;
    [discriminate|].
  cbn [io_read_until_settled] in H.
  apply bind_Done in H. destruct H as ([[rc1 nread1] out1] & m1 & Hr & H).
  destruct (memcached_io_read_outcome w nd fuel len m m1 rc1 nread1 out1 Hlen Hpos Hr)
    as (Hpos1 & Hres).
  destruct (memcached_continue rc1).
  - eapply IH; [exact Hlen | exact Hpos1 | exact H].
  - unfold ret in H. injection H as -> -> -> ->. auto.
Qed.

Lemma safe_read_loop_outcome (w : world) (nd : bool) (size : Z) :
  forall fuel offset data m data' m',
    0 <= offset <= size ->
    size < 2 ^ 64 ->
    Z.of_nat (List.length data) = offset ->
    0 <= read_buffer_length (inst m) ->
    safe_read_loop w nd fuel size offset data m = Done ((MEMCACHED_SUCCESS, data'), m') ->
    Z.of_nat (List.length data') = size.
Proof.
  induction fuel as [|fuel IH]; intros offset data m data' m' Hoff Hsize Hdata Hpos H;
    [discriminate|].
  cbn [safe_read_loop] in H.
  destruct (offset <? size) eqn:Elt.
  - apply Z.ltb_lt in Elt.
    apply bind_Done in H. destruct H as ([[rc nread] out] & m1 & Hr & H).
    destruct (io_read_until_settled_outcome w nd fuel (size - offset) m rc nread out m1
                ltac:(lia) Hpos Hr) as (Hpos1 & Hres).
    destruct (memcached_failed rc) eqn:Ef.
    + unfold ret in H. injection H as Hrc _ _. subst rc. discriminate Ef.
    + destruct (Hres eq_refl) as (_ & -> & Hout).
      assert (H64 : wrap64 (offset + (size - offset)) = size)
        by (unfold wrap64; replace (offset + (size - offset)) with size by lia;
            apply Z.mod_small; lia).
      rewrite H64 in H.
      eapply IH; [| exact Hsize | | exact Hpos1 | exact H].
      * lia.
      * rewrite length_app. lia.
  - apply Z.ltb_ge in Elt. unfold ret in H. injection H as -> _. lia.
Qed.

(** X13: [memcached_safe_read] delivers exactly [size] bytes or an error.
    For [0 <= size < 2^64] and a connection whose read tally is not
    negative, whatever the socket answers, a guaranteed-size read that
    returns SUCCESS has delivered exactly [size] bytes. *)
Theorem safe_read_is_exact (w : world) (nd : bool) (fuel : nat) (size : Z)
        (m m' : machine) (data : list Z) :
  0 <= size < 2 ^ 64 ->
  0 <= read_buffer_length (inst m) ->
  memcached_safe_read w nd fuel size m = Done ((MEMCACHED_SUCCESS, data), m') ->
  Z.of_nat (List.length data) = size.
Proof.
  intros Hsize Hpos H. unfold memcached_safe_read in H.
  eapply (safe_read_loop_outcome w nd size fuel 0 [] m data m'); try eassumption.
  - lia.
  - lia.
  - reflexivity.
Qed.

Lemma safe_read_is_exact_witness :
  Z.of_nat (List.length [97; 98; newline]) = 3.
Proof.
  apply (safe_read_is_exact quiet_world false 5 3
           (mkMachine line_conn no_calls) (mkMachine (advance 3 line_conn) no_calls)
           [97; 98; newline]).
  - lia.
  - simpl. lia.
  - vm_compute. reflexivity.
Defined.

(** X14: a guaranteed-size read that the buffer can serve.  On a connected
    stream connection whose unread bytes lie inside the read buffer (the
    read cursor is not negative and the cursor plus the unread tally does
    not exceed the buffer capacity) and number at least [n >= 1],
    [memcached_safe_read] of [n] bytes returns SUCCESS with the next [n]
    buffered bytes, in order, without any system call, and leaves the
    remaining unread bytes in place. *)
Theorem safe_read_served_from_buffer (w : world) (nd : bool) (fuel : nat) (n : nat)
        (i : memcached_instance_st) (c : calls) :
  fd i <> INVALID_SOCKET ->
  root_is_not_udp i = true ->
  (0 < n)%nat ->
  Z.of_nat n <= read_buffer_length i ->
  0 <= read_ptr i ->
  read_ptr i + read_buffer_length i <= MEMCACHED_MAX_BUFFER ->
  memcached_safe_read w nd (S (S (S (S fuel)))) (Z.of_nat n) (mkMachine i c)
  = Done ((MEMCACHED_SUCCESS, read_bytes (read_buffer i) (read_ptr i) n),
          mkMachine (advance (Z.of_nat n) i) c).
Proof.
  intros Hfd Hudp Hn Hlen Hptr Hcap.
  assert (Hmax : MEMCACHED_MAX_BUFFER = 8196) by reflexivity.
  unfold memcached_safe_read. cbn [safe_read_loop].
  replace (0 <? Z.of_nat n) with true by (symmetry; apply Z.ltb_lt; lia).
  unfold bind at 1. cbn [io_read_until_settled]. unfold bind at 1.
  rewrite Z.sub_0_r.
  rewrite (memcached_io_read_buffered w nd fuel n i c Hfd Hudp Hn Hlen Hptr Hcap).
  cbn [memcached_continue return_eqb memcached_failed memcached_success negb].
  unfold ret at 1. cbn [Z.add app].
  assert (H64 : wrap64 (Z.of_nat n) = Z.of_nat n)
    by (unfold wrap64; apply Z.mod_small; lia).
  rewrite H64, Z.ltb_irrefl. reflexivity.
Qed.

Lemma safe_read_served_from_buffer_witness :
  memcached_safe_read quiet_world false 4 (Z.of_nat 3) (mkMachine line_conn no_calls)
  = Done ((MEMCACHED_SUCCESS,
           read_bytes (read_buffer line_conn) (read_ptr line_conn) 3),
          mkMachine (advance (Z.of_nat 3) line_conn) no_calls).
Proof.
  apply (safe_read_served_from_buffer quiet_world false 0 3 line_conn no_calls).
  - discriminate.
  - reflexivity.
  - lia.
  - vm_compute. discriminate.
  - vm_compute. discriminate.
  - vm_compute. discriminate.
Defined.

(** ** Refill: the peer closes, the socket fails *)

Lemma n_recv_bump_recv c : n_recv (bump_recv c) = S (n_recv c).
Proof. destruct c; reflexivity. Qed.

Lemma io_fill_gives_up (w : world) (nd : bool) (fuel : nat)
      (i : memcached_instance_st) (c : calls) :
  (w_recv w (n_recv c) = RecvData [] ->
   _io_fill w nd (S fuel) (mkMachine i c)
   = Done (MEMCACHED_CONNECTION_FAILURE,
           mkMachine
             (set_error_messages
                ((MEMCACHED_CONNECTION_FAILURE, 0) :: error_messages (closed_conn i))
                (record_on_root (MEMCACHED_CONNECTION_FAILURE, 0) (closed_conn i)))
             (closed_calls i (bump_recv c))))
  /\ (forall e,
        w_recv w (n_recv c) = RecvErr e ->
        fill_retries e = false ->
        nd || negb (fill_asserts e) || negb (fd i =? INVALID_SOCKET) = true ->
        _io_fill w nd (S fuel) (mkMachine i c)
        = Done (MEMCACHED_ERRNO,
                mkMachine
                  (set_error_messages
                     ((MEMCACHED_ERRNO, e) :: error_messages (closed_conn i))
                     (record_on_root (MEMCACHED_ERRNO, e) (closed_conn i)))
                  (closed_calls i (bump_recv c)))).
Proof.
  split.
  - intros Ans. cbn [_io_fill]. unfold bind at 1. unfold sys_recv; unfold_monad.
    cbn [inst sys]. rewrite Ans. cbn [firstn List.length Z.of_nat Z.eqb].
    rewrite firstn_nil. cbn [List.length Z.of_nat Z.eqb].
    unfold memcached_quit_server. rewrite close_socket_eq. cbn [inst sys].
    rewrite set_error_run. reflexivity.
  - intros e Ans Hno Hassert. cbn [_io_fill]. unfold bind at 1.
    unfold sys_recv; unfold_monad. cbn [inst sys]. rewrite Ans.
    unfold fill_retries in Hno.
    apply orb_false_iff in Hno. destruct Hno as (Hno & H4).
    apply orb_false_iff in Hno. destruct Hno as (Hno & H3).
    apply orb_false_iff in Hno. destruct Hno as (H1 & H2).
    rewrite H1, H2, H3, H4. cbn [orb].
    unfold fill_asserts in Hassert.
    unfold assert_.
    destruct ((e =? ENOTCONN) || (e =? ENOTSOCK) || (e =? EBADF)).
    + cbn [negb orb] in Hassert. rewrite orb_false_r in Hassert.
      unfold_monad. cbn [inst sys].
      rewrite Hassert. cbn beta iota.
      unfold memcached_quit_server. rewrite close_socket_eq. cbn [inst sys].
      rewrite set_errno_run. cbn [inst sys].
      unfold memcached_instance_error_return.
      rewrite error_messages_set_error_messages. reflexivity.
    + unfold_monad. cbn [inst sys].
      unfold memcached_quit_server. rewrite close_socket_eq. cbn [inst sys].
      rewrite set_errno_run. cbn [inst sys].
      unfold memcached_instance_error_return.
      rewrite error_messages_set_error_messages. reflexivity.
Qed.

(** X15: a refill gives up and closes the connection when the peer has
    closed or the socket fails.  When the receive delivers no data, the
    refill closes the connection and records and returns
    CONNECTION_FAILURE; when it fails with an errno other than EINTR,
    ETIMEDOUT, EAGAIN and ERESTART, the refill closes the connection and
    records and returns the errno failure with that errno (with assertions
    enabled, ENOTCONN, ENOTSOCK and EBADF need a valid descriptor).  In
    both cases exactly one receive was made, the descriptor is invalid, the
    state is NEW and the read buffer is empty. *)
Theorem io_fill_closes_on_eof_and_error (w : world) (nd : bool) (fuel : nat)
        (i : memcached_instance_st) (c : calls) (code : memcached_return_t)
        (errno : Z) :
  (w_recv w (n_recv c) = RecvData [] /\ code = MEMCACHED_CONNECTION_FAILURE /\ errno = 0)
  \/ (w_recv w (n_recv c) = RecvErr errno /\ code = MEMCACHED_ERRNO
      /\ fill_retries errno = false
      /\ nd || negb (fill_asserts errno) || negb (fd i =? INVALID_SOCKET) = true) ->
  exists m',
    _io_fill w nd (S fuel) (mkMachine i c) = Done (code, m')
    /\ error_messages (inst m') = (code, errno) :: error_messages i
    /\ fd (inst m') = INVALID_SOCKET
    /\ state (inst m') = MEMCACHED_SERVER_STATE_NEW
    /\ read_buffer_length (inst m') = 0
    /\ n_recv (sys m') = S (n_recv c).
Proof.
  intros H.
  assert (Hpost : forall e,
             let i' := set_error_messages (e :: error_messages (closed_conn i))
                         (record_on_root e (closed_conn i)) in
             error_messages i' = e :: error_messages i
             /\ fd i' = INVALID_SOCKET
             /\ state i' = MEMCACHED_SERVER_STATE_NEW
             /\ read_buffer_length i' = 0
             /\ n_recv (closed_calls i (bump_recv c)) = S (n_recv c)).
  { intros e i'. subst i'.
    destruct (fd_state_after_error e (e :: error_messages (closed_conn i))
                (closed_conn i)) as (H1 & H2 & H3 & _).
    rewrite H1, H2, H3, error_messages_set_error_messages,
            error_messages_closed_conn, fd_closed_conn, state_closed_conn,
            rbl_closed_conn.
    repeat split.
    unfold closed_calls. destruct (negb (fd i =? INVALID_SOCKET));
      destruct c; reflexivity. }
  destruct H as [(Ans & -> & ->)|(Ans & -> & Hno & Hassert)].
  - eexists. split.
    + apply (proj1 (io_fill_gives_up w nd fuel i c) Ans).
    + cbn [inst sys]. apply Hpost.
  - eexists. split.
    + apply (proj2 (io_fill_gives_up w nd fuel i c) errno Ans Hno Hassert).
    + cbn [inst sys]. apply Hpost.
Qed.

Lemma io_fill_closes_on_eof_and_error_witness :
  (exists m',
     _io_fill eof_world false 1 (mkMachine fresh_conn no_calls)
     = Done (MEMCACHED_CONNECTION_FAILURE, m')
     /\ error_messages (inst m') = (MEMCACHED_CONNECTION_FAILURE, 0) :: []
     /\ fd (inst m') = INVALID_SOCKET
     /\ state (inst m') = MEMCACHED_SERVER_STATE_NEW
     /\ read_buffer_length (inst m') = 0
     /\ n_recv (sys m') = 1%nat)
  /\ (exists m',
        _io_fill recv_refused_world false 1 (mkMachine fresh_conn no_calls)
        = Done (MEMCACHED_ERRNO, m')
        /\ error_messages (inst m') = (MEMCACHED_ERRNO, ECONNREFUSED) :: []
        /\ fd (inst m') = INVALID_SOCKET
        /\ state (inst m') = MEMCACHED_SERVER_STATE_NEW
        /\ read_buffer_length (inst m') = 0
        /\ n_recv (sys m') = 1%nat).
Proof.
  split.
  - apply (io_fill_closes_on_eof_and_error eof_world false 0 fresh_conn no_calls
             MEMCACHED_CONNECTION_FAILURE 0).
    left. repeat split.
  - apply (io_fill_closes_on_eof_and_error recv_refused_world false 0 fresh_conn no_calls
             MEMCACHED_ERRNO ECONNREFUSED).
    right. repeat split.
Defined.

(** X16: a line read on a drained connection whose peer has closed.  On a
    connected stream connection with an empty read buffer, when the
    receive delivers no data, [memcached_io_readline] returns
    CONNECTION_FAILURE with [total_nr = 0] and nothing stored, for every
    [size]; the connection has been closed and the failure recorded on
    it. *)
Theorem readline_at_eof (w : world) (nd : bool) (fuel : nat) (size : Z)
        (i : memcached_instance_st) (c : calls) :
  fd i <> INVALID_SOCKET ->
  root_is_not_udp i = true ->
  read_buffer_length i = 0 ->
  w_recv w (n_recv c) = RecvData [] ->
  exists m',
    memcached_io_readline w nd (S (S (S fuel))) size (mkMachine i c)
    = Done ((MEMCACHED_CONNECTION_FAILURE, 0, []), m')
    /\ fd (inst m') = INVALID_SOCKET
    /\ state (inst m') = MEMCACHED_SERVER_STATE_NEW
    /\ error_messages (inst m') = (MEMCACHED_CONNECTION_FAILURE, 0) :: error_messages i.
Proof.
  intros Hfd Hudp Hempty Ans. apply Z.eqb_neq in Hfd.
  eexists. split.
  - unfold memcached_io_readline. cbn [readline_loop].
    unfold bind at 1. unfold get_inst. cbn [inst]. rewrite Hempty. cbn [Z.eqb].
    unfold bind at 1. unfold bind at 1.
    unfold memcached_io_read. unfold bind at 1. unfold get_inst. cbn [inst].
    unfold assert_. rewrite Hudp, orb_true_r. unfold bind at 1. unfold ret at 1.
    rewrite Hfd. unfold bind at 1.
    cbn [io_read_loop Z.eqb]. unfold bind at 1. unfold get_inst. cbn [inst].
    rewrite Hempty. cbn [Z.eqb]. unfold bind at 1.
    rewrite (proj1 (io_fill_gives_up w nd fuel i c) Ans).
    cbn [memcached_fatal memcached_failed memcached_success negb andb return_eqb].
    unfold ret. reflexivity.
  - cbn [inst].
    destruct (fd_state_after_error (MEMCACHED_CONNECTION_FAILURE, 0)
                ((MEMCACHED_CONNECTION_FAILURE, 0) :: error_messages (closed_conn i))
                (closed_conn i)) as (H1 & H2 & _).
    rewrite H1, H2, error_messages_set_error_messages, error_messages_closed_conn,
            fd_closed_conn, state_closed_conn.
    repeat split.
Qed.

Lemma readline_at_eof_witness :
  exists m',
    memcached_io_readline eof_world false 3 80 (mkMachine fresh_conn no_calls)
    = Done ((MEMCACHED_CONNECTION_FAILURE, 0, []), m')
    /\ fd (inst m') = INVALID_SOCKET
    /\ state (inst m') = MEMCACHED_SERVER_STATE_NEW
    /\ error_messages (inst m') = (MEMCACHED_CONNECTION_FAILURE, 0) :: [].
Proof.
  apply (readline_at_eof eof_world false 0 80 fresh_conn no_calls).
  - discriminate.
  - reflexivity.
  - reflexivity.
  - reflexivity.
Defined.

(** ** Lifecycle: how the closing operations compose *)

Lemma closed_conn_fixed i : closed_conn (closed_conn i) = closed_conn i.
Proof.
  unfold closed_conn.
  destruct i as [fd0 ? ? ? ? ? ? ? ? ? ? ? ? ? ? ? ? ? [r|] ?]; cbn.
  - destruct (fd0 =? INVALID_SOCKET) eqn:E; cbn; [rewrite E; cbn|];
      destruct (memcached_is_udp r); reflexivity.
  - destruct (fd0 =? INVALID_SOCKET) eqn:E; cbn; [rewrite E; cbn|]; reflexivity.
Qed.

Lemma closed_calls_fixed i c : closed_calls (closed_conn i) c = c.
Proof.
  unfold closed_calls. rewrite fd_closed_conn. reflexivity.
Qed.

(** X17: closing is idempotent.  For every connection and every answer of
    the shutdown call, the state [close_socket] leaves is a fixed point: a
    second [close_socket] changes nothing in the connection and makes no
    system call. *)
Theorem close_socket_idempotent (w : world) (m : machine) :
  exists m1,
    close_socket w m = Done (tt, m1)
    /\ close_socket w m1 = Done (tt, m1).
Proof.
  eexists. split; [apply close_socket_eq|].
  rewrite close_socket_eq. cbn [inst sys].
  rewrite closed_conn_fixed, closed_calls_fixed. reflexivity.
Qed.

Lemma start_close_socket_eq (w : world) (m : machine) :
  start_close_socket w m
  = Done (tt, if negb (fd (inst m) =? INVALID_SOCKET)
              then mkMachine (set_is_shutting_down true (inst m)) (bump_shutdown (sys m))
              else m).
Proof.
  destruct m as [i c]. unfold start_close_socket. unfold_monad. cbn [inst sys].
  destruct (negb (fd i =? INVALID_SOCKET)); reflexivity.
Qed.

Lemma closed_conn_after_half_close i :
  closed_conn (set_is_shutting_down true i) = closed_conn i.
Proof.
  unfold closed_conn.
  destruct i as [fd0 ? ? ? ? ? ? ? ? ? ? ? ? ? ? ? ? ? [r|] ?]; cbn;
    destruct (fd0 =? INVALID_SOCKET); reflexivity.
Qed.

(** X18: a half-close followed by a close ends where a close alone ends.
    For every connection, [start_close_socket] followed by [close_socket]
    leaves the same connection as [close_socket] alone (in particular the
    shutdown flag is cleared again) and releases the descriptor the same
    number of times; it only issues one more shutdown call when the
    descriptor was valid, and none at all when it was not. *)
Theorem half_close_then_close (w : world) (m : machine) :
  exists m1 m2,
    bind (start_close_socket w) (fun _ => close_socket w) m = Done (tt, m1)
    /\ close_socket w m = Done (tt, m2)
    /\ inst m1 = inst m2
    /\ is_shutting_down (inst m1) = false
    /\ n_closesocket (sys m1) = n_closesocket (sys m2)
    /\ n_shutdown (sys m1)
       = (n_shutdown (sys m2)
          + if (fd (inst m) =? INVALID_SOCKET)%Z then 0 else 1)%nat.
Proof.
  unfold bind. rewrite start_close_socket_eq. rewrite !close_socket_eq.
  eexists _, _. split; [reflexivity|]. split; [reflexivity|].
  destruct m as [i c]. cbn [inst sys].
  destruct (fd i =? INVALID_SOCKET) eqn:E; cbn [negb inst sys].
  - split; [reflexivity|]. split.
    + unfold closed_conn. rewrite E. destruct i; reflexivity.
    + unfold closed_calls. rewrite E. cbn [negb]. split; lia.
  - rewrite closed_conn_after_half_close. split; [reflexivity|]. split.
    + unfold closed_conn. rewrite E. destruct i; reflexivity.
    + unfold closed_calls.
      replace (fd (set_is_shutting_down true i)) with (fd i) by (destruct i; reflexivity).
      rewrite E. cbn [negb]. destruct c; cbn. split; lia.
Qed.

(** ** Scatter-gather writer: parts that fit *)

Lemma io_writev_loop_buffered (w : world) (nd : bool) (fuel : nat) :
  forall vector i c ct t,
    fd i <> INVALID_SOCKET ->
    root_is_not_udp i = true ->
    0 <= write_buffer_offset i ->
    Forall (fun part => 0 <= length part) vector ->
    write_buffer_offset i + total_length vector < MEMCACHED_MAX_BUFFER ->
    exists ct' t',
      io_writev_loop w nd (S (S fuel)) vector ct t (mkMachine i c)
      = Done (Some (ct', t'),
              mkMachine (set_write_buffer_offset
                           (write_buffer_offset i + total_length vector) i) c).
Proof.
  induction vector as [|part vector IH]; intros i c ct t Hfd Hudp Hoff Hall Hfit.
  - cbn [io_writev_loop total_length fold_right]. unfold ret.
    rewrite Z.add_0_r, set_write_buffer_offset_same. eauto.
  - inversion Hall as [|? ? Hp Hrest]; subst.
    cbn [total_length fold_right] in Hfit. fold (total_length vector) in Hfit.
    assert (Htot : 0 <= total_length vector).
    { clear -Hrest. induction Hrest; cbn [total_length fold_right]; [lia|].
      fold (total_length l). lia. }
    rewrite io_writev_loop_cons. cbv zeta.
    cbn [total_length fold_right]. fold (total_length vector).
    destruct (length part =? 0) eqn:Ez; cbn [negb].
    + apply Z.eqb_eq in Ez. rewrite Ez in *.
      destruct (IH i c (wrap_ssize (ct + 0)) t Hfd Hudp Hoff Hrest ltac:(lia))
        as (ct' & t' & Run).
      rewrite Run. cbn [Z.add]. eauto.
    + unfold bind at 1.
      rewrite (io_write_small_buffered_eq w nd fuel (length part) (mkMachine i c)
                 Hfd Hudp Hoff Hp ltac:(cbn [inst]; lia)).
      cbn [negb inst sys].
      set (i1 := set_write_buffer_offset (write_buffer_offset i + length part) i).
      assert (Hi1 : fd i1 = fd i /\ root_is_not_udp i1 = root_is_not_udp i
                    /\ write_buffer_offset i1 = write_buffer_offset i + length part)
        by (subst i1; destruct i; repeat split).
      destruct Hi1 as (F1 & F2 & F3).
      destruct (IH i1 c (wrap_ssize (ct + length part))
                  (wrap_ssize (t + length part))) as (ct' & t' & Run).
      * rewrite F1. exact Hfd.
      * rewrite F2. exact Hudp.
      * rewrite F3. lia.
      * exact Hrest.
      * rewrite F3. lia.
      * rewrite Run. rewrite F3.
        replace (set_write_buffer_offset
                   (write_buffer_offset i + length part + total_length vector) i1)
          with (set_write_buffer_offset
                  (write_buffer_offset i + (length part + total_length vector)) i)
          by (subst i1; destruct i; cbn; f_equal; lia).
        eauto.
Qed.

Lemma io_writev_small_buffered_eq (w : world) (nd : bool) (fuel : nat)
        (vector : list libmemcached_io_vector_st)
        (i : memcached_instance_st) (c : calls) :
  fd i <> INVALID_SOCKET ->
  root_is_not_udp i = true ->
  0 <= write_buffer_offset i ->
  Forall (fun part => 0 <= length part) vector ->
  write_buffer_offset i + total_length vector < MEMCACHED_MAX_BUFFER ->
  memcached_io_writev w nd (S (S fuel)) vector false (mkMachine i c)
  = Done (true,
          mkMachine (set_write_buffer_offset
                       (write_buffer_offset i + total_length vector) i) c).
Proof.
  intros Hfd Hudp Hoff Hall Hfit.
  destruct (io_writev_loop_buffered w nd fuel vector i c 0 0 Hfd Hudp Hoff Hall Hfit)
    as (ct' & t' & Run).
  assert (ct' = t') by (eapply io_writev_loop_tallies; [|exact Run]; lia). subst t'.
  unfold memcached_io_writev, io_writev_tallied. unfold bind at 1 2.
  rewrite Run. unfold ret. rewrite Z.eqb_refl. reflexivity.
Qed.

(** X19: a request whose parts fit is only buffered.  On a connected
    stream connection, [memcached_io_writev] without flush of parts whose
    lengths, added to the pending bytes, stay below the buffer capacity
    returns [true] without any system call and has advanced the
    write-buffer offset by the sum of the part lengths (empty parts are
    skipped). *)
Theorem io_writev_small_is_buffered (w : world) (nd : bool) (fuel : nat)
        (vector : list libmemcached_io_vector_st)
        (i : memcached_instance_st) (c : calls) :
  fd i <> INVALID_SOCKET ->
  root_is_not_udp i = true ->
  0 <= write_buffer_offset i ->
  Forall (fun part => 0 <= length part) vector ->
  write_buffer_offset i + total_length vector < MEMCACHED_MAX_BUFFER ->
  memcached_io_writev w nd (S (S fuel)) vector false (mkMachine i c)
  = Done (true,
          mkMachine (set_write_buffer_offset
                       (write_buffer_offset i + total_length vector) i) c).
Proof. apply io_writev_small_buffered_eq. Qed.

Lemma io_writev_small_is_buffered_witness :
  memcached_io_writev quiet_world false 2 request_vector false
    (mkMachine fresh_conn no_calls)
  = Done (true,
          mkMachine (set_write_buffer_offset
                       (write_buffer_offset fresh_conn + total_length request_vector)
                       fresh_conn) no_calls).
Proof.
  apply (io_writev_small_is_buffered quiet_world false 0 request_vector
           fresh_conn no_calls).
  - discriminate.
  - reflexivity.
  - simpl. lia.
  - repeat constructor; simpl; lia.
  - vm_compute. reflexivity.
Defined.

(** X20: a request that fits, written with flush through a cooperating
    kernel, is sent in full.  On a connected stream connection, when the
    parts fit in the write buffer, the purge leaves the connection alone
    and every send call takes at least one byte, [memcached_io_writev]
    with flush returns [true], leaves the write buffer empty and has added
    the pending bytes plus the sum of the part lengths to the bytes-sent
    counter (modulo 2^32), in at most that many send calls. *)
Theorem io_writev_with_flush_sends_all (w : world) (nd : bool) (fuel : nat)
        (vector : list libmemcached_io_vector_st)
        (i : memcached_instance_st) (c : calls) :
  fd i <> INVALID_SOCKET ->
  root_is_not_udp i = true ->
  0 <= write_buffer_offset i ->
  Forall (fun part => 0 <= length part) vector ->
  write_buffer_offset i + total_length vector < MEMCACHED_MAX_BUFFER ->
  w_purge w (n_purge c)
    (set_write_buffer_offset (write_buffer_offset i + total_length vector) i)
  = (true, set_write_buffer_offset (write_buffer_offset i + total_length vector) i) ->
  (forall j, (j < Z.to_nat (write_buffer_offset i + total_length vector))%nat ->
     exists n, w_send w (n_send c + j) = IoLen n /\ 1 <= n) ->
  (Z.to_nat (write_buffer_offset i + total_length vector) < S (S fuel))%nat ->
  exists m',
    memcached_io_writev w nd (S (S fuel)) vector true (mkMachine i c) = Done (true, m')
    /\ write_buffer_offset (inst m') = 0
    /\ wrap32 (io_bytes_sent (inst m'))
       = wrap32 (io_bytes_sent i + (write_buffer_offset i + total_length vector))
    /\ (n_send (sys m')
        <= n_send c + Z.to_nat (write_buffer_offset i + total_length vector))%nat
    /\ fd (inst m') = fd i.
Proof.
  intros Hfd Hudp Hoff Hall Hfit Hpurge Hsend Hfuel.
  destruct (io_writev_loop_buffered w nd fuel vector i c 0 0 Hfd Hudp Hoff Hall Hfit)
    as (ct' & t' & Run).
  assert (ct' = t') by (eapply io_writev_loop_tallies; [|exact Run]; lia). subst t'.
  set (ib := set_write_buffer_offset (write_buffer_offset i + total_length vector) i) in *.
  assert (Hib : fd ib = fd i /\ root_is_not_udp ib = root_is_not_udp i
                /\ write_buffer_offset ib = write_buffer_offset i + total_length vector
                /\ io_bytes_sent ib = io_bytes_sent i)
    by (subst ib; destruct i; repeat split).
  destruct Hib as (F1 & F2 & F3 & F4).
  assert (Htot : 0 <= total_length vector).
  { clear -Hall. induction Hall; cbn [total_length fold_right]; [lia|].
    fold (total_length l). lia. }
  destruct (io_flush_drains_eq w (S (S fuel)) true (mkMachine ib c) ib)
    as (m' & Fl & Hzero & Hsent & Hcnt & Hfd').
  { exact Hpurge. }
  { rewrite F3. assert (MEMCACHED_MAX_BUFFER = 8196) by reflexivity. lia. }
  { rewrite F3. exact Hfuel. }
  { rewrite F3. exact Hsend. }
  exists m'. cbn [sys] in Hcnt. rewrite F3 in Hcnt, Hsent. rewrite F4 in Hsent.
  rewrite F1 in Hfd'.
  split; [|auto].
  unfold memcached_io_writev, io_writev_tallied. unfold bind at 1 2.
  rewrite Run. unfold bind at 1.
  unfold memcached_io_write_flush, _io_write.
  unfold bind at 1 2. unfold get_inst. cbn [inst].
  apply Z.eqb_neq in Hfd. unfold assert_. rewrite F1, F2, Hfd, Hudp.
  cbn [negb]. rewrite !orb_true_r.
  unfold bind at 1 2. unfold ret at 1 2.
  unfold bind at 1. cbn [io_write_loop Z.eqb]. unfold ret at 1.
  unfold bind at 1. rewrite Fl.
  unfold ret. cbn [negb]. rewrite Z.eqb_refl. reflexivity.
Qed.

Lemma io_writev_with_flush_sends_all_witness :
  exists m',
    memcached_io_writev two_bytes_world false 8 request_vector true
      (mkMachine fresh_conn no_calls) = Done (true, m')
    /\ write_buffer_offset (inst m') = 0
    /\ wrap32 (io_bytes_sent (inst m')) = wrap32 (0 + (0 + total_length request_vector))
    /\ (n_send (sys m') <= 0 + Z.to_nat (0 + total_length request_vector))%nat
    /\ fd (inst m') = 7.
Proof.
  apply (io_writev_with_flush_sends_all two_bytes_world false 6 request_vector
           fresh_conn no_calls).
  - discriminate.
  - reflexivity.
  - simpl. lia.
  - repeat constructor; simpl; lia.
  - vm_compute. reflexivity.
  - reflexivity.
  - intros j _. exists 2. split; [reflexivity | lia].
  - vm_compute. lia.
Defined.

(** ** The selector: what it hands back *)

Lemma first_index_some (p : memcached_instance_st -> bool) :
  forall servers x0 y,
    first_index p servers x0 = Some y ->
    (x0 <= y)%nat
    /\ exists instance,
         nth_error servers (y - x0) = Some instance /\ p instance = true.
Proof.
  induction servers as [|s servers IH]; intros x0 y H; cbn [first_index] in H.
  - discriminate.
  - destruct (p s) eqn:Ps.
    + injection H as <-. split; [lia|]. exists s. rewrite Nat.sub_diag. auto.
    + apply IH in H. destruct H as (Hle & instance & Hn & Hp). split; [lia|].
      exists instance. replace (y - x0)%nat with (S (y - S x0)) by lia. auto.
Qed.

Lemma first_index_none (p : memcached_instance_st -> bool) :
  forall servers x0,
    first_index p servers x0 = None <-> Forall (fun i => p i = false) servers.
Proof.
  induction servers as [|s servers IH]; intros x0; cbn [first_index].
  - split; auto.
  - destruct (p s) eqn:Ps.
    + split; [discriminate|]. intros H. inversion H; subst. congruence.
    + rewrite IH. split.
      * intros H. constructor; assumption.
      * intros H. inversion H; assumption.
Qed.

Lemma collect_pollable_inl :
  forall servers x0 fds x,
    collect_pollable servers x0 fds = inl x ->
    (x0 <= x)%nat
    /\ exists instance,
         nth_error servers (x - x0) = Some instance /\ buffered instance = true.
Proof.
  induction servers as [|s servers IH]; intros x0 fds x H; cbn [collect_pollable] in H.
  - discriminate.
  - destruct (Z.of_nat (List.length fds) <? MAX_SERVERS_TO_POLL); [|discriminate].
    destruct (0 <? read_buffer_length s) eqn:Bs.
    + injection H as <-. split; [lia|]. exists s. rewrite Nat.sub_diag. auto.
    + assert (Step : exists fds1, collect_pollable servers (S x0) fds1 = inl x)
        by (destruct (0 <? response_count s); eauto).
      destruct Step as (fds1 & Step). apply IH in Step.
      destruct Step as (Hle & instance & Hn & Hb). split; [lia|].
      exists instance. replace (x - x0)%nat with (S (x - S x0)) by lia. auto.
Qed.

Lemma collect_pollable_inr :
  forall servers x0 fds fds',
    collect_pollable servers x0 fds = inr fds' ->
    forall f, In f fds' ->
      In f fds \/ exists p, In p servers /\ pending p = true /\ fd p = f.
Proof.
  induction servers as [|s servers IH]; intros x0 fds fds' H f Hin;
    cbn [collect_pollable] in H.
  - injection H as <-. auto.
  - destruct (Z.of_nat (List.length fds) <? MAX_SERVERS_TO_POLL).
    2:{ injection H as <-. auto. }
    destruct (0 <? read_buffer_length s); [discriminate|].
    destruct (0 <? response_count s) eqn:Ps.
    + destruct (IH _ _ _ H f Hin) as [Hf | (p & Hp & Hpend & Hfd)].
      * apply in_app_or in Hf. destruct Hf as [Hf | [<- | []]]; [auto|].
        right. exists s. repeat split; [left; reflexivity | exact Ps].
      * right. exists p. repeat split; [right|..]; assumption.
    + destruct (IH _ _ _ H f Hin) as [Hf | (p & Hp & Hpend & Hfd)]; [auto|].
      right. exists p. repeat split; [right|..]; assumption.
Qed.

Lemma first_readable_some (servers : list memcached_instance_st) :
  forall fds revents y,
    first_readable servers fds revents = Some y ->
    exists instance, nth_error servers y = Some instance /\ In (fd instance) fds.
Proof.
  induction fds as [|fdx fds IH]; intros revents y H; cbn [first_readable] in H.
  - discriminate.
  - destruct revents as [|rev revents]; [discriminate|].
    assert (Rest : first_readable servers fds revents = Some y ->
                   exists instance,
                     nth_error servers y = Some instance /\ In (fd instance) (fdx :: fds)).
    { intros R. destruct (IH _ _ R) as (instance & Hn & Hin).
      exists instance. split; [assumption | right; assumption]. }
    destruct (has_bit rev POLLIN); [|auto].
    destruct (first_index (fun instance => fd instance =? fdx) servers 0) as [y'|] eqn:Fi;
      [|auto].
    injection H as <-. apply first_index_some in Fi.
    destruct Fi as (_ & instance & Hn & Hfd). rewrite Nat.sub_0_r in Hn.
    exists instance. split; [assumption|]. left. symmetry. apply Z.eqb_eq. exact Hfd.
Qed.

Lemma collect_pollable_idle :
  forall servers x0 fds,
    Forall (fun i => idle i = true) servers ->
    collect_pollable servers x0 fds = inr fds.
Proof.
  induction servers as [|s servers IH]; intros x0 fds H; cbn [collect_pollable].
  - reflexivity.
  - inversion H as [|? ? Hs Hrest]; subst.
    unfold idle, buffered, pending in Hs. apply andb_true_iff in Hs.
    destruct Hs as (Hb & Hp). apply negb_true_iff in Hb, Hp. rewrite Hb, Hp.
    rewrite (IH _ _ Hrest).
    destruct (Z.of_nat (List.length fds) <? MAX_SERVERS_TO_POLL); reflexivity.
Qed.

Lemma collect_pollable_none_pending :
  forall servers x0 fds',
    Forall (fun i => pending i = false) servers ->
    collect_pollable servers x0 [] = inr fds' ->
    Forall (fun i => idle i = true) servers.
Proof.
  induction servers as [|s servers IH]; intros x0 fds' Hp H; [constructor|].
  inversion Hp as [|? ? Hs Hrest]; subst.
  cbn [collect_pollable List.length] in H.
  change (Z.of_nat 0 <? MAX_SERVERS_TO_POLL) with true in H. cbv iota in H.
  destruct (0 <? read_buffer_length s) eqn:Bs; [discriminate|].
  unfold pending in Hs. rewrite Hs in H.
  constructor.
  - unfold idle, buffered, pending. rewrite Bs, Hs. reflexivity.
  - eapply IH; eassumption.
Qed.

(** X21: the selector hands back a connection of the owner that is worth
    reading.  Whenever [memcached_io_get_readable_server] returns a
    connection, the index is inside the server list and the owner is
    unchanged; when no poll was issued that connection holds buffered data
    or awaits a response, and after a poll its descriptor is the
    descriptor of a connection that awaits a response. *)
Theorem selector_returns_a_member (answer : poll_many_result) (memc memc' : Memcached)
        (servers : list memcached_instance_st) (x polls : nat) :
  memcached_io_get_readable_server answer memc servers = (Some x, memc', polls) ->
  memc' = memc
  /\ exists instance,
       nth_error servers x = Some instance
       /\ match polls with
          | O => buffered instance = true \/ pending instance = true
          | S _ => exists p, In p servers /\ pending p = true /\ fd p = fd instance
          end.
Proof.
  unfold memcached_io_get_readable_server. intros H.
  destruct (collect_pollable servers 0 []) as [x'|fds] eqn:Col.
  - injection H as <- <- <-. split; [reflexivity|].
    apply collect_pollable_inl in Col. destruct Col as (_ & instance & Hn & Hb).
    rewrite Nat.sub_0_r in Hn. exists instance. auto.
  - destruct (Z.of_nat (List.length fds) <? 2).
    + injection H as Fi <- <-. split; [reflexivity|].
      apply first_index_some in Fi. destruct Fi as (_ & instance & Hn & Hp).
      rewrite Nat.sub_0_r in Hn. exists instance. auto.
    + destruct answer as [errno| |revents]; try discriminate.
      injection H as Fr <- <-. split; [reflexivity|].
      apply first_readable_some in Fr. destruct Fr as (instance & Hn & Hin).
      exists instance. split; [assumption|].
      destruct (collect_pollable_inr _ _ _ _ Col _ Hin) as [[] | Hp]. exact Hp.
Qed.

Lemma selector_returns_a_member_witness :
  tcp_root = tcp_root
  /\ exists instance,
       nth_error [pending_conn; busy_conn; fresh_conn] 1 = Some instance
       /\ exists p, In p [pending_conn; busy_conn; fresh_conn]
                    /\ pending p = true /\ fd p = fd instance.
Proof.
  apply (selector_returns_a_member (PollManyActive [0; POLLIN]) tcp_root tcp_root
           [pending_conn; busy_conn; fresh_conn] 1 1).
  vm_compute. reflexivity.
Defined.

(** X22: the selector gives up without polling exactly when there is
    nothing to wait for.  [memcached_io_get_readable_server] returns no
    connection and issues no poll if and only if no connection of the
    owner holds buffered data or awaits a response. *)
Theorem selector_null_without_poll_iff_idle (answer : poll_many_result)
        (memc : Memcached) (servers : list memcached_instance_st) :
  memcached_io_get_readable_server answer memc servers = (None, memc, 0%nat)
  <-> Forall (fun i => idle i = true) servers.
Proof.
  unfold memcached_io_get_readable_server. split.
  - intros H. destruct (collect_pollable servers 0 []) as [x'|fds] eqn:Col; [discriminate|].
    destruct (Z.of_nat (List.length fds) <? 2).
    + injection H as Fi. apply first_index_none in Fi.
      eapply collect_pollable_none_pending; eassumption.
    + destruct answer; discriminate.
  - intros H. rewrite (collect_pollable_idle servers 0 [] H).
    cbn [List.length]. change (Z.of_nat 0 <? 2) with true. cbv iota.
    replace (first_index (fun instance => 0 <? response_count instance) servers 0)
      with (@None nat); [reflexivity|].
    symmetry. apply first_index_none.
    eapply Forall_impl; [|exact H]. intros i Hi. cbv beta in *.
    unfold idle, pending in Hi. apply andb_true_iff in Hi.
    destruct Hi as (_ & Hp). apply negb_true_iff in Hp. exact Hp.
Qed.

Lemma selector_null_without_poll_iff_idle_witness :
  memcached_io_get_readable_server PollManyNone tcp_root [fresh_conn; fresh_conn]
  = (None, tcp_root, 0%nat).
Proof.
  apply (proj2 (selector_null_without_poll_iff_idle PollManyNone tcp_root
                  [fresh_conn; fresh_conn])).
  repeat constructor.
Defined.

(** ** Datagram send: the header slot *)

Lemma udp_fields_after_error (e : error_t) (l : list error_t) i :
  udp_request_id (set_error_messages l (record_on_root e i)) = udp_request_id i.
Proof.
  unfold record_on_root.
  destruct i as [? ? ? ? ? ? ? ? ? ? ? ? ? ? ? ? ? ? [r|] ?]; reflexivity.
Qed.

Lemma vdo_udp_loop_keeps_id (w : world) :
  forall (retry : nat) (m : machine) rc m',
    vdo_udp_loop w retry m = Done (rc, m') ->
    udp_request_id (inst m') = udp_request_id (inst m)
    /\ write_buffer_offset (inst m') = write_buffer_offset (inst m)
    /\ n_send (sys m') = n_send (sys m)
    /\ (n_sendmsg (sys m) <= n_sendmsg (sys m'))%nat
    /\ (2 <= retry -> n_sendmsg (sys m) < n_sendmsg (sys m'))%nat.
Proof.
  induction retry as [|retry IH]; intros m rc m' Run.
  - cbn in Run. injection Run as <- <-. repeat split; lia.
  - destruct retry as [|retry'].
    + cbn in Run. injection Run as <- <-. repeat split; lia.
    + destruct m as [i c].
      change (vdo_udp_loop w (S (S retry')) (mkMachine i c))
        with (bind (sys_sendmsg w)
                (fun sendmsg_length =>
                   match sendmsg_length with
                   | IoLen n => if 0 <? n then ret MEMCACHED_SUCCESS
                                else vdo_udp_loop w (S retry')
                   | IoErr errno =>
                       if errno =? EMSGSIZE
                       then memcached_set_error MEMCACHED_WRITE_FAILURE
                       else memcached_set_errno errno
                   end) (mkMachine i c)) in Run.
      cbv beta iota delta [bind sys_sendmsg get_sys put_sys ret] in Run.
      cbn [sys inst] in Run.
      assert (Hm : n_sendmsg (bump_sendmsg c) = S (n_sendmsg c)
                   /\ n_send (bump_sendmsg c) = n_send c) by (destruct c; split; reflexivity).
      destruct Hm as (Hm & Hs).
      destruct (w_sendmsg w (n_sendmsg c)) as [e|n].
      * destruct (e =? EMSGSIZE); cbv beta iota in Run;
          [rewrite set_error_run in Run | rewrite set_errno_run in Run];
          injection Run as <- <-; cbn [sys inst];
          rewrite udp_fields_after_error,
                  (proj2 (proj2 (proj2 (fd_state_after_error _ _ _)))), Hm, Hs;
          repeat split; lia.
      * destruct (0 <? n); cbv beta iota in Run.
        -- injection Run as <- <-. cbn [sys inst]. rewrite Hm, Hs. repeat split; lia.
        -- apply IH in Run. cbn [sys inst] in Run. rewrite Hm, Hs in Run.
           destruct Run as (A & B & C & D & _). cbn [sys inst]. repeat split; try assumption; lia.
Qed.

(** X23: a datagram is attempted exactly when the header slot is free.
    For a connection with an owner, [_vdo_udp] always returns, never uses
    the stream send call and never moves the write-buffer offset.  When
    the first part of the vector is already populated it returns
    NOT_SUPPORTED without any system call, leaves the message id and the
    connection's own error list alone and records the error on the owner;
    when the slot is free it advances the message id by one (modulo 2^16)
    and calls the datagram send at least once. *)
Theorem vdo_udp_sends_iff_slot_free (w : world) first rest (m : machine)
        (r : Memcached) :
  root (inst m) = Some r ->
  exists rc m',
    _vdo_udp w (first :: rest) m = Done (rc, m')
    /\ n_send (sys m') = n_send (sys m)
    /\ write_buffer_offset (inst m') = write_buffer_offset (inst m)
    /\ if vector_slot_used first
       then rc = MEMCACHED_NOT_SUPPORTED
            /\ sys m' = sys m
            /\ udp_request_id (inst m') = udp_request_id (inst m)
            /\ error_messages (inst m') = error_messages (inst m)
            /\ root (inst m')
               = Some (set_memc_error_messages
                         ((MEMCACHED_NOT_SUPPORTED, 0) :: memc_error_messages r) r)
       else (n_sendmsg (sys m) < n_sendmsg (sys m'))%nat
            /\ udp_request_id (inst m') = (udp_request_id (inst m) + 1) mod 2 ^ 16.
Proof.
  intros Hr. destruct (vector_slot_used first) eqn:Used.
  - unfold _vdo_udp. rewrite Used. unfold memcached_set_error_root.
    unfold bind, get_root, modify, ret. rewrite Hr. cbn [sys inst].
    eexists _, _. split; [reflexivity|]. cbn [sys inst].
    destruct m as [i c]. cbn [sys inst] in *. unfold record_on_root. rewrite Hr.
    destruct i; repeat split.
  - rewrite (vdo_udp_unfold w first rest m Used).
    destruct (vdo_udp_loop_spec w 5 (mkMachine (increment_udp_message_id (inst m)) (sys m)))
      as (rc & m' & k & Run & _).
    exists rc, m'. split; [exact Run|].
    apply vdo_udp_loop_keeps_id in Run. cbn [sys inst] in Run.
    destruct Run as (A & B & C & _ & E).
    split; [exact C|]. split; [rewrite B; destruct (inst m); reflexivity|].
    split; [apply E; lia|]. rewrite A. destruct (inst m); reflexivity.
Qed.

Lemma vdo_udp_sends_iff_slot_free_witness :
  exists rc m',
    _vdo_udp quiet_world get_vector (mkMachine udp_conn no_calls) = Done (rc, m')
    /\ n_send (sys m') = 0%nat
    /\ write_buffer_offset (inst m') = 8
    /\ rc = MEMCACHED_NOT_SUPPORTED
    /\ sys m' = no_calls
    /\ udp_request_id (inst m') = 41
    /\ error_messages (inst m') = []
    /\ root (inst m')
       = Some (set_memc_error_messages
                 ((MEMCACHED_NOT_SUPPORTED, 0) :: memc_error_messages udp_root) udp_root).
Proof.
  apply (vdo_udp_sends_iff_slot_free quiet_world (mkVector (Some [103; 101; 116]) 3) []
           (mkMachine udp_conn no_calls) udp_root).
  reflexivity.
Defined.

(** ** Request dispatch on a stream connection *)

(** X24: a request that fits is buffered after the connect and counted as
    awaiting its reply.  When the connect step answers a code that is not
    a failure and leaves a connected stream connection, and the parts of
    the request fit in the write buffer, [memcached_vdo] without flush
    returns the code of the connect step, makes no system call, advances
    the write-buffer offset by the sum of the part lengths and increments
    the pending-response count exactly when the owner expects replies. *)
Theorem vdo_buffers_and_counts_reply (w : world) (nd : bool) (fuel : nat)
        (vector : list libmemcached_io_vector_st)
        (i i1 : memcached_instance_st) (c : calls)
        (rc : memcached_return_t) (r : Memcached) :
  w_connect w (n_connect c) i = (rc, i1) ->
  memcached_failed rc = false ->
  fd i1 <> INVALID_SOCKET ->
  root i1 = Some r ->
  memcached_is_udp r = false ->
  0 <= write_buffer_offset i1 ->
  Forall (fun part => 0 <= length part) vector ->
  write_buffer_offset i1 + total_length vector < MEMCACHED_MAX_BUFFER ->
  memcached_vdo w nd (S (S fuel)) vector false (mkMachine i c)
  = Done (rc,
          mkMachine
            (let i2 := set_write_buffer_offset
                         (write_buffer_offset i1 + total_length vector) i1 in
             if is_replying r
             then set_cursor_active_ (wrap32 (cursor_active_ i2 + 1)) i2
             else i2)
            (bump_connect c)).
Proof.
  intros Hconn Hrc Hfd Hr Hudp Hoff Hall Hfit.
  assert (Hstream : root_is_not_udp i1 = true)
    by (unfold root_is_not_udp; rewrite Hr, Hudp; reflexivity).
  pose proof (io_writev_small_buffered_eq w nd fuel vector i1 (bump_connect c)
                Hfd Hstream Hoff Hall Hfit) as Run.
  unfold memcached_vdo, memcached_connect.
  cbv beta iota delta [bind get_sys get_inst put_inst put_sys ret get_root modify].
  cbn [sys inst]. rewrite Hconn. cbv beta iota. cbn [sys inst]. rewrite Hrc.
  cbn [inst]. rewrite Hr. cbv beta iota. rewrite Hudp.
  rewrite Run. cbn [negb inst sys].
  replace (root (set_write_buffer_offset (write_buffer_offset i1 + total_length vector) i1))
    with (Some r) by (rewrite <- Hr; destruct i1; reflexivity).
  destruct (is_replying r); reflexivity.
Qed.

Lemma vdo_buffers_and_counts_reply_witness :
  memcached_vdo quiet_world false 2 request_vector false (mkMachine fresh_conn no_calls)
  = Done (MEMCACHED_SUCCESS,
          mkMachine
            (let i2 := set_write_buffer_offset
                         (write_buffer_offset fresh_conn + total_length request_vector)
                         fresh_conn in
             if is_replying tcp_root
             then set_cursor_active_ (wrap32 (cursor_active_ i2 + 1)) i2
             else i2)
            (bump_connect no_calls)).
Proof.
  apply (vdo_buffers_and_counts_reply quiet_world false 0 request_vector
           fresh_conn fresh_conn no_calls MEMCACHED_SUCCESS tcp_root).
  - reflexivity.
  - reflexivity.
  - discriminate.
  - reflexivity.
  - reflexivity.
  - simpl. lia.
  - repeat constructor; simpl; lia.
  - vm_compute. reflexivity.
Defined.

(** ** The poll gate transfers nothing *)

Lemma same_transfers_refl c : same_transfers c c.
Proof. repeat split. Qed.

Lemma same_transfers_trans c1 c2 c3 :
  same_transfers c1 c2 -> same_transfers c2 c3 -> same_transfers c1 c3.
Proof. unfold same_transfers. intuition congruence. Qed.

Lemma same_transfers_closed_calls i c : same_transfers c (closed_calls i c).
Proof.
  unfold closed_calls. destruct (negb (fd i =? INVALID_SOCKET)); destruct c; repeat split.
Qed.

Lemma same_transfers_bump_poll c : same_transfers c (bump_poll c).
Proof. destruct c; repeat split. Qed.

Lemma same_transfers_bump_getsockopt c : same_transfers c (bump_getsockopt c).
Proof. destruct c; repeat split. Qed.

Lemma same_transfers_bump_purge c : same_transfers c (bump_purge c).
Proof. destruct c; repeat split. Qed.

Lemma io_wait_body_keeps_transfers (w : world) (m : machine)
      (f : flow memcached_return_t) (m' : machine) :
  io_wait_body w m = Done (f, m') -> same_transfers (sys m) (sys m').
Proof.
  unfold io_wait_body. intros H.
  apply bind_Done in H. destruct H as (a & m1 & Hp & H).
  assert (S1 : same_transfers (sys m) (sys m1)).
  { unfold sys_poll in Hp. cbv beta iota delta [bind get_sys put_sys ret] in Hp.
    injection Hp as _ <-. cbn [sys]. apply same_transfers_bump_poll. }
  eapply same_transfers_trans; [exact S1|]. clear S1 Hp.
  destruct a as [e| |revents].
  - destruct (is_EINTR_or_ERESTART e).
    + injection H as _ <-. apply same_transfers_refl.
    + destruct ((e =? EFAULT) || (e =? ENOMEM)); destruct (e =? EINVAL);
        cbv beta iota delta [orb bind ret memcached_set_error memcached_set_errno modify] in H;
        injection H as _ <-; apply same_transfers_refl.
  - cbv beta iota delta [bind ret memcached_set_error modify] in H.
    injection H as _ <-. apply same_transfers_refl.
  - destruct (has_bit revents POLLIN || has_bit revents POLLOUT).
    { injection H as _ <-. apply same_transfers_refl. }
    destruct (has_bit revents POLLHUP).
    { cbv beta iota delta [bind ret memcached_set_error modify] in H.
      injection H as _ <-. apply same_transfers_refl. }
    destruct (has_bit revents POLLERR).
    2:{ cbv beta iota delta [bind ret memcached_set_error modify] in H.
        injection H as _ <-. apply same_transfers_refl. }
    apply bind_Done in H. destruct H as (err & m2 & Hg & H).
    assert (S2 : same_transfers (sys m1) (sys m2)).
    { unfold sys_getsockopt in Hg. cbv beta iota delta [bind get_sys put_sys ret] in Hg.
      injection Hg as _ <-. cbn [sys]. apply same_transfers_bump_getsockopt. }
    eapply same_transfers_trans; [exact S2|]. clear S2 Hg.
    assert (Close : forall e0,
               (memcached_quit_server w ;; rc <- memcached_set_errno e0 ;; ret (Return rc)) m2
               = Done (f, m') -> same_transfers (sys m2) (sys m')).
    { intros e0 K. unfold memcached_quit_server in K. unfold bind at 1 in K.
      rewrite close_socket_eq in K. unfold bind in K. rewrite set_errno_run in K.
      injection K as _ <-. cbn [sys inst]. apply same_transfers_closed_calls. }
    destruct err as [z|]; [|eapply Close; exact H].
    destruct z; [injection H as _ <-; apply same_transfers_refl | |];
      eapply Close; exact H.
Qed.

Lemma io_wait_loop_keeps_transfers (w : world) :
  forall (loop_max : nat) (m : machine) r m',
    io_wait_loop w loop_max m = Done (r, m') -> same_transfers (sys m) (sys m').
Proof.
  induction loop_max as [|n IH]; intros m r m' H.
  - injection H as _ <-. apply same_transfers_refl.
  - destruct n as [|n].
    + injection H as _ <-. apply same_transfers_refl.
    + rewrite io_wait_loop_SS in H.
      apply bind_Done in H. destruct H as (f & m1 & Hb & H).
      apply io_wait_body_keeps_transfers in Hb.
      eapply same_transfers_trans; [exact Hb|].
      destruct f as [rc| |].
      * injection H as _ <-. apply same_transfers_refl.
      * eapply IH; exact H.
      * injection H as _ <-. apply same_transfers_refl.
Qed.

Lemma io_wait_keeps_transfers (w : world) (events : Z) (m : machine)
      (rc : memcached_return_t) (m' : machine) :
  io_wait w events m = Done (rc, m') -> same_transfers (sys m) (sys m').
Proof.
  unfold io_wait. intros H.
  apply bind_Done in H. destruct H as (purged & m1 & Hp & H).
  assert (S1 : same_transfers (sys m) (sys m1)).
  { destruct (has_bit events POLLOUT).
    - unfold memcached_purge in Hp.
      cbv beta iota delta [bind get_sys get_inst put_inst put_sys ret] in Hp.
      destruct (w_purge w (n_purge (sys m)) (inst m)) as [ok i'].
      injection Hp as _ <-. cbn [sys]. apply same_transfers_bump_purge.
    - injection Hp as _ <-. apply same_transfers_refl. }
  eapply same_transfers_trans; [exact S1|]. clear S1 Hp.
  destruct (negb purged).
  { injection H as _ <-. apply same_transfers_refl. }
  apply bind_Done in H. destruct H as (u & m2 & Hc & H).
  assert (S2 : sys m2 = sys m1).
  { destruct (has_bit events POLLOUT); injection Hc as _ <-; reflexivity. }
  rewrite <- S2. clear S2 Hc.
  apply bind_Done in H. destruct H as (r & m3 & Hr & H).
  assert (S3 : m3 = m2).
  { unfold get_root in Hr. destruct (root (inst m2)); [|discriminate].
    injection Hr as _ <-. reflexivity. }
  subst m3. clear Hr.
  destruct (poll_timeout r =? 0).
  { rewrite set_error_run in H. injection H as _ <-. apply same_transfers_refl. }
  apply bind_Done in H. destruct H as (looped & m4 & Hl & H).
  apply io_wait_loop_keeps_transfers in Hl.
  eapply same_transfers_trans; [exact Hl|].
  destruct looped as [rc0|].
  { injection H as _ <-. apply same_transfers_refl. }
  unfold memcached_quit_server in H. unfold bind at 1 in H.
  rewrite close_socket_eq in H. unfold bind, get_inst in H. cbn [inst] in H.
  destruct (memcached_has_error (closed_conn (inst m4))).
  - injection H as _ <-. cbn [sys]. apply same_transfers_closed_calls.
  - rewrite set_error_run in H. injection H as _ <-. cbn [sys].
    apply same_transfers_closed_calls.
Qed.

(** ** Draining a dying connection *)

Lemma guarded_assert_Done (nd b : bool) (line : Z) (cond : bool) (m : machine)
      (r : unit * machine) :
  (if b then assert_ nd line cond else ret tt) m = Done r -> r = (tt, m).
Proof.
  destruct b; [apply assert_Done | unfold ret; congruence].
Qed.

Lemma io_slurp_loop_outcome (w : world) (nd : bool) :
  forall (fuel : nat) (m : machine) rc m',
    io_slurp_loop w nd fuel m = Done (rc, m') ->
    (rc = MEMCACHED_CONNECTION_FAILURE \/ rc = MEMCACHED_IN_PROGRESS)
    /\ (n_recv (sys m) < n_recv (sys m'))%nat.
Proof.
  induction fuel as [|fuel IH]; intros m rc m' H; [discriminate|].
  cbn [io_slurp_loop] in H.
  apply bind_Done in H. destruct H as (dr & m1 & Hrecv & H).
  assert (Hcnt : n_recv (sys m1) = S (n_recv (sys m))).
  { unfold sys_recv in Hrecv.
    cbv beta iota delta [bind get_sys put_sys ret] in Hrecv. cbn [sys inst] in Hrecv.
    injection Hrecv as _ <-. cbn [sys]. apply n_recv_bump_recv. }
  destruct dr as [e|data].
  - destruct (e =? EINTR).
    { injection H as <- <-. split; [auto | lia]. }
    destruct ((e =? ETIMEDOUT) || (e =? EAGAIN) || (e =? ERESTART)).
    + apply bind_Done in H. destruct H as (rc0 & m2 & Hw & H).
      assert (Hkeep : (n_recv (sys m1) <= n_recv (sys m2))%nat).
      { apply io_wait_keeps_transfers in Hw. destruct Hw as (K & _). lia. }
      destruct (memcached_success rc0); injection H as <- <-; split; auto; lia.
    + apply bind_Done in H. destruct H as (u1 & m2 & H1 & H).
      apply bind_Done in H. destruct H as (u2 & m3 & H2 & H).
      apply bind_Done in H. destruct H as (i3 & m4 & H3 & H).
      apply bind_Done in H. destruct H as (u4 & m5 & H4 & H).
      injection H as <- <-.
      apply guarded_assert_Done in H1, H2, H4.
      assert (E3 : m4 = m3) by (injection H3 as _ <-; reflexivity).
      assert (m5 = m1) by congruence.
      subst. split; [auto | lia].
  - apply bind_Done in H. destruct H as (u & m2 & Hmod & H).
    injection Hmod as _ <-.
    destruct (0 <? _).
    + apply IH in H. cbn [sys] in H. split; [apply H | lia].
    + injection H as <- <-. cbn [sys]. split; [auto | lia].
Qed.

(** X25: [memcached_io_slurp] never reports success.  Whenever it returns
    on a connection with a live descriptor, the code is CONNECTION_FAILURE
    or IN_PROGRESS and at least one receive call has been made. *)
Theorem io_slurp_never_succeeds (w : world) (nd : bool) (fuel : nat)
        (m m' : machine) (rc : memcached_return_t) :
  fd (inst m) <> INVALID_SOCKET ->
  memcached_io_slurp w nd fuel m = Done (rc, m') ->
  (rc = MEMCACHED_CONNECTION_FAILURE \/ rc = MEMCACHED_IN_PROGRESS)
  /\ (n_recv (sys m) < n_recv (sys m'))%nat.
Proof.
  intros Hfd H. unfold memcached_io_slurp in H.
  apply bind_Done in H. destruct H as (i & m1 & Hi & H).
  injection Hi as <- <-.
  apply bind_Done in H. destruct H as (u & m2 & Ha & H).
  apply assert_Done in Ha. injection Ha as _ ->.
  apply Z.eqb_neq in Hfd. cbn [inst] in H. rewrite Hfd in H.
  eapply io_slurp_loop_outcome; eassumption.
Qed.

Lemma io_slurp_never_succeeds_witness :
  (MEMCACHED_CONNECTION_FAILURE = MEMCACHED_CONNECTION_FAILURE
   \/ MEMCACHED_CONNECTION_FAILURE = MEMCACHED_IN_PROGRESS)
  /\ (n_recv (sys (mkMachine fresh_conn no_calls))
      < n_recv (sys (mkMachine
                       (set_read_buffer (store_bytes (read_buffer fresh_conn) 0 [])
                          fresh_conn)
                       (bump_recv no_calls))))%nat.
Proof.
  apply (io_slurp_never_succeeds eof_world false 1
           (mkMachine fresh_conn no_calls)
           (mkMachine (set_read_buffer (store_bytes (read_buffer fresh_conn) 0 [])
                         fresh_conn)
                      (bump_recv no_calls)) MEMCACHED_CONNECTION_FAILURE).
  - discriminate.
  - vm_compute. reflexivity.
Defined.

Lemma set_read_buffer_twice b1 b2 i :
  set_read_buffer b2 (set_read_buffer b1 i) = set_read_buffer b2 i.
Proof. destruct i; reflexivity. Qed.

Lemma io_slurp_loop_drains (w : world) (nd : bool) (fuel : nat) :
  forall (k : nat) (i : memcached_instance_st) (c : calls),
    (forall j, (j < k)%nat ->
       exists data, w_recv w (n_recv c + j) = RecvData data /\ data <> []) ->
    w_recv w (n_recv c + k) = RecvData [] ->
    exists buf,
      io_slurp_loop w nd (S k + fuel) (mkMachine i c)
      = Done (MEMCACHED_CONNECTION_FAILURE,
              mkMachine (set_read_buffer buf i) (Nat.iter (S k) bump_recv c)).
Proof.
  induction k as [|k IH]; intros i c Hdata Heof.
  - rewrite Nat.add_0_r in Heof.
    cbn [Nat.add io_slurp_loop]. unfold sys_recv.
    cbv beta iota delta [bind get_sys put_sys ret modify]. cbn [sys inst].
    rewrite Heof. cbv beta iota. rewrite firstn_nil. cbn [List.length Z.of_nat Z.ltb Z.compare].
    eexists. reflexivity.
  - destruct (Hdata 0%nat ltac:(lia)) as (data & Hrecv & Hne).
    rewrite Nat.add_0_r in Hrecv.
    destruct (IH (set_read_buffer
                    (store_bytes (read_buffer i) 0
                                 (firstn (Z.to_nat MEMCACHED_MAX_BUFFER) data)) i)
                 (bump_recv c)) as (buf & Run).
    { intros j Hj. rewrite n_recv_bump_recv.
      replace (S (n_recv c) + j)%nat with (n_recv c + S j)%nat by lia.
      apply Hdata. lia. }
    { rewrite n_recv_bump_recv.
      replace (S (n_recv c) + k)%nat with (n_recv c + S k)%nat by lia. exact Heof. }
    exists buf. rewrite set_read_buffer_twice in Run.
    rewrite <- Nat.iter_succ_r in Run.
    change (S (S k) + fuel)%nat with (S (S k + fuel)).
    cbn [io_slurp_loop]. unfold sys_recv.
    cbv beta iota delta [bind get_sys put_sys ret modify]. cbn [sys inst].
    rewrite Hrecv. cbv beta iota.
    replace (0 <? Z.of_nat (List.length (firstn (Z.to_nat MEMCACHED_MAX_BUFFER) data)))
      with true.
    + exact Run.
    + symmetry. apply Z.ltb_lt.
      destruct (Z.to_nat MEMCACHED_MAX_BUFFER) eqn:E; [vm_compute in E; discriminate|].
      destruct data as [|d data]; [congruence|]. cbn [firstn List.length]. lia.
Qed.

(** X26: [memcached_io_slurp] discards what the peer still sends until the
    end of the stream.  On a connected stream connection whose peer
    delivers [k] non-empty chunks and then closes, the call returns
    CONNECTION_FAILURE after exactly [k + 1] receive calls; it makes no
    other system call, keeps the descriptor open and changes nothing of
    the connection but the bytes of the read buffer (the buffer tallies
    stay as they were). *)
Theorem io_slurp_drains_to_eof (w : world) (nd : bool) (k fuel : nat)
        (i : memcached_instance_st) (c : calls) :
  fd i <> INVALID_SOCKET ->
  root_is_not_udp i = true ->
  (forall j, (j < k)%nat ->
     exists data, w_recv w (n_recv c + j) = RecvData data /\ data <> []) ->
  w_recv w (n_recv c + k) = RecvData [] ->
  exists buf,
    memcached_io_slurp w nd (S k + fuel) (mkMachine i c)
    = Done (MEMCACHED_CONNECTION_FAILURE,
            mkMachine (set_read_buffer buf i) (Nat.iter (S k) bump_recv c)).
Proof.
  intros Hfd Hstream Hdata Heof.
  destruct (io_slurp_loop_drains w nd fuel k i c Hdata Heof) as (buf & Run).
  exists buf. unfold memcached_io_slurp.
  unfold bind at 1. unfold get_inst. cbn [inst].
  unfold assert_. rewrite Hstream, orb_true_r.
  unfold bind at 1. unfold ret at 1.
  apply Z.eqb_neq in Hfd. rewrite Hfd. exact Run.
Qed.

Lemma io_slurp_drains_to_eof_witness :
  exists buf,
    memcached_io_slurp trickle_world false (3 + 0) (mkMachine fresh_conn no_calls)
    = Done (MEMCACHED_CONNECTION_FAILURE,
            mkMachine (set_read_buffer buf fresh_conn) (Nat.iter 3 bump_recv no_calls)).
Proof.
  apply (io_slurp_drains_to_eof trickle_world false 2 0 fresh_conn no_calls).
  - discriminate.
  - reflexivity.
  - intros j Hj. exists [104; 105]. split; [|discriminate].
    destruct j as [|[|j]]; [reflexivity | reflexivity | lia].
  - reflexivity.
Defined.

(** X27: the poll gate transfers no data.  Whatever the kernel answers,
    a call of [io_wait] that returns has made no receive, send or datagram
    send call: it only purges, polls, queries the socket error and, when
    it gives up, shuts the descriptor down. *)
Theorem io_wait_transfers_nothing (w : world) (events : Z) (m m' : machine)
        (rc : memcached_return_t) :
  io_wait w events m = Done (rc, m') ->
  n_recv (sys m') = n_recv (sys m)
  /\ n_send (sys m') = n_send (sys m)
  /\ n_sendmsg (sys m') = n_sendmsg (sys m).
Proof. apply io_wait_keeps_transfers. Qed.

Lemma io_wait_transfers_nothing_witness :
  n_recv (sys (mkMachine (count_wait POLLIN fresh_conn) (bump_poll no_calls)))
  = n_recv (sys (mkMachine fresh_conn no_calls))
  /\ n_send (sys (mkMachine (count_wait POLLIN fresh_conn) (bump_poll no_calls)))
     = n_send (sys (mkMachine fresh_conn no_calls))
  /\ n_sendmsg (sys (mkMachine (count_wait POLLIN fresh_conn) (bump_poll no_calls)))
     = n_sendmsg (sys (mkMachine fresh_conn no_calls)).
Proof.
  apply (io_wait_transfers_nothing quiet_world POLLIN (mkMachine fresh_conn no_calls)
           (mkMachine (count_wait POLLIN fresh_conn) (bump_poll no_calls))
           MEMCACHED_SUCCESS).
  vm_compute. reflexivity.
Defined.

(** ** Input processing while the kernel refuses a send *)

Lemma fire_callbacks_until_failure (w : world) (i : memcached_instance_st) :
  forall (number k : nat) (c : calls),
    (k <= number)%nat ->
    (forall j, (j < k)%nat -> w_callback w (n_callback c + j) = MEMCACHED_SUCCESS) ->
    ((k < number)%nat -> w_callback w (n_callback c + k) <> MEMCACHED_SUCCESS) ->
    fire_callbacks w number (mkMachine i c)
    = Done (tt, mkMachine i
                  (Nat.iter (if (k <? number)%nat then S k else number) bump_callback c)).
Proof.
  assert (Hb : forall c, n_callback (bump_callback c) = S (n_callback c))
    by (intros c; destruct c; reflexivity).
  induction number as [|n IH]; intros k c Hk Hok Hfail.
  - assert (k = 0)%nat by lia. subst k. reflexivity.
  - cbn [fire_callbacks]. unfold call_callback.
    cbv beta iota delta [bind get_sys put_sys ret]. cbn [sys inst].
    destruct k as [|k].
    + specialize (Hfail ltac:(lia)). rewrite Nat.add_0_r in Hfail.
      destruct (return_eqb (w_callback w (n_callback c)) MEMCACHED_SUCCESS) eqn:E.
      * apply return_eqb_eq in E. contradiction.
      * reflexivity.
    + pose proof (Hok 0%nat ltac:(lia)) as H0. rewrite Nat.add_0_r in H0.
      rewrite H0. cbn [return_eqb].
      rewrite (IH k (bump_callback c)).
      * rewrite <- Nat.iter_succ_r.
        change (S k <? S n)%nat with (k <? n)%nat.
        destruct (k <? n)%nat; reflexivity.
      * lia.
      * intros j Hj. rewrite Hb.
        replace (S (n_callback c) + j)%nat with (n_callback c + S j)%nat by lia.
        apply Hok. lia.
      * intros Hlt. rewrite Hb.
        replace (S (n_callback c) + k)%nat with (n_callback c + S k)%nat by lia.
        apply Hfail. lia.
Qed.

(** X28: registered callbacks fire in order until the first one fails.
    When the owner has [number] callbacks registered,
    [process_input_buffer] reads one response and returns [true] whatever
    the response and the callbacks answer.  If the response is not SUCCESS
    no callback is invoked; otherwise, when the first [k] callbacks answer
    SUCCESS and the next one (if any) does not, exactly [k + 1] callbacks
    are invoked, or all [number] of them when none fails. *)
Theorem process_input_buffer_callbacks (w : world) (i i1 : memcached_instance_st)
        (c : calls) (r : Memcached) (number k : nat) (rc : memcached_return_t) :
  root i = Some r ->
  callbacks r = Some number ->
  w_response w (n_response c) i = (rc, i1) ->
  (k <= number)%nat ->
  (forall j, (j < k)%nat -> w_callback w (n_callback c + j) = MEMCACHED_SUCCESS) ->
  ((k < number)%nat -> w_callback w (n_callback c + k) <> MEMCACHED_SUCCESS) ->
  process_input_buffer w (mkMachine i c)
  = Done (true,
          mkMachine i1
            (if return_eqb rc MEMCACHED_SUCCESS
             then Nat.iter (if (k <? number)%nat then S k else number) bump_callback
                           (bump_response c)
             else bump_response c)).
Proof.
  intros Hr Hcb Hresp Hk Hok Hfail.
  unfold process_input_buffer. unfold bind at 1. unfold get_root. cbn [inst].
  rewrite Hr, Hcb. unfold bind at 1. unfold memcached_response.
  cbv beta iota delta [bind get_sys get_inst put_inst put_sys ret]. cbn [sys inst].
  rewrite Hresp. cbv beta iota. cbn [sys inst].
  destruct (return_eqb rc MEMCACHED_SUCCESS); [|reflexivity].
  rewrite (fire_callbacks_until_failure w i1 number k (bump_response c) Hk).
  - reflexivity.
  - intros j Hj. replace (n_callback (bump_response c)) with (n_callback c)
      by (destruct c; reflexivity). apply Hok. exact Hj.
  - intros Hlt. replace (n_callback (bump_response c)) with (n_callback c)
      by (destruct c; reflexivity). apply Hfail. exact Hlt.
Qed.

Lemma process_input_buffer_callbacks_witness :
  process_input_buffer failing_callback_world (mkMachine callback_conn no_calls)
  = Done (true,
          mkMachine callback_conn
            (if return_eqb MEMCACHED_SUCCESS MEMCACHED_SUCCESS
             then Nat.iter (if (1 <? 3)%nat then 2%nat else 3%nat) bump_callback
                           (bump_response no_calls)
             else bump_response no_calls)).
Proof.
  apply (process_input_buffer_callbacks failing_callback_world callback_conn
           callback_conn no_calls (mkMemcached 5000 false true (Some 3%nat) [])
           3 1 MEMCACHED_SUCCESS).
  - reflexivity.
  - reflexivity.
  - reflexivity.
  - lia.
  - intros j Hj. assert (j = 0)%nat by lia. subst j. reflexivity.
  - intros _. discriminate.
Defined.






(** ** A send that never makes progress *)

Lemma io_flush_loop_spins (w : world) :
  (forall k, stalls (w_send w k) = true) ->
  forall (fuel : nat) (write_length : Z) (m : machine),
    0 < write_length < 2 ^ 64 ->
    io_flush_loop w fuel write_length m = OutOfFuel.
Proof.
  intros Hstall. induction fuel as [|fuel IH]; intros wl m Hwl; [reflexivity|].
  cbn [io_flush_loop].
  replace (wl =? 0) with false by (symmetry; apply Z.eqb_neq; lia).
  unfold bind at 1. unfold sys_send.
  cbv beta iota delta [bind get_sys put_sys ret]. cbn [sys inst].
  specialize (Hstall (n_send (sys m))).
  destruct (w_send w (n_send (sys m))) as [e|n]; cbn [stalls] in Hstall.
  - rewrite Hstall. apply IH. exact Hwl.
  - apply Z.leb_le in Hstall.
    assert (Hk : kernel_count n wl = 0) by (unfold kernel_count; lia).
    rewrite Hk. change (wrap32 0) with 0. rewrite Z.sub_0_r.
    unfold modify. cbn [sys inst].
    replace (wrap64 wl) with wl by (unfold wrap64; rewrite Z.mod_small; lia).
    apply IH. exact Hwl.
Qed.

(** X30: the flush loop has no bound on retries that make no progress.
    When the purge passes, bytes are pending and every send call answers
    [ENOBUFS] or a count of zero, [io_flush] does not return: the send is
    repeated at once, without waiting, however many steps are allowed. *)
Theorem io_flush_spins_without_progress (w : world) (with_flush : bool)
        (i i1 : memcached_instance_st) (c : calls) :
  w_purge w (n_purge c) i = (true, i1) ->
  0 < write_buffer_offset i1 < 2 ^ 64 ->
  (forall k, stalls (w_send w k) = true) ->
  forall fuel, io_flush w fuel with_flush (mkMachine i c) = OutOfFuel.
Proof.
  intros Hpurge Hoff Hstall fuel. unfold io_flush.
  unfold bind at 1. unfold memcached_purge.
  cbv beta iota delta [bind get_sys get_inst put_inst put_sys ret]. cbn [sys inst].
  rewrite Hpurge. cbv beta iota. cbn [negb sys inst].
  rewrite (io_flush_loop_spins w Hstall fuel (write_buffer_offset i1)); [reflexivity|].
  exact Hoff.
Qed.

Lemma io_flush_spins_without_progress_witness :
  io_flush quiet_world 1000 true (mkMachine worn_conn no_calls) = OutOfFuel.
Proof.
  apply (io_flush_spins_without_progress quiet_world true worn_conn worn_conn no_calls).
  - reflexivity.
  - vm_compute. split; reflexivity.
  - intros k. reflexivity.
Defined.

(** * The claims revisited over every run *)

(** ** Datagram send: attempts and errors *)

(** The datagram send loop, for every run: a datagram send whose header
    slot is free calls the kernel's datagram send at least once and at
    most 4 times ([k] calls); every call but the last one reported neither
    success nor an error (a count of zero), so a new attempt is made only
    after such an answer; an answer with an error is the last call (never
    retried): [EMSGSIZE] returns WRITE_FAILURE and records it, any other
    errno returns the errno failure and records the captured errno. *)
Theorem vdo_udp_attempts_and_errors (w : world) first rest (m : machine) :
  vector_slot_used first = false ->
  exists rc m' k,
    _vdo_udp w (first :: rest) m = Done (rc, m')
    /\ n_sendmsg (sys m') = (n_sendmsg (sys m) + k)%nat
    /\ (1 <= k <= 4)%nat
    /\ (forall j, (S j < k)%nat ->
          no_verdict (w_sendmsg w (n_sendmsg (sys m) + j)) = true)
    /\ (forall j e, (j < k)%nat ->
          w_sendmsg w (n_sendmsg (sys m) + j) = IoErr e ->
          S j = k
          /\ rc = (if e =? EMSGSIZE then MEMCACHED_WRITE_FAILURE else MEMCACHED_ERRNO)
          /\ error_messages (inst m')
             = (if e =? EMSGSIZE then (MEMCACHED_WRITE_FAILURE, 0)
                else (MEMCACHED_ERRNO, e)) :: error_messages (inst m)).
Proof.
  intros H. rewrite (vdo_udp_unfold w first rest m H).
  destruct (vdo_udp_loop_spec w 5 (mkMachine (increment_udp_message_id (inst m)) (sys m)))
    as (rc & m' & k & Run & Cnt & Bound & Before & Last & _).
  pose proof (vdo_udp_loop_keeps_id w 5 _ rc m' Run) as (_ & _ & _ & _ & Once).
  cbn [sys inst] in *.
  exists rc, m', k. split; [exact Run|]. split; [exact Cnt|].
  split; [simpl in Bound; specialize (Once ltac:(lia)); lia|].
  split; [exact Before|].
  intros j e Hj Ans.
  destruct (Last j Hj) as (Hk & Hrc & Herr).
  - rewrite Ans. reflexivity.
  - rewrite Ans in Hrc, Herr. cbn [udp_verdict udp_error] in Hrc, Herr.
    rewrite error_messages_increment_udp_message_id in Herr.
    split; [exact Hk|]. split; [exact Hrc|].
    rewrite Herr. destruct (e =? EMSGSIZE); reflexivity.
Qed.

Lemma vdo_udp_attempts_and_errors_witness :
  exists rc m' k,
    _vdo_udp quiet_world udp_vector (mkMachine udp_conn no_calls) = Done (rc, m')
    /\ n_sendmsg (sys m') = (0 + k)%nat
    /\ (1 <= k <= 4)%nat
    /\ (forall j, (S j < k)%nat ->
          no_verdict (w_sendmsg quiet_world (0 + j)) = true)
    /\ (forall j e, (j < k)%nat ->
          w_sendmsg quiet_world (0 + j) = IoErr e ->
          S j = k
          /\ rc = (if e =? EMSGSIZE then MEMCACHED_WRITE_FAILURE else MEMCACHED_ERRNO)
          /\ error_messages (inst m')
             = (if e =? EMSGSIZE then (MEMCACHED_WRITE_FAILURE, 0)
                else (MEMCACHED_ERRNO, e)) :: []).
Proof.
  apply (vdo_udp_attempts_and_errors quiet_world (mkVector None 0)
           [mkVector (Some [103; 101; 116]) 3] (mkMachine udp_conn no_calls)).
  reflexivity.
Defined.

(** ** Refill: every run that ends with data *)








(** ** Line read: the incoming bytes, buffered or received *)
















Section LineRead.

Variable w : world.
Variable nd : bool.
Variable T : nat.
Variable size : Z.
Hypothesis size_small : size < 2 ^ 64.
Hypothesis completes : completes_within w T.



End LineRead.


